(** * IndicVideoSearch: the resumable chunk-processing pipeline

    A shallow embedding of [src/rag_pipeline/video_summarizer.py]
    (class [VideoSummarizer]) and the properties its specification states.

    Conventions of the model:
    - Python [float] times are exact rationals ([Q]); the literal [0.1] is
      [1 # 10].  Rounding of binary floating point is outside the model.
    - Python [str] is [string]; one [ascii] stands for one character.
    - The outside world (files, media, the remote model, the terminal, the
      clock) is an explicit [World] threaded through a state-and-exception
      monad [M]; every interaction is appended to a trace.
    - [print] calls are dropped, except the one that opens [summarize_chunk],
      which is kept as the trace event [EvSummarize].
    - Of [moviepy] (1.x, the version with [moviepy.editor]) the model keeps
      what the pipeline relies on: opening a file, [subclip], which decodes
      the frame at the start of the new view, and [get_frame].
    - Of the file system it keeps the regular files by name and the folders
      that exist.  [open] fails for reading when nothing is under the name,
      decoding fails on bytes that are not UTF-8, and [open] fails for
      writing when the folder of the name does not exist.  A name without
      an entry has nothing under it; directories under a file's name,
      permissions and a full disk are outside the model. *)

From Stdlib Require Import ZArith QArith Qround Qminmax String Ascii List Lia.
From Stdlib Require Import DecimalString Lqa.
From stdpp Require Import base list strings gmap.

Local Open Scope string_scope.
Local Open Scope list_scope.

(** ** Python string primitives *)

Module PyStr.

(** [len(s)] *)
Definition len (s : string) : nat := String.length s.

(** [s[:n]] for [0 <= n] *)
Fixpoint take (n : nat) (s : string) : string :=
  match n, s with
  | O, _ => EmptyString
  | S _, EmptyString => EmptyString
  | S n', String c t => String c (take n' t)
  end.

(** [s[n:]] for [0 <= n] *)
Fixpoint drop (n : nat) (s : string) : string :=
  match n, s with
  | O, _ => s
  | S _, EmptyString => EmptyString
  | S n', String _ t => drop n' t
  end.

(** [s[:k]] for any integer [k]: a negative [k] counts from the end. *)
Definition slice_to (s : string) (k : Z) : string :=
  if (k <? 0)%Z then take (Z.to_nat (Z.of_nat (len s) + k)) s
  else take (Z.to_nat k) s.

(** [s[k:]] for [0 <= k] (the only use in [os.path]). *)
Definition slice_from (s : string) (k : Z) : string := drop (Z.to_nat k) s.

(** [s.startswith(p)] *)
Fixpoint startswith (p s : string) : bool :=
  match p, s with
  | EmptyString, _ => true
  | String _ _, EmptyString => false
  | String a p', String b s' => if Ascii.eqb a b then startswith p' s' else false
  end.

(** [needle in hay] *)
Fixpoint contains (needle hay : string) : bool :=
  startswith needle hay ||
  match hay with
  | EmptyString => false
  | String _ t => contains needle t
  end.

(** [s.rfind(c)] for a one-character [c]: the last index, or [-1]. *)
Fixpoint rfind_from (c : ascii) (s : string) (i last : Z) : Z :=
  match s with
  | EmptyString => last
  | String a t => rfind_from c t (i + 1)%Z (if Ascii.eqb a c then i else last)
  end.

Definition rfind (c : ascii) (s : string) : Z := rfind_from c s 0%Z (-1)%Z.

(** [any(ch != c for ch in s)] *)
Fixpoint any_other (c : ascii) (s : string) : bool :=
  match s with
  | EmptyString => false
  | String a t => negb (Ascii.eqb a c) || any_other c t
  end.

(** [s.lower()] on ASCII letters. *)
Definition lower_char (a : ascii) : ascii :=
  let n := nat_of_ascii a in
  if (65 <=? n)%nat && (n <=? 90)%nat then ascii_of_nat (n + 32) else a.

Fixpoint lower (s : string) : string :=
  match s with
  | EmptyString => EmptyString
  | String a t => String (lower_char a) (lower t)
  end.

(** [str.isspace] on ASCII: tab .. carriage return, FS .. US, space. *)
Definition is_space (a : ascii) : bool :=
  let n := nat_of_ascii a in
  ((9 <=? n)%nat && (n <=? 13)%nat) || ((28 <=? n)%nat && (n <=? 32)%nat).

Fixpoint lstrip (s : string) : string :=
  match s with
  | EmptyString => EmptyString
  | String a t => if is_space a then lstrip t else s
  end.

Fixpoint rstrip (s : string) : string :=
  match s with
  | EmptyString => EmptyString
  | String a t =>
      match rstrip t with
      | EmptyString => if is_space a then EmptyString else String a EmptyString
      | r => String a r
      end
  end.

(** [s.strip()] *)
Definition strip (s : string) : string := rstrip (lstrip s).

(** [str(n)] for an integer. *)
Definition of_Z (z : Z) : string := NilZero.string_of_int (Z.to_int z).

(** [f"{z:02d}"]: at least two characters, zero padded; the sign counts. *)
Definition fmt_02d (z : Z) : string :=
  if (z <? 0)%Z then of_Z z
  else if (z <? 10)%Z then "0" ++ of_Z z
  else of_Z z.

End PyStr.

(** ** [os.path] (POSIX flavour) *)

Module OsPath.

Definition sep : ascii := "/"%char.
Definition extsep : ascii := "."%char.

(** [posixpath.basename]: [i = p.rfind(sep) + 1; return p[i:]] *)
Definition basename (p : string) : string :=
  PyStr.slice_from p (PyStr.rfind sep p + 1).

(** [genericpath._splitext]: split at the last dot of the last component,
    unless that component consists of leading dots only up to it. *)
Definition splitext (p : string) : string * string :=
  let sepIndex := PyStr.rfind sep p in
  let dotIndex := PyStr.rfind extsep p in
  if (sepIndex <? dotIndex)%Z
     && PyStr.any_other extsep
          (PyStr.take (Z.to_nat (dotIndex - (sepIndex + 1)))
                      (PyStr.slice_from p (sepIndex + 1)))
  then (PyStr.slice_to p dotIndex, PyStr.slice_from p dotIndex)
  else (p, EmptyString).

(** [s.rstrip(sep)] *)
Fixpoint rstrip_sep (s : string) : string :=
  match s with
  | EmptyString => EmptyString
  | String a t =>
      match rstrip_sep t with
      | EmptyString => if Ascii.eqb a sep then EmptyString else String a EmptyString
      | r => String a r
      end
  end.

(** [posixpath.dirname]: [head = p[:p.rfind(sep) + 1]], without its trailing
    separators unless it consists of separators only. *)
Definition dirname (p : string) : string :=
  let head := PyStr.slice_to p (PyStr.rfind sep p + 1) in
  if PyStr.any_other sep head then rstrip_sep head else head.

(** [posixpath.join(a, b)] for two components. *)
Definition join (a b : string) : string :=
  if PyStr.startswith "/" b then b
  else if (PyStr.len a =? 0)%nat || PyStr.startswith "/" (PyStr.drop (PyStr.len a - 1) a)
       then a ++ b
       else a ++ "/" ++ b.

End OsPath.

(** ** Data model *)

(** A decoded raster frame; its content is opaque to the pipeline. *)
Definition Frame := nat.

(** An opened [VideoFileClip]: metadata and the decoder behind
    [get_frame], which yields a frame or the message of the error raised. *)
Record Video := {
  v_duration : Q;
  v_fps : Q;
  v_size : Z * Z;
  v_get_frame : Q -> Frame + string
}.

(** [video.subclip(start, end)]: a view on the source. *)
Record Clip := {
  clip_source : Video;
  clip_start : Q;
  clip_end : Q
}.

(** [clip.duration] *)
Definition clip_duration (c : Clip) : Q := (clip_end c - clip_start c)%Q.

(** The [video_info] dict of [ingest_video]. *)
Record VideoInfo := {
  vi_path : string;
  vi_duration : Q;
  vi_fps : Q;
  vi_size : Z * Z;
  vi_filename : string
}.

(** The [chunk_info] dict of [segment_video]. *)
Record ChunkInfo := {
  ci_chunk_number : nat;
  ci_start_time : Q;
  ci_end_time : Q;
  ci_duration : Q;
  ci_timestamp : string
}.

(** One entry of [video_summary['chunks']]. *)
Record ChunkData := {
  cd_chunk_number : nat;
  cd_timestamp : string;
  cd_start_time : Q;
  cd_end_time : Q;
  cd_duration : Q;
  cd_summary : string;
  cd_summary_length : nat
}.

(** The [video_summary] dict: the persisted artifact. *)
Record VideoSummary := {
  vs_video_name : string;
  vs_video_path : string;
  vs_total_duration : Q;
  vs_fps : Q;
  vs_size : Z * Z;
  vs_processing_date : nat;
  vs_total_chunks : nat;
  vs_chunk_duration : Q;
  vs_chunks : list ChunkData
}.

(** The attributes set by [VideoSummarizer.__init__]. *)
Record VideoSummarizer := {
  chunk_duration : Q;
  max_summary_chars : Z
}.

Definition init : VideoSummarizer :=
  {| chunk_duration := 30%Q; max_summary_chars := 1500%Z |}.

(** ** The outside world *)

(** What a regular file holds: a JSON document of the artifact's schema, a
    UTF-8 text that is not JSON, or bytes that are not UTF-8.  JSON
    documents of another shape are not represented. *)
Inductive FileContent :=
| Json (s : VideoSummary)
| Garbage
| NotUtf8.

(** A media file: one [VideoFileClip] opens, or one it fails on. *)
Inductive MediaFile :=
| Playable (v : Video)
| Undecodable (msg : string).

(** The parameters of the instruction template and the attached frames. *)
Record Request := {
  rq_chunk_duration : Q;
  rq_timestamp : string;
  rq_duration : Q;
  rq_max_chars : Z;
  rq_frames : list Frame
}.

(** What [model.generate_content(...).text] does: a text, or an exception. *)
Inductive Response :=
| Text (s : string)
| Failure (msg : string).

Inductive Event :=
| EvIngest (path : string)
| EvGetFrame (t : Q)
| EvSummarize (chunk_number : nat)
| EvGenerate (rq : Request)
| EvSleep (secs : nat)
| EvInput
| EvWrite (path : string).

Record World := {
  w_files : gmap string FileContent;     (* the regular files, by name *)
  w_dirs : gset string;                  (* the folders that exist, by name *)
  w_media : gmap string MediaFile;
  w_model : nat -> Request -> Response;  (* the k-th remote call *)
  w_calls : nat;                         (* remote calls made so far *)
  w_stdin : list string;                 (* lines the user will type *)
  w_now : nat;                           (* the clock, in seconds *)
  w_trace : list Event                   (* oldest first *)
}.

Definition log (e : Event) (w : World) : World :=
  {| w_files := w_files w; w_dirs := w_dirs w; w_media := w_media w;
     w_model := w_model w; w_calls := w_calls w;
     w_stdin := w_stdin w; w_now := w_now w;
     w_trace := w_trace w ++ [e] |}.

(** ** State and exceptions *)

Inductive outcome (A : Type) :=
| Returned (a : A)
| Raised (msg : string).
Arguments Returned {A} a.
Arguments Raised {A} msg.

Definition M (A : Type) : Type := World -> outcome A * World.

Definition ret {A} (a : A) : M A := fun w => (Returned a, w).

Definition raise {A} (msg : string) : M A := fun w => (Raised msg, w).

Definition bind {A B} (m : M A) (k : A -> M B) : M B :=
  fun w => match m w with
           | (Returned a, w') => k a w'
           | (Raised e, w') => (Raised e, w')
           end.

(** [try: body  except Exception as e: handler(str(e))]; the effects of the
    body up to the exception stay. *)
Definition try_except {A} (body : M A) (handler : string -> M A) : M A :=
  fun w => match body w with
           | (Returned a, w') => (Returned a, w')
           | (Raised e, w') => handler e w'
           end.

Notation "'let*' x ':=' m 'in' k" := (bind m (fun x => k))
  (at level 10, x pattern, m at level 100, k at level 200).
Notation "m ';;' k" := (bind m (fun _ => k))
  (at level 100, k at level 200, right associativity).

Definition emit (e : Event) : M unit := fun w => (Returned tt, log e w).

(** [time.sleep(secs)] *)
Definition sleep (secs : nat) : M unit :=
  fun w => (Returned tt,
            log (EvSleep secs)
              {| w_files := w_files w; w_dirs := w_dirs w; w_media := w_media w;
                 w_model := w_model w; w_calls := w_calls w;
                 w_stdin := w_stdin w;
                 w_now := w_now w + secs; w_trace := w_trace w |}).

(** [datetime.now().isoformat()] *)
Definition now : M nat := fun w => (Returned (w_now w), w).

(** [input(prompt)] *)
Definition input : M string :=
  fun w => match w_stdin w with
           | [] => (Raised "EOF when reading a line", log EvInput w)
           | line :: rest =>
               (Returned line,
                log EvInput
                  {| w_files := w_files w; w_dirs := w_dirs w; w_media := w_media w;
                     w_model := w_model w; w_calls := w_calls w;
                     w_stdin := rest;
                     w_now := w_now w; w_trace := w_trace w |})
           end.

(** [os.path.exists(path)] *)
Definition path_exists (path : string) : M bool :=
  fun w => (Returned (bool_decide (is_Some (w_files w !! path))), w).

(** The classes of the exceptions that [open(path, 'r', encoding='utf-8')]
    and [json.load] raise on the files of the model. *)
Inductive LoadError :=
| FileNotFoundError
| JSONDecodeError
| UnicodeDecodeError.

(** [str(e)] of the [FileNotFoundError] of [open(path, ...)], for a path
    that [repr] shows between single quotes as it is. *)
Definition no_such_file (path : string) : string :=
  "[Errno 2] No such file or directory: '" ++ path ++ "'".

(** [str(e)] for such an exception; for the last two the text stands for
    what the decoder reports about the content at hand. *)
Definition load_error_text (e : LoadError) (path : string) : string :=
  match e with
  | FileNotFoundError => no_such_file path
  | JSONDecodeError => "Expecting value: line 1 column 1 (char 0)"
  | UnicodeDecodeError =>
      "'utf-8' codec can't decode byte 0xff in position 0: invalid start byte"
  end.

(** What [with open(path, 'r', encoding='utf-8') as f: json.load(f)] ends
    in: the document, or an exception of one of the classes. *)
Definition read_json (path : string) (w : World) : VideoSummary + LoadError :=
  match w_files w !! path with
  | None => inr FileNotFoundError
  | Some Garbage => inr JSONDecodeError
  | Some NotUtf8 => inr UnicodeDecodeError
  | Some (Json s) => inl s
  end.

(** [with open(path, 'r', encoding='utf-8') as f: json.load(f)] *)
Definition load_json (path : string) : M VideoSummary :=
  fun w => match read_json path w with
           | inl s => (Returned s, w)
           | inr e => (Raised (load_error_text e path), w)
           end.

(** [try: with open(path, 'r', encoding='utf-8') as f: s = json.load(f);
    return k(s)  except classes: return handler]: an exception of another
    class goes on to the caller. *)
Definition load_json_except {A} (path : string) (classes : LoadError -> bool)
    (k : VideoSummary -> A) (handler : A) : M A :=
  fun w => match read_json path w with
           | inl s => (Returned (k s), w)
           | inr e => if classes e then (Returned handler, w)
                      else (Raised (load_error_text e path), w)
           end.

(** [os.makedirs(folder, exist_ok=True)] *)
Definition makedirs (folder : string) : M unit :=
  fun w => (Returned tt,
            {| w_files := w_files w; w_dirs := {[folder]} ∪ w_dirs w;
               w_media := w_media w; w_model := w_model w; w_calls := w_calls w;
               w_stdin := w_stdin w; w_now := w_now w; w_trace := w_trace w |}).

(** Whether [open(path, 'w')] finds where to put the file: it is there
    already, or its folder is the working directory, the root, or one of
    the folders that exist. *)
Definition folder_exists (path : string) (w : World) : bool :=
  bool_decide (is_Some (w_files w !! path))
  || negb (PyStr.any_other OsPath.sep (OsPath.dirname path))
  || bool_decide (OsPath.dirname path ∈ w_dirs w).

(** [with open(path, 'w') as f: json.dump(s, f)]: overwrites; [open] raises
    [FileNotFoundError] when the folder of [path] does not exist. *)
Definition dump_json (s : VideoSummary) (path : string) : M unit :=
  fun w =>
    if folder_exists path w
    then (Returned tt,
          log (EvWrite path)
            {| w_files := <[path := Json s]> (w_files w); w_dirs := w_dirs w;
               w_media := w_media w; w_model := w_model w; w_calls := w_calls w;
               w_stdin := w_stdin w; w_now := w_now w; w_trace := w_trace w |})
    else (Raised (no_such_file path), w).

(** [model.generate_content(content).text]: one remote call. *)
Definition generate_content (rq : Request) : M string :=
  fun w =>
    let w' := log (EvGenerate rq)
                {| w_files := w_files w; w_dirs := w_dirs w; w_media := w_media w;
                   w_model := w_model w; w_calls := S (w_calls w);
                   w_stdin := w_stdin w;
                   w_now := w_now w; w_trace := w_trace w |} in
    match w_model w (w_calls w) rq with
    | Text s => (Returned s, w')
    | Failure e => (Raised e, w')
    end.

(** [chunk.get_frame(t)]: decodes the source at [clip_start + t]. *)
Definition get_frame (chunk : Clip) (t : Q) : M Frame :=
  fun w =>
    let w' := log (EvGetFrame (clip_start chunk + t)%Q) w in
    match v_get_frame (clip_source chunk) (clip_start chunk + t)%Q with
    | inl f => (Returned f, w')
    | inr e => (Raised e, w')
    end.

(** ** Python arithmetic on times *)

Definition Qltb (x y : Q) : bool := negb (Qle_bool y x).

(** [int(x)]: truncation towards zero. *)
Definition py_int (x : Q) : Z := if Qle_bool 0%Q x then Qfloor x else Qceiling x.

(** [x // y] and [x % y] on floats. *)
Definition floordiv (x y : Q) : Q := inject_Z (Qfloor (x / y)%Q).
Definition pymod (x y : Q) : Q := (x - y * floordiv x y)%Q.

(** [int(np.ceil(x))] *)
Definition np_ceil (x : Q) : Z := Qceiling x.

(** ** The methods of [VideoSummarizer] *)

(** The marker every failure text starts with. *)
Definition error_marker : string := "Error processing chunk".

(** [f"Error processing chunk: {str(e)}"] *)
Definition error_text (e : string) : string := error_marker ++ ": " ++ e.

(** [ingest_video] *)
Definition ingest_video (video_path : string) : M (Video * VideoInfo) :=
  fun w =>
    match w_media w !! video_path with
    | None => (Raised ("Video file not found: " ++ video_path), w)
    | Some (Undecodable msg) =>
        (Raised ("Error loading video: " ++ msg), log (EvIngest video_path) w)
    | Some (Playable video) =>
        (Returned (video,
                   {| vi_path := video_path;
                      vi_duration := v_duration video;
                      vi_fps := v_fps video;
                      vi_size := v_size video;
                      vi_filename := OsPath.basename video_path |}),
         log (EvIngest video_path) w)
    end.

(** The [timestamp] label: [mm:ss - mm:ss]. *)
Definition timestamp_label (start_time end_time : Q) : string :=
  PyStr.fmt_02d (py_int (floordiv start_time 60%Q)) ++ ":" ++
  PyStr.fmt_02d (py_int (pymod start_time 60%Q)) ++ " - " ++
  PyStr.fmt_02d (py_int (floordiv end_time 60%Q)) ++ ":" ++
  PyStr.fmt_02d (py_int (pymod end_time 60%Q)).

(** [video.subclip(t_start, t_end)] of moviepy 1.x: a negative time counts
    from the end, a start beyond the duration raises [ValueError], and
    building the shifted view ([fl_time], then [set_make_frame]) decodes its
    first frame, that is the source at [t_start]; a decoder error is
    raised to the caller. *)
Definition subclip (video : Video) (t_start t_end : Q) : M Clip :=
  let t_start := if Qltb t_start 0 then (v_duration video + t_start)%Q else t_start in
  if Qltb (v_duration video) t_start
  then raise "t_start should be smaller than the clip's duration"
  else
    let t_end := if Qltb t_end 0 then (v_duration video + t_end)%Q else t_end in
    let newclip := {| clip_source := video; clip_start := t_start; clip_end := t_end |} in
    get_frame newclip 0 ;;
    ret newclip.

(** What the loop of [segment_video] appends at index [i] when [subclip]
    returns the view from [start_time] to [end_time]. *)
Definition make_chunk (self : VideoSummarizer) (video : Video) (duration : Q) (i : nat)
  : Clip * ChunkInfo :=
  let start_time := (inject_Z (Z.of_nat i) * chunk_duration self)%Q in
  let end_time := Qmin (inject_Z (Z.of_nat i + 1) * chunk_duration self)%Q duration in
  ({| clip_source := video; clip_start := start_time; clip_end := end_time |},
   {| ci_chunk_number := i + 1;
      ci_start_time := start_time;
      ci_end_time := end_time;
      ci_duration := (end_time - start_time)%Q;
      ci_timestamp := timestamp_label start_time end_time |}).

(** [chunk_count = int(np.ceil(duration / self.chunk_duration))] *)
Definition chunk_count (self : VideoSummarizer) (duration : Q) : Z :=
  np_ceil (duration / chunk_duration self)%Q.

(** The [for i in range(chunk_count)] loop of [segment_video]; [chunks] is
    the list built so far.  [subclip] is called outside any [try]. *)
Fixpoint segment_loop (self : VideoSummarizer) (video : Video) (duration : Q)
    (indices : list nat) (chunks : list (Clip * ChunkInfo))
  : M (list (Clip * ChunkInfo)) :=
  match indices with
  | [] => ret chunks
  | i :: rest =>
      let start_time := (inject_Z (Z.of_nat i) * chunk_duration self)%Q in
      let end_time := Qmin (inject_Z (Z.of_nat i + 1) * chunk_duration self)%Q duration in
      let* chunk := subclip video start_time end_time in
      let chunk_info :=
        {| ci_chunk_number := i + 1;
           ci_start_time := start_time;
           ci_end_time := end_time;
           ci_duration := (end_time - start_time)%Q;
           ci_timestamp := timestamp_label start_time end_time |} in
      segment_loop self video duration rest (chunks ++ [(chunk, chunk_info)])
  end.

(** [segment_video]; the division raises when [chunk_duration] is zero. *)
Definition segment_video (self : VideoSummarizer) (video : Video) (video_info : VideoInfo)
  : M (list (Clip * ChunkInfo)) :=
  let duration := vi_duration video_info in
  if Qeq_bool (chunk_duration self) 0%Q then raise "float division by zero"
  else segment_loop self video duration
         (seq 0 (Z.to_nat (chunk_count self duration))) [].

(** [frame_times] of [extract_frames_and_audio] *)
Definition frame_times (duration : Q) : list Q :=
  if Qltb (1 # 10) duration
  then [0%Q; (duration / 2)%Q; (duration - (1 # 10))%Q]
  else [0%Q].

(** The [for t in frame_times] loop; [frames] is the list built so far. *)
Fixpoint sample_loop (chunk : Clip) (duration : Q) (ts : list Q) (frames : list Frame)
  : M (list Frame) :=
  match ts with
  | [] => ret frames
  | t :: rest =>
      if Qltb t duration
      then let* frame := get_frame chunk t in
           sample_loop chunk duration rest (frames ++ [frame])
      else sample_loop chunk duration rest frames
  end.

(** [extract_frames_and_audio]; the constant second component is dropped. *)
Definition extract_frames_and_audio (chunk : Clip) : M (list Frame) :=
  let duration := clip_duration chunk in
  sample_loop chunk duration (frame_times duration) [].

(** The cap applied to the response text. *)
Definition cap_summary (self : VideoSummarizer) (summary : string) : string :=
  if (max_summary_chars self <? Z.of_nat (PyStr.len summary))%Z
  then PyStr.slice_to summary (max_summary_chars self - 3) ++ "..."
  else summary.

(** The [try] body of [summarize_chunk]: sample, build the request, call
    the remote model once, cap the text.  [frames_to_base64] only
    re-encodes the frames and is left out. *)
Definition summarize_attempt (self : VideoSummarizer) (chunk : Clip)
    (chunk_info : ChunkInfo) : M string :=
  let* frames := extract_frames_and_audio chunk in
  let* summary :=
    generate_content
      {| rq_chunk_duration := chunk_duration self;
         rq_timestamp := ci_timestamp chunk_info;
         rq_duration := ci_duration chunk_info;
         rq_max_chars := max_summary_chars self;
         rq_frames := frames |} in
  ret (cap_summary self summary).

(** [summarize_chunk]: one attempt; [except Exception as e] catches every
    exception of the body and returns its message behind the marker. *)
Definition summarize_chunk (self : VideoSummarizer) (chunk : Clip) (chunk_info : ChunkInfo)
  : M string :=
  emit (EvSummarize (ci_chunk_number chunk_info)) ;;
  try_except
    (summarize_attempt self chunk chunk_info)
    (fun e => ret (error_text e)).

(** The loop of [create_video_summary_json]. *)
Definition chunk_data (entry : ChunkInfo * string) : ChunkData :=
  let '(chunk_info, summary) := entry in
  {| cd_chunk_number := ci_chunk_number chunk_info;
     cd_timestamp := ci_timestamp chunk_info;
     cd_start_time := ci_start_time chunk_info;
     cd_end_time := ci_end_time chunk_info;
     cd_duration := ci_duration chunk_info;
     cd_summary := summary;
     cd_summary_length := PyStr.len summary |}.

(** [create_video_summary_json] *)
Definition create_video_summary_json (self : VideoSummarizer) (video_info : VideoInfo)
    (chunk_summaries : list (ChunkInfo * string)) : M VideoSummary :=
  let* date := now in
  ret {| vs_video_name := vi_filename video_info;
         vs_video_path := vi_path video_info;
         vs_total_duration := vi_duration video_info;
         vs_fps := vi_fps video_info;
         vs_size := vi_size video_info;
         vs_processing_date := date;
         vs_total_chunks := length chunk_summaries;
         vs_chunk_duration := chunk_duration self;
         vs_chunks := map chunk_data chunk_summaries |}.

(** The name [save_summary_json] derives when no [output_path] is given. *)
Definition default_output_path (video_summary : VideoSummary) : string :=
  let video_name := fst (OsPath.splitext (vs_video_name video_summary)) in
  OsPath.join "output" (video_name ++ "_summary.json").

(** [save_summary_json]: only the folder [output] is made, whatever the
    [output_path]. *)
Definition save_summary_json (video_summary : VideoSummary) (output_path : option string)
  : M string :=
  let output_folder := "output" in
  makedirs output_folder ;;
  let output_path :=
    match output_path with
    | None => default_output_path video_summary
    | Some p => p
    end in
  dump_json video_summary output_path ;;
  ret output_path.

(** The name [check_existing_summary] probes. *)
Definition summary_filename (video_path : string) : string :=
  let video_filename := OsPath.basename video_path in
  let video_name := fst (OsPath.splitext video_filename) in
  video_name ++ "_summary.json".

(** [check_existing_summary]; [None] stands for [(None, None)].  Only a
    [JSONDecodeError] and a [FileNotFoundError] are caught. *)
Definition check_existing_summary (video_path : string)
  : M (option (VideoSummary * string)) :=
  let summary_filename := summary_filename video_path in
  let* found := path_exists summary_filename in
  if found
  then load_json_except summary_filename
         (fun e => match e with
                   | JSONDecodeError | FileNotFoundError => true
                   | UnicodeDecodeError => false
                   end)
         (fun existing_summary => Some (existing_summary, summary_filename))
         None
  else ret None.

(** The failed-chunk scan, as written in [resume_failed_processing]
    (lines 234-237): [failed_chunks] is the list built so far. *)
Fixpoint resume_failed_scan (chunks : list ChunkData) (failed_chunks : list nat)
  : list nat :=
  match chunks with
  | [] => failed_chunks
  | chunk :: rest =>
      if PyStr.contains "Error processing chunk" (cd_summary chunk)
      then resume_failed_scan rest (failed_chunks ++ [cd_chunk_number chunk])
      else resume_failed_scan rest failed_chunks
  end.

(** The same scan, as written in [process_video] (lines 319-322). *)
Fixpoint process_failed_scan (chunks : list ChunkData) (failed_chunks : list nat)
  : list nat :=
  match chunks with
  | [] => failed_chunks
  | chunk :: rest =>
      if PyStr.contains "Error processing chunk" (cd_summary chunk)
      then process_failed_scan rest (failed_chunks ++ [cd_chunk_number chunk])
      else process_failed_scan rest failed_chunks
  end.

(** The specification's [classify_failed]: the indices of the chunks whose
    stored text contains the marker. *)
Definition classify_failed (s : VideoSummary) : list nat :=
  map cd_chunk_number
      (filter (fun c => PyStr.contains error_marker (cd_summary c) = true) (vs_chunks s)).

(** The two assignments to [existing_summary['chunks'][i]]. *)
Definition set_summary (summary : string) (c : ChunkData) : ChunkData :=
  {| cd_chunk_number := cd_chunk_number c;
     cd_timestamp := cd_timestamp c;
     cd_start_time := cd_start_time c;
     cd_end_time := cd_end_time c;
     cd_duration := cd_duration c;
     cd_summary := summary;
     cd_summary_length := PyStr.len summary |}.

(** [for i, existing_chunk in enumerate(chunks)]: the first entry with the
    chunk's number is updated in place, then [break]. [rest] is what the
    enumeration has still to visit, [i] its position. *)
Fixpoint update_scan (number : nat) (summary : string) (i : nat)
    (rest chunks : list ChunkData) : list ChunkData :=
  match rest with
  | [] => chunks
  | existing_chunk :: rest' =>
      if Nat.eqb (cd_chunk_number existing_chunk) number
      then alter (set_summary summary) i chunks
      else update_scan number summary (S i) rest' chunks
  end.

Definition update_existing (number : nat) (summary : string) (chunks : list ChunkData)
  : list ChunkData :=
  update_scan number summary 0 chunks chunks.

(** One attempt of the resume loop: summarize, then update the entry. *)
Definition reprocess (self : VideoSummarizer) (chunk : Clip) (chunk_info : ChunkInfo)
    (existing : list ChunkData) : M (list ChunkData) :=
  let* summary := summarize_chunk self chunk chunk_info in
  ret (update_existing (ci_chunk_number chunk_info) summary existing).

(** The [for chunk, chunk_info in chunks] loop of
    [resume_failed_processing]; [existing] is [existing_summary['chunks']]. *)
Fixpoint resume_loop (self : VideoSummarizer) (failed_chunks : list nat)
    (chunks : list (Clip * ChunkInfo)) (existing : list ChunkData)
  : M (list ChunkData) :=
  match chunks with
  | [] => ret existing
  | (chunk, chunk_info) :: rest =>
      if bool_decide (ci_chunk_number chunk_info ∈ failed_chunks)
      then
        sleep 3 ;;
        let* existing' :=
          try_except
            (reprocess self chunk chunk_info existing)
            (fun e =>
               if PyStr.contains "429" e
               then sleep 60 ;;
                    try_except
                      (reprocess self chunk chunk_info existing)
                      (fun _ => ret existing)
               else ret existing) in
        resume_loop self failed_chunks rest existing'
      else resume_loop self failed_chunks rest existing
  end.

Definition set_processing_date (date : nat) (chunks : list ChunkData) (s : VideoSummary)
  : VideoSummary :=
  {| vs_video_name := vs_video_name s;
     vs_video_path := vs_video_path s;
     vs_total_duration := vs_total_duration s;
     vs_fps := vs_fps s;
     vs_size := vs_size s;
     vs_processing_date := date;
     vs_total_chunks := vs_total_chunks s;
     vs_chunk_duration := vs_chunk_duration s;
     vs_chunks := chunks |}.

(** [resume_failed_processing]; the outer handler only re-raises. *)
Definition resume_failed_processing (self : VideoSummarizer) (video_path : string)
    (existing_summary_path : string) : M (VideoSummary * string) :=
  let* existing_summary := load_json existing_summary_path in
  let failed_chunks := resume_failed_scan (vs_chunks existing_summary) [] in
  match failed_chunks with
  | [] => ret (existing_summary, existing_summary_path)
  | _ :: _ =>
      let* (video, video_info) := ingest_video video_path in
      let* chunks := segment_video self video video_info in
      let* existing := resume_loop self failed_chunks chunks (vs_chunks existing_summary) in
      let* date := now in
      let existing_summary := set_processing_date date existing existing_summary in
      let* output_file := save_summary_json existing_summary (Some existing_summary_path) in
      ret (existing_summary, output_file)
  end.

(** The progressive delay after a chunk at position [i]. *)
Definition pacing_delay (i : nat) : nat :=
  if (i <? 10)%nat then 2 else if (i <? 20)%nat then 4 else 6.

(** The [for i, (chunk, chunk_info) in enumerate(chunks)] loop of
    [process_video]. *)
Fixpoint fresh_loop (self : VideoSummarizer) (i : nat)
    (chunks : list (Clip * ChunkInfo)) (chunk_summaries : list (ChunkInfo * string))
  : M (list (ChunkInfo * string)) :=
  match chunks with
  | [] => ret chunk_summaries
  | (chunk, chunk_info) :: rest =>
      let* chunk_summaries' :=
        try_except
          (let* summary := summarize_chunk self chunk chunk_info in
           sleep (pacing_delay i) ;;
           ret (chunk_summaries ++ [(chunk_info, summary)]))
          (fun e =>
             if PyStr.contains "429" e
             then sleep 60 ;;
                  try_except
                    (let* summary := summarize_chunk self chunk chunk_info in
                     ret (chunk_summaries ++ [(chunk_info, summary)]))
                    (fun retry_error =>
                       ret (chunk_summaries ++ [(chunk_info, error_text retry_error)]))
             else ret (chunk_summaries ++ [(chunk_info, error_text e)])) in
      fresh_loop self (S i) rest chunk_summaries'
  end.

(** The answers the two prompts take for a yes, after [.lower().strip()]. *)
Definition accepts (answer : string) : bool :=
  let choice := PyStr.strip (PyStr.lower answer) in
  String.eqb choice "y" || String.eqb choice "yes" || String.eqb choice "".

(** Steps 1 to 4 of [process_video]. *)
Definition full_run (self : VideoSummarizer) (video_path : string)
    (output_path : option string) : M (VideoSummary * string) :=
  let* (video, video_info) := ingest_video video_path in
  let* chunks := segment_video self video video_info in
  let* chunk_summaries := fresh_loop self 0 chunks [] in
  let* video_summary := create_video_summary_json self video_info chunk_summaries in
  let* output_file := save_summary_json video_summary output_path in
  ret (video_summary, output_file).

(** [process_video] *)
Definition process_video (self : VideoSummarizer) (video_path : string)
    (output_path : option string) (force_reprocess : bool) : M (VideoSummary * string) :=
  let* early :=
    if force_reprocess then ret None
    else
      let* existing := check_existing_summary video_path in
      match existing with
      | Some (existing_summary, existing_path) =>
          match process_failed_scan (vs_chunks existing_summary) [] with
          | _ :: _ =>
              let* resume_choice := input in
              if accepts resume_choice
              then let* r := resume_failed_processing self video_path existing_path in
                   ret (Some r)
              else ret None
          | [] =>
              let* user_choice := input in
              if accepts user_choice
              then ret (Some (existing_summary, existing_path))
              else ret None
          end
      | None => ret None
      end in
  match early with
  | Some r => ret r
  | None => full_run self video_path output_path
  end.

(** ** How a computation moves the world

    Everything but [input] and the file writes leaves files, folders,
    media, the remote model and the terminal alone: it adds remote calls, lets time
    pass and extends the trace. *)

Definition evolve (k secs : nat) (evs : list Event) (w : World) : World :=
  {| w_files := w_files w; w_dirs := w_dirs w; w_media := w_media w;
     w_model := w_model w; w_calls := w_calls w + k;
     w_stdin := w_stdin w;
     w_now := w_now w + secs; w_trace := w_trace w ++ evs |}.

(** The events sampling and the remote call leave behind. *)
Definition io_event (e : Event) : Prop :=
  match e with
  | EvGetFrame _ | EvGenerate _ => True
  | _ => False
  end.

(** The chunk numbers [summarize_chunk] was entered with, oldest first. *)
Definition summarize_calls (evs : list Event) : list nat :=
  omap (fun e => match e with EvSummarize n => Some n | _ => None end) evs.

(** The waits, oldest first. *)
Definition sleeps (evs : list Event) : list nat :=
  omap (fun e => match e with EvSleep n => Some n | _ => None end) evs.

(** The remote calls, oldest first. *)
Definition remote_calls (evs : list Event) : list Request :=
  omap (fun e => match e with EvGenerate rq => Some rq | _ => None end) evs.

(** ** What the sampler asks of the decoder *)

(** The offsets of [ts] the guard [t < duration] lets through. *)
Definition admitted (duration : Q) (ts : list Q) : list Q :=
  filter (fun t => Qltb t duration = true) ts.

(** What the decoder answers at offset [t] of [chunk]. *)
Definition decode_at (chunk : Clip) (t : Q) : Frame + string :=
  v_get_frame (clip_source chunk) (clip_start chunk + t)%Q.

Definition frame_event (chunk : Clip) (t : Q) : Event :=
  EvGetFrame (clip_start chunk + t)%Q.

(** ** Worlds and inputs for examples *)

(** A text of [n] copies of [c]. *)
Fixpoint repeat_char (c : ascii) (n : nat) : string :=
  match n with
  | O => EmptyString
  | S n' => String c (repeat_char c n')
  end.

(** A video of the given duration whose decoder always answers. *)
Definition plain_video (duration : Q) : Video :=
  {| v_duration := duration; v_fps := 25%Q; v_size := (640, 480)%Z;
     v_get_frame := fun _ => inl 0 |}.

(** A world with one media file, no artifact and a scripted remote model. *)
Definition scripted_world (path : string) (duration : Q)
    (model : nat -> Request -> Response) : World :=
  {| w_files := ∅;
     w_dirs := ∅;
     w_media := {[ path := Playable (plain_video duration) ]};
     w_model := model;
     w_calls := 0;
     w_stdin := [];
     w_now := 0;
     w_trace := [] |}.

(** The first chunk of [plain_video duration] under [init]. *)
Definition first_chunk (duration : Q) : Clip * ChunkInfo :=
  make_chunk init (plain_video duration) duration 0.

(** A view of length zero at the start of [plain_video 30]. *)
Definition empty_clip : Clip :=
  {| clip_source := plain_video 30; clip_start := 0%Q; clip_end := 0%Q |}.

(** A remote model that answers every call with a rate-limit error. *)
Definition rate_limited : nat -> Request -> Response :=
  fun _ _ => Failure "429 Too Many Requests".

(** A stored entry for chunk [number] of a 30-second segmentation. *)
Definition stored_chunk (number : nat) (summary : string) : ChunkData :=
  chunk_data (snd (make_chunk init (plain_video 150) 150 (number - 1)), summary).

(** An artifact of [plain_video 150] holding the given entries. *)
Definition stored_artifact (chunks : list ChunkData) : VideoSummary :=
  {| vs_video_name := "talk.mp4";
     vs_video_path := "talk.mp4";
     vs_total_duration := 150%Q;
     vs_fps := 25%Q;
     vs_size := (640, 480)%Z;
     vs_processing_date := 0;
     vs_total_chunks := length chunks;
     vs_chunk_duration := 30%Q;
     vs_chunks := chunks |}.

(** An entry carries the length of its own text. *)
Definition length_consistent (c : ChunkData) : Prop :=
  cd_summary_length c = PyStr.len (cd_summary c).

(** [new] is [old] with the text of zero or more entries replaced, all of
    them entries whose number is in [numbers]. *)
Definition touched_only (numbers : list nat) (old new : list ChunkData) : Prop :=
  Forall2 (fun c c' =>
             c' = c \/
             (cd_chunk_number c ∈ numbers /\ exists summary, c' = set_summary summary c))
          old new.

(** A remote model whose first answer is a rate-limit error and whose
    later answers are texts. *)
Definition rate_limited_once : nat -> Request -> Response :=
  fun k _ =>
    match k with
    | O => Failure "429 Too Many Requests"
    | S _ => Text "A presenter greets the audience on stage"
    end.

(** A remote model that always answers with the same text. *)
Definition answering (text : string) : nat -> Request -> Response :=
  fun _ _ => Text text.

(** The specification's resume example: five chunks, the second and the
    fifth carrying the failure marker. *)
Definition partial_artifact : VideoSummary :=
  stored_artifact
    [stored_chunk 1 "A presenter greets the audience on stage";
     stored_chunk 2 "Error processing chunk: 429 Too Many Requests";
     stored_chunk 3 "The speaker walks to the podium quietly.";
     stored_chunk 4 "Slides show the agenda of the session.";
     stored_chunk 5 "Error processing chunk: timeout"].

(** [world] with [content] stored under [path]. *)
Definition with_file (path : string) (content : FileContent) (world : World) : World :=
  {| w_files := <[path := content]> (w_files world); w_dirs := w_dirs world;
     w_media := w_media world;
     w_model := w_model world; w_calls := w_calls world; w_stdin := w_stdin world;
     w_now := w_now world; w_trace := w_trace world |}.

(** [world] with [lines] waiting on the terminal. *)
Definition with_stdin (lines : list string) (world : World) : World :=
  {| w_files := w_files world; w_dirs := w_dirs world;
     w_media := w_media world;
     w_model := w_model world; w_calls := w_calls world; w_stdin := lines;
     w_now := w_now world; w_trace := w_trace world |}.

(** The world of the resume example: [partial_artifact] on disk, the video
    of 150 seconds in place, a remote model that now answers. *)
Definition resume_world : World :=
  with_file "talk_summary.json" (Json partial_artifact)
    (scripted_world "talk.mp4" 150 (answering "The speaker walks to the podium quietly.")).

(** An artifact without failed chunks, and a world that holds it where
    [check_existing_summary] looks, with a user who accepts twice. *)
Definition complete_artifact : VideoSummary :=
  stored_artifact
    [stored_chunk 1 "A presenter greets the audience on stage";
     stored_chunk 2 "The speaker walks to the podium quietly."].

Definition reuse_world : World :=
  with_stdin ["Y "; ""]
    (with_file "talk_summary.json" (Json complete_artifact)
       (scripted_world "videos/talk.mp4" 60 rate_limited)).

(** [c in s] for a character [c]. *)
Fixpoint has_char (c : ascii) (s : string) : bool :=
  match s with
  | EmptyString => false
  | String a t => Ascii.eqb c a || has_char c t
  end.

(** [sum(...)] over a list of times. *)
Definition Qsum (l : list Q) : Q := fold_right Qplus 0%Q l.

(** The [video_info] of [plain_video duration] opened as ["talk.mp4"]. *)
Definition plain_info (duration : Q) : VideoInfo :=
  {| vi_path := "talk.mp4"; vi_duration := duration; vi_fps := 25%Q;
     vi_size := (640, 480)%Z; vi_filename := "talk.mp4" |}.

(** ** More of [VideoSummarizer] *)

(** [load_existing_summary]: every exception of the body is caught and
    [None] returned. *)
Definition load_existing_summary (summary_path : string) : M (option VideoSummary) :=
  try_except
    (let* summary := load_json summary_path in
     ret (Some summary))
    (fun _ => ret None).

(** [s.replace('\n\n', '\n')]: left to right, without overlap. *)
Fixpoint replace_double_newline (s : string) : string :=
  match s with
  | EmptyString => EmptyString
  | String a t =>
      match t with
      | EmptyString => String a EmptyString
      | String b rest =>
          if Ascii.eqb a "010"%char && Ascii.eqb b "010"%char
          then String "010"%char (replace_double_newline rest)
          else String a (replace_double_newline t)
      end
  end.

(** The text [view_summary] prints for one chunk (lines 460-462). *)
Definition display_text (summary : string) : string :=
  let summary_text := PyStr.strip (replace_double_newline summary) in
  if (300 <? PyStr.len summary_text)%nat
  then (PyStr.take 300 summary_text ++ "...")%string
  else summary_text.

(** ** Further notions for the properties *)

(** What an attempt stores for an answer of the remote model. *)
Definition stored_text (self : VideoSummarizer) (r : Response) : string :=
  match r with
  | Text s => cap_summary self s
  | Failure e => error_text e
  end.

(** The path [save_summary_json] writes to. *)
Definition written_path (video_summary : VideoSummary) (output_path : option string)
  : string :=
  match output_path with
  | None => default_output_path video_summary
  | Some p => p
  end.

(** A world whose artifact under the probed name is not parseable. *)
Definition garbage_world : World :=
  with_file "talk_summary.json" Garbage
    (scripted_world "talk.mp4" 65 (answering "A presenter greets the audience on stage")).

(** [world] with the folder [folder] made. *)
Definition with_dir (folder : string) (world : World) : World :=
  {| w_files := w_files world; w_dirs := {[folder]} ∪ w_dirs world;
     w_media := w_media world; w_model := w_model world; w_calls := w_calls world;
     w_stdin := w_stdin world; w_now := w_now world; w_trace := w_trace world |}.


(** The decoder answers at the start of every chunk of the segmentation:
    what [subclip] asks for. *)
Definition starts_decode (self : VideoSummarizer) (video : Video) : Prop :=
  forall i : nat,
    (Z.of_nat i < chunk_count self (v_duration video))%Z ->
    exists f,
      v_get_frame video (inject_Z (Z.of_nat i) * chunk_duration self + 0)%Q = inl f.

(** The chunks of an opened video, and what segmenting it asks of the
    decoder. *)
Definition segments (self : VideoSummarizer) (video : Video) : list (Clip * ChunkInfo) :=
  map (make_chunk self video (v_duration video))
      (seq 0 (Z.to_nat (chunk_count self (v_duration video)))).

Definition segment_events (self : VideoSummarizer) (video : Video) : list Event :=
  map (fun c => frame_event (fst c) 0) (segments self video).


(** The resume example's artifact next to a video of 60 seconds, which has
    two chunks only. *)
Definition short_resume_world : World :=
  with_file "talk_summary.json" (Json partial_artifact)
    (scripted_world "talk.mp4" 60 (answering "The speaker walks to the podium quietly.")).

(** A video of 65 seconds whose decoder fails from the 60th second on. *)
Definition truncated_video : Video :=
  {| v_duration := 65; v_fps := 25%Q; v_size := (640, 480)%Z;
     v_get_frame := fun t => if Qle_bool 60 t then inr "failed to read the frame" else inl 0 |}.

(** A world with that video, the resume example's artifact and a remote
    model that answers. *)
Definition truncated_world : World :=
  {| w_files := {[ "talk_summary.json" := Json partial_artifact ]};
     w_dirs := ∅;
     w_media := {[ "talk.mp4" := Playable truncated_video ]};
     w_model := answering "A presenter greets the audience on stage";
     w_calls := 0;
     w_stdin := [];
     w_now := 0;
     w_trace := [] |}.

(** A world whose file under the probed name is not UTF-8. *)
Definition binary_world : World :=
  with_file "talk_summary.json" NotUtf8
    (scripted_world "talk.mp4" 65 (answering "A presenter greets the audience on stage")).

(** [s.isspace()] or [s == ''], on ASCII. *)
Fixpoint all_space (s : string) : bool :=
  match s with
  | EmptyString => true
  | String a t => PyStr.is_space a && all_space t
  end.

(** * Properties *)

(** ** The library functions on examples *)

Example basename_ex : OsPath.basename "videos/talk.v2.mp4" = "talk.v2.mp4".
Proof. reflexivity. Qed.

Example splitext_ex : OsPath.splitext "talk.v2.mp4" = ("talk.v2", ".mp4").
Proof. reflexivity. Qed.

Example splitext_dotfile : OsPath.splitext "dir/.hidden" = ("dir/.hidden", "").
Proof. reflexivity. Qed.

Example join_ex : OsPath.join "output" "talk_summary.json" = "output/talk_summary.json".
Proof. reflexivity. Qed.

Example fmt_ex : (PyStr.fmt_02d 5, PyStr.fmt_02d 12, PyStr.fmt_02d 123) = ("05", "12", "123").
Proof. reflexivity. Qed.

Example strip_ex : PyStr.strip (PyStr.lower "  YeS ") = "yes".
Proof. reflexivity. Qed.

(** ** Strings *)

Section StringFacts.

Lemma append_nil (b : string) : (EmptyString ++ b)%string = b.
Proof. reflexivity. Qed.

Lemma append_cons (c : ascii) (a b : string) :
  (String c a ++ b)%string = String c (a ++ b)%string.
Proof. reflexivity. Qed.

Lemma append_assoc (a b c : string) :
  ((a ++ b) ++ c)%string = (a ++ b ++ c)%string.
Proof.
  induction a as [|x a IH]; [reflexivity|].
  rewrite !append_cons. now rewrite IH.
Qed.

Lemma len_app (a b : string) :
  PyStr.len (a ++ b)%string = PyStr.len a + PyStr.len b.
Proof.
  unfold PyStr.len. induction a as [|c a IH].
  - reflexivity.
  - rewrite append_cons. simpl. now rewrite IH.
Qed.

Lemma take_len (n : nat) (s : string) :
  n <= PyStr.len s -> PyStr.len (PyStr.take n s) = n.
Proof.
  unfold PyStr.len. revert s.
  induction n as [|n IH]; intros [|c s] Hle; simpl in *; try lia.
  rewrite IH; lia.
Qed.

Lemma take_all (n : nat) (s : string) :
  PyStr.len s <= n -> PyStr.take n s = s.
Proof.
  unfold PyStr.len. revert s.
  induction n as [|n IH]; intros [|c s] Hle; simpl in *; try reflexivity; try lia.
  f_equal. apply IH. lia.
Qed.

Lemma take_app_exact (a b : string) :
  PyStr.take (PyStr.len a) (a ++ b)%string = a.
Proof.
  unfold PyStr.len. induction a as [|c a IH].
  - rewrite append_nil. now destruct b.
  - rewrite append_cons. simpl. now rewrite IH.
Qed.

Lemma startswith_spec (p s : string) :
  PyStr.startswith p s = true <-> exists post, s = (p ++ post)%string.
Proof.
  revert s. induction p as [|a p IH]; intros s.
  - simpl. split; [intros _; now exists s | reflexivity].
  - destruct s as [|b s]; simpl.
    + split; [discriminate | intros [post H]; discriminate].
    + destruct (Ascii.eqb a b) eqn:E.
      * apply Ascii.eqb_eq in E. subst b. rewrite IH.
        split; intros [post H]; exists post.
        -- rewrite append_cons. now rewrite H.
        -- rewrite append_cons in H. now inversion H.
      * apply Ascii.eqb_neq in E.
        split; [discriminate |].
        intros [post H]. rewrite append_cons in H. inversion H. congruence.
Qed.

Lemma contains_spec (needle hay : string) :
  PyStr.contains needle hay = true <->
  exists pre post, hay = (pre ++ needle ++ post)%string.
Proof.
  induction hay as [|a t IH]; simpl.
  - rewrite orb_false_r, startswith_spec. split.
    + intros [post H]. now exists EmptyString, post.
    + intros [pre [post H]]. destruct pre; [now exists post | discriminate].
  - rewrite orb_true_iff, startswith_spec, IH. split.
    + intros [[post H] | [pre [post H]]].
      * now exists EmptyString, post.
      * exists (String a pre), post. rewrite append_cons. now rewrite H.
    + intros [pre [post H]]. destruct pre as [|b pre].
      * left. now exists post.
      * right. rewrite append_cons in H. inversion H. now exists pre, post.
Qed.

Lemma contains_marker_error_text (e : string) :
  PyStr.contains error_marker (error_text e) = true.
Proof.
  apply contains_spec. exists EmptyString, (": " ++ e)%string. reflexivity.
Qed.

End StringFacts.

Section Evolve.

Lemma evolve_id (w : World) : evolve 0 0 [] w = w.
Proof.
  destruct w. unfold evolve. simpl.
  rewrite !Nat.add_0_r, app_nil_r. reflexivity.
Qed.

Lemma evolve_evolve (k1 k2 s1 s2 : nat) (e1 e2 : list Event) (w : World) :
  evolve k2 s2 e2 (evolve k1 s1 e1 w) = evolve (k1 + k2) (s1 + s2) (e1 ++ e2) w.
Proof.
  unfold evolve. simpl. rewrite !Nat.add_assoc, app_assoc. reflexivity.
Qed.

Lemma log_evolve (e : Event) (w : World) : log e w = evolve 0 0 [e] w.
Proof. unfold log, evolve. rewrite !Nat.add_0_r. reflexivity. Qed.

Lemma emit_evolve (e : Event) (w : World) :
  emit e w = (Returned tt, evolve 0 0 [e] w).
Proof. unfold emit. now rewrite log_evolve. Qed.

Lemma sleep_evolve (secs : nat) (w : World) :
  sleep secs w = (Returned tt, evolve 0 secs [EvSleep secs] w).
Proof. unfold sleep, log, evolve. simpl. rewrite Nat.add_0_r. reflexivity. Qed.

Lemma get_frame_evolve (chunk : Clip) (t : Q) (w : World) :
  get_frame chunk t w =
  (match v_get_frame (clip_source chunk) (clip_start chunk + t)%Q with
   | inl f => Returned f
   | inr e => Raised e
   end,
   evolve 0 0 [EvGetFrame (clip_start chunk + t)%Q] w).
Proof.
  unfold get_frame. rewrite log_evolve.
  now destruct (v_get_frame _ _).
Qed.

Lemma generate_content_evolve (rq : Request) (w : World) :
  generate_content rq w =
  (match w_model w (w_calls w) rq with
   | Text s => Returned s
   | Failure e => Raised e
   end,
   evolve 1 0 [EvGenerate rq] w).
Proof.
  unfold generate_content, log, evolve. simpl.
  rewrite Nat.add_0_r, Nat.add_1_r.
  now destruct (w_model _ _ _).
Qed.

Lemma Forall_io_summarize_calls (evs : list Event) :
  Forall io_event evs -> summarize_calls evs = [].
Proof.
  induction 1 as [|e evs He _ IH]; [reflexivity|].
  destruct e; simpl in He; try contradiction; exact IH.
Qed.

Lemma Forall_io_sleeps (evs : list Event) :
  Forall io_event evs -> sleeps evs = [].
Proof.
  induction 1 as [|e evs He _ IH]; [reflexivity|].
  destruct e; simpl in He; try contradiction; exact IH.
Qed.

End Evolve.

(** ** The frame sampler *)

Section Sampler.

Lemma Qltb_lt (x y : Q) : Qltb x y = true <-> (x < y)%Q.
Proof.
  unfold Qltb. rewrite negb_true_iff. split.
  - intros H. apply Qnot_le_lt. intros Hle.
    apply Qle_bool_iff in Hle. congruence.
  - intros H. destruct (Qle_bool y x) eqn:E; [|reflexivity].
    apply Qle_bool_iff in E. exfalso. exact (Qlt_not_le _ _ H E).
Qed.

Lemma Qltb_ge (x y : Q) : Qltb x y = false <-> (y <= x)%Q.
Proof.
  split.
  - intros H. apply Qnot_lt_le. intros Hlt. apply Qltb_lt in Hlt. congruence.
  - intros H. destruct (Qltb x y) eqn:E; [|reflexivity].
    apply Qltb_lt in E. exfalso. exact (Qlt_not_le _ _ E H).
Qed.

Lemma sample_loop_ok (chunk : Clip) (duration : Q) (ts : list Q) :
  forall (frames : list Frame) (w : World),
    (forall t, t ∈ admitted duration ts -> exists f, decode_at chunk t = inl f) ->
    exists more,
      sample_loop chunk duration ts frames w =
      (Returned (frames ++ more),
       evolve 0 0 (map (frame_event chunk) (admitted duration ts)) w) /\
      map inl more = map (decode_at chunk) (admitted duration ts).
Proof.
  unfold admitted.
  induction ts as [|t ts IH]; intros frames w Hok.
  - exists []. simpl. rewrite app_nil_r, evolve_id. split; reflexivity.
  - simpl. rewrite filter_cons. destruct (Qltb t duration) eqn:E.
    + rewrite decide_True by reflexivity.
      rewrite filter_cons, decide_True in Hok by exact E.
      destruct (Hok t) as [f Hf]; [left|].
      unfold bind. rewrite get_frame_evolve.
      unfold decode_at in Hf. rewrite Hf.
      destruct (IH (frames ++ [f]) (evolve 0 0 [EvGetFrame (clip_start chunk + t)%Q] w))
        as [more [Hrun Hmore]].
      { intros t' Ht'. apply Hok. now right. }
      exists (f :: more). rewrite Hrun, evolve_evolve, <- app_assoc. simpl.
      split; [reflexivity|]. unfold decode_at at 1. rewrite Hf. now f_equal.
    + rewrite decide_False by congruence.
      rewrite filter_cons, decide_False in Hok by congruence.
      apply IH. exact Hok.
Qed.

Lemma sample_loop_raised (chunk : Clip) (duration : Q) (ts : list Q) :
  forall (frames : list Frame) (w w' : World) (e : string),
    sample_loop chunk duration ts frames w = (Raised e, w') ->
    exists t, t ∈ admitted duration ts /\ decode_at chunk t = inr e.
Proof.
  unfold admitted.
  induction ts as [|t ts IH]; intros frames w w' e Hrun.
  - discriminate.
  - simpl in Hrun. rewrite filter_cons. destruct (Qltb t duration) eqn:E.
    + rewrite decide_True by reflexivity.
      unfold bind in Hrun. rewrite get_frame_evolve in Hrun.
      destruct (v_get_frame (clip_source chunk) (clip_start chunk + t)%Q) as [f|e'] eqn:Hf.
      * destruct (IH _ _ _ _ Hrun) as [t' [Hin Hd]].
        exists t'. split; [now right | exact Hd].
      * inversion Hrun; subst. exists t. split; [left | exact Hf].
    + rewrite decide_False by congruence. eapply IH. exact Hrun.
Qed.

(** Whatever the decoder does, sampling only decodes. *)
Lemma sample_loop_evolve (chunk : Clip) (duration : Q) (ts : list Q) :
  forall (frames : list Frame) (w : World),
    exists r evs,
      sample_loop chunk duration ts frames w = (r, evolve 0 0 evs w) /\
      Forall io_event evs.
Proof.
  induction ts as [|t ts IH]; intros frames w.
  - exists (Returned frames), []. simpl. rewrite evolve_id. split; [reflexivity | constructor].
  - simpl. destruct (Qltb t duration).
    + unfold bind. rewrite get_frame_evolve.
      destruct (v_get_frame _ _) as [f|e].
      * destruct (IH (frames ++ [f]) (evolve 0 0 [EvGetFrame (clip_start chunk + t)%Q] w))
          as [r [evs [Hrun Hio]]].
        exists r, (EvGetFrame (clip_start chunk + t)%Q :: evs).
        rewrite Hrun, evolve_evolve. split; [reflexivity|].
        constructor; [exact I | exact Hio].
      * exists (Raised e), [EvGetFrame (clip_start chunk + t)%Q].
        split; [reflexivity|]. repeat constructor.
    + apply IH.
Qed.

End Sampler.

(** ** One summarization attempt *)

Section Summarize.

Lemma extract_evolve (chunk : Clip) (w : World) :
  exists r evs,
    extract_frames_and_audio chunk w = (r, evolve 0 0 evs w) /\ Forall io_event evs.
Proof. unfold extract_frames_and_audio. apply sample_loop_evolve. Qed.

Lemma summarize_attempt_evolve (self : VideoSummarizer) (chunk : Clip)
    (chunk_info : ChunkInfo) (w : World) :
  exists r k evs,
    summarize_attempt self chunk chunk_info w = (r, evolve k 0 evs w) /\
    k <= 1 /\ Forall io_event evs.
Proof.
  unfold summarize_attempt, bind.
  destruct (extract_evolve chunk w) as [r [evs [Hrun Hio]]]. rewrite Hrun.
  destruct r as [frames|e].
  - rewrite generate_content_evolve, evolve_evolve. simpl.
    match goal with
    | |- context [w_model w (w_calls w + 0) ?rq] =>
        destruct (w_model w (w_calls w + 0) rq) as [text|e]
    end.
    + eexists _, 1, _. split; [reflexivity|]. split; [lia|].
      apply Forall_app. split; [exact Hio | repeat constructor].
    + eexists _, 1, _. split; [reflexivity|]. split; [lia|].
      apply Forall_app. split; [exact Hio | repeat constructor].
  - eexists _, 0, _. split; [reflexivity|]. split; [lia | exact Hio].
Qed.

(** [summarize_chunk] returns a text in every world: what its body raises
    comes back as a text behind the marker. *)
Lemma summarize_chunk_unfold (self : VideoSummarizer) (chunk : Clip)
    (chunk_info : ChunkInfo) (w : World) :
  summarize_chunk self chunk chunk_info w =
  match summarize_attempt self chunk chunk_info
          (log (EvSummarize (ci_chunk_number chunk_info)) w) with
  | (Returned s, w') => (Returned s, w')
  | (Raised e, w') => (Returned (error_text e), w')
  end.
Proof. reflexivity. Qed.

Lemma summarize_chunk_returns (self : VideoSummarizer) (chunk : Clip)
    (chunk_info : ChunkInfo) (w : World) :
  exists s k evs,
    summarize_chunk self chunk chunk_info w =
    (Returned s, evolve k 0 (EvSummarize (ci_chunk_number chunk_info) :: evs) w) /\
    k <= 1 /\ Forall io_event evs.
Proof.
  rewrite summarize_chunk_unfold, log_evolve.
  destruct (summarize_attempt_evolve self chunk chunk_info
              (evolve 0 0 [EvSummarize (ci_chunk_number chunk_info)] w))
    as [r [k [evs [Hrun [Hk Hio]]]]].
  rewrite Hrun, evolve_evolve. simpl.
  destruct r as [s|e]; eexists _, k, evs; (split; [reflexivity | split; assumption]).
Qed.

(** The attempt when the decoder and the remote model both answer. *)
Lemma summarize_chunk_text (self : VideoSummarizer) (chunk : Clip)
    (chunk_info : ChunkInfo) (w : World) (text : string) :
  (forall t, exists f, v_get_frame (clip_source chunk) t = inl f) ->
  (forall rq, w_model w (w_calls w) rq = Text text) ->
  exists evs,
    summarize_chunk self chunk chunk_info w =
    (Returned (cap_summary self text), evolve 1 0 evs w) /\
    length (remote_calls evs) = 1.
Proof.
  intros Hdec Hmodel.
  rewrite summarize_chunk_unfold, log_evolve.
  unfold summarize_attempt, bind, extract_frames_and_audio.
  edestruct (sample_loop_ok chunk (clip_duration chunk) (frame_times (clip_duration chunk)) [])
    as [frames [Hrun _]].
  { intros t _. apply Hdec. }
  rewrite Hrun, generate_content_evolve, !evolve_evolve. simpl.
  rewrite Nat.add_0_r, Hmodel.
  eexists. split; [reflexivity|].
  unfold remote_calls. simpl. rewrite omap_app, length_app. simpl.
  assert (Hnone : forall ts, omap (fun e => match e with EvGenerate rq => Some rq | _ => None end)
                          (map (frame_event chunk) ts) = []).
  { induction ts as [|t ts IH]; [reflexivity | exact IH]. }
  rewrite Hnone. reflexivity.
Qed.

End Summarize.

(** ** The cap on the stored text *)

Section Cap.

Lemma cap_summary_short (self : VideoSummarizer) (text : string) :
  (Z.of_nat (PyStr.len text) <= max_summary_chars self)%Z ->
  cap_summary self text = text.
Proof.
  intros H. unfold cap_summary.
  destruct (Z.ltb_spec (max_summary_chars self) (Z.of_nat (PyStr.len text))); [lia | reflexivity].
Qed.

Lemma cap_summary_long (self : VideoSummarizer) (text : string) :
  (3 <= max_summary_chars self)%Z ->
  (max_summary_chars self < Z.of_nat (PyStr.len text))%Z ->
  cap_summary self text =
  (PyStr.take (Z.to_nat (max_summary_chars self - 3)) text ++ "...")%string.
Proof.
  intros H3 H. unfold cap_summary, PyStr.slice_to.
  destruct (Z.ltb_spec (max_summary_chars self) (Z.of_nat (PyStr.len text))); [|lia].
  destruct (Z.ltb_spec (max_summary_chars self - 3) 0); [lia | reflexivity].
Qed.

End Cap.

(** C7: a response longer than the cap is stored as its first [cap - 3]
    characters followed by ["..."]; the stored text has length exactly the
    cap, does not contain the untruncated response, and is the same whatever
    followed those first characters in the response, so nothing of the tail
    enters it.  A response of at most the cap is stored unchanged.  Either
    way the attempt makes exactly one remote call. *)
Theorem summary_capped_at_max_chars (self : VideoSummarizer) (chunk : Clip)
    (chunk_info : ChunkInfo) (w : World) (text : string) :
  (3 <= max_summary_chars self)%Z ->
  (forall t, exists f, v_get_frame (clip_source chunk) t = inl f) ->
  (forall rq, w_model w (w_calls w) rq = Text text) ->
  exists stored evs,
    summarize_chunk self chunk chunk_info w = (Returned stored, evolve 1 0 evs w) /\
    length (remote_calls evs) = 1 /\
    ((Z.of_nat (PyStr.len text) <= max_summary_chars self)%Z -> stored = text) /\
    ((max_summary_chars self < Z.of_nat (PyStr.len text))%Z ->
     let head := PyStr.take (Z.to_nat (max_summary_chars self - 3)) text in
     stored = (head ++ "...")%string /\
     Z.of_nat (PyStr.len stored) = max_summary_chars self /\
     PyStr.contains text stored = false /\
     forall tail : string,
       3 < PyStr.len tail -> cap_summary self (head ++ tail)%string = stored).
Proof.
  intros H3 Hdec Hmodel.
  destruct (summarize_chunk_text self chunk chunk_info w text Hdec Hmodel)
    as [evs [Hrun Hcalls]].
  exists (cap_summary self text), evs.
  split; [exact Hrun|]. split; [exact Hcalls|]. split.
  - apply cap_summary_short.
  - intros Hlong head.
    assert (Hhead : PyStr.len head = Z.to_nat (max_summary_chars self - 3)).
    { apply take_len. lia. }
    rewrite (cap_summary_long self text H3 Hlong). fold head.
    assert (Hlen : Z.of_nat (PyStr.len (head ++ "...")%string) = max_summary_chars self).
    { rewrite len_app, Hhead. change (PyStr.len "...") with 3. lia. }
    split; [reflexivity|]. split; [exact Hlen|]. split.
    + destruct (PyStr.contains text (head ++ "...")%string) eqn:E; [|reflexivity].
      apply contains_spec in E as [pre [post E]].
      apply (f_equal PyStr.len) in E. rewrite !len_app in E.
      change (PyStr.len "...") with 3 in E. lia.
    + intros tail Htail.
      rewrite cap_summary_long; [| exact H3 | rewrite len_app; lia].
      rewrite <- Hhead, take_app_exact. reflexivity.
Qed.

(** The specification's example: 1600 characters under the cap of 1500. *)
Lemma summary_capped_at_max_chars_witness :
  exists stored evs,
    summarize_chunk init (fst (first_chunk 30)) (snd (first_chunk 30))
      (scripted_world "talk.mp4" 30 (fun _ _ => Text (repeat_char "a" 1600))) =
    (Returned stored,
     evolve 1 0 evs
       (scripted_world "talk.mp4" 30 (fun _ _ => Text (repeat_char "a" 1600)))) /\
    PyStr.len stored = 1500 /\
    stored = (repeat_char "a" 1497 ++ "...")%string.
Proof.
  destruct (summary_capped_at_max_chars init (fst (first_chunk 30)) (snd (first_chunk 30))
              (scripted_world "talk.mp4" 30 (fun _ _ => Text (repeat_char "a" 1600)))
              (repeat_char "a" 1600))
    as [stored [evs [Hrun [_ [_ Hlong]]]]].
  - simpl. lia.
  - intros t. exists 0. reflexivity.
  - intros rq. reflexivity.
  - exists stored, evs. split; [exact Hrun|].
    destruct Hlong as [Hstored [Hlen _]].
    + vm_compute. reflexivity.
    + split.
      * apply Nat2Z.inj. rewrite Hlen. reflexivity.
      * rewrite Hstored. vm_compute. reflexivity.
Defined.

(** ** Failures of an attempt *)

Lemma contains_error_text (needle e : string) :
  PyStr.contains needle e = true -> PyStr.contains needle (error_text e) = true.
Proof.
  rewrite !contains_spec. intros [pre [post H]].
  exists (error_marker ++ ": " ++ pre)%string, post.
  unfold error_text. rewrite H. now rewrite !append_assoc.
Qed.

(** C8, as stated, fails: with a remote model that answers the call with a
    rate-limit error, the body of [summarize_chunk] raises, and the caller
    receives an ordinary returned text. *)
Lemma summarize_chunk_swallows_rate_limit :
  exists w1,
    summarize_attempt init (fst (first_chunk 30)) (snd (first_chunk 30))
      (log (EvSummarize 1) (scripted_world "talk.mp4" 30 rate_limited)) =
    (Raised "429 Too Many Requests", w1) /\
    summarize_chunk init (fst (first_chunk 30)) (snd (first_chunk 30))
      (scripted_world "talk.mp4" 30 rate_limited) =
    (Returned "Error processing chunk: 429 Too Many Requests", w1).
Proof.
  eexists. split.
  - vm_compute. reflexivity.
  - vm_compute. reflexivity.
Qed.

(** C8, amended: [summarize_chunk] never raises.  In every world it returns
    a text: the capped response when the attempt succeeds, and when the
    attempt raises [e] (rate limit or not) the text
    ["Error processing chunk: " ++ e], which contains the marker and keeps a
    ["429"] of the message. *)
Theorem summarize_chunk_returns_failure_as_text (self : VideoSummarizer)
    (chunk : Clip) (chunk_info : ChunkInfo) (w : World) :
  exists text w',
    summarize_chunk self chunk chunk_info w = (Returned text, w') /\
    match summarize_attempt self chunk chunk_info
            (log (EvSummarize (ci_chunk_number chunk_info)) w) with
    | (Returned s, w1) => text = s /\ w' = w1
    | (Raised e, w1) =>
        text = ("Error processing chunk: " ++ e)%string /\ w' = w1 /\
        PyStr.contains "Error processing chunk" text = true /\
        (PyStr.contains "429" e = true -> PyStr.contains "429" text = true)
    end.
Proof.
  rewrite summarize_chunk_unfold.
  destruct (summarize_attempt self chunk chunk_info _) as [[s|e] w1].
  - exists s, w1. repeat split.
  - exists (error_text e), w1. split; [reflexivity|].
    split; [reflexivity|]. split; [reflexivity|]. split.
    + apply contains_marker_error_text.
    + apply contains_error_text.
Qed.

(** ** The guard of the frame sampler *)

(** C9, as stated, fails: for a chunk of duration zero the one requested
    offset, [0], is not below the duration, and the sampler returns the
    empty frame sequence without touching the decoder. *)
Lemma sampler_returns_on_offset_at_duration :
  (exists t, t ∈ frame_times (clip_duration empty_clip) /\
             ~ (t < clip_duration empty_clip)%Q) /\
  extract_frames_and_audio empty_clip (scripted_world "talk.mp4" 30 rate_limited) =
  (Returned [], scripted_world "talk.mp4" 30 rate_limited).
Proof.
  split.
  - exists 0%Q. split.
    + vm_compute. left.
    + vm_compute. discriminate.
  - vm_compute. reflexivity.
Qed.

(** C9, amended: an offset of [frame_times] that is not strictly below the
    chunk's duration is skipped, not an error.  The sampler asks the decoder
    for exactly the offsets below the duration, in order; it returns their
    frames when the decoder answers each, and it raises only what the
    decoder raised at one of them. *)
Theorem sampler_skips_offsets_not_below_duration (chunk : Clip) (w : World) :
  let duration := clip_duration chunk in
  let requested := admitted duration (frame_times duration) in
  (forall t, t ∈ requested <-> t ∈ frame_times duration /\ (t < duration)%Q) /\
  ((forall t, t ∈ requested -> exists f, decode_at chunk t = inl f) ->
   exists frames,
     extract_frames_and_audio chunk w =
     (Returned frames, evolve 0 0 (map (frame_event chunk) requested) w) /\
     map inl frames = map (decode_at chunk) requested) /\
  (forall e w',
     extract_frames_and_audio chunk w = (Raised e, w') ->
     exists t, t ∈ requested /\ decode_at chunk t = inr e).
Proof.
  intros duration requested. split; [|split].
  - intros t. unfold requested, admitted.
    rewrite list_elem_of_filter, Qltb_lt. tauto.
  - intros Hok.
    destruct (sample_loop_ok chunk duration (frame_times duration) [] w Hok)
      as [frames [Hrun Hframes]].
    exists frames. split; [exact Hrun | exact Hframes].
  - intros e w' Hrun.
    exact (sample_loop_raised chunk duration (frame_times duration) [] w w' e Hrun).
Qed.

(** ** Classification of failed chunks *)

Section Classification.

Lemma resume_failed_scan_filter (chunks : list ChunkData) (acc : list nat) :
  resume_failed_scan chunks acc =
  acc ++ map cd_chunk_number
           (filter (fun c => PyStr.contains error_marker (cd_summary c) = true) chunks).
Proof.
  revert acc. induction chunks as [|c chunks IH]; intros acc; simpl.
  - now rewrite app_nil_r.
  - rewrite filter_cons. change "Error processing chunk" with error_marker.
    destruct (PyStr.contains error_marker (cd_summary c)) eqn:E; rewrite IH.
    + rewrite decide_True by reflexivity. simpl. now rewrite <- app_assoc.
    + rewrite decide_False by congruence. reflexivity.
Qed.

Lemma process_failed_scan_filter (chunks : list ChunkData) (acc : list nat) :
  process_failed_scan chunks acc =
  acc ++ map cd_chunk_number
           (filter (fun c => PyStr.contains error_marker (cd_summary c) = true) chunks).
Proof.
  revert acc. induction chunks as [|c chunks IH]; intros acc; simpl.
  - now rewrite app_nil_r.
  - rewrite filter_cons. change "Error processing chunk" with error_marker.
    destruct (PyStr.contains error_marker (cd_summary c)) eqn:E; rewrite IH.
    + rewrite decide_True by reflexivity. simpl. now rewrite <- app_assoc.
    + rewrite decide_False by congruence. reflexivity.
Qed.

Lemma resume_failed_scan_classify (s : VideoSummary) :
  resume_failed_scan (vs_chunks s) [] = classify_failed s.
Proof. apply resume_failed_scan_filter. Qed.

Lemma process_failed_scan_classify (s : VideoSummary) :
  process_failed_scan (vs_chunks s) [] = classify_failed s.
Proof. apply process_failed_scan_filter. Qed.

Lemma elem_of_classify_failed (s : VideoSummary) (n : nat) :
  n ∈ classify_failed s <->
  exists c, c ∈ vs_chunks s /\ cd_chunk_number c = n /\
            PyStr.contains error_marker (cd_summary c) = true.
Proof.
  unfold classify_failed. rewrite list_elem_of_fmap. split.
  - intros [c [Hn Hc]]. apply list_elem_of_filter in Hc as [Hm Hin].
    exists c. auto.
  - intros [c [Hin [Hn Hm]]]. exists c. split; [auto|].
    apply list_elem_of_filter. auto.
Qed.

End Classification.

(** C6: the scan of the resume run and the scan of the completeness check
    both compute [classify_failed]; a chunk number is in it exactly when an
    entry with that number has a stored text containing
    ["Error processing chunk"]; an entry storing
    ["Error processing chunk: timeout"] is failed and one storing an ordinary
    sentence of 40 characters is not. *)
Theorem classify_failed_by_marker (s : VideoSummary) :
  resume_failed_scan (vs_chunks s) [] = classify_failed s /\
  process_failed_scan (vs_chunks s) [] = classify_failed s /\
  (forall n,
     n ∈ classify_failed s <->
     exists c pre post,
       c ∈ vs_chunks s /\ cd_chunk_number c = n /\
       cd_summary c = (pre ++ "Error processing chunk" ++ post)%string) /\
  classify_failed (stored_artifact [stored_chunk 1 "Error processing chunk: timeout"]) = [1] /\
  PyStr.len "A presenter greets the audience on stage" = 40 /\
  classify_failed (stored_artifact [stored_chunk 1 "A presenter greets the audience on stage"]) = [].
Proof.
  split; [apply resume_failed_scan_classify|].
  split; [apply process_failed_scan_classify|].
  split; [|split; [reflexivity | split; reflexivity]].
  intros n. rewrite elem_of_classify_failed. split.
  - intros [c [Hin [Hn Hm]]]. apply contains_spec in Hm as [pre [post Hm]].
    exists c, pre, post. auto.
  - intros [c [pre [post [Hin [Hn Hm]]]]]. exists c. split; [auto|]. split; [auto|].
    apply contains_spec. exists pre, post. exact Hm.
Qed.

(** ** Updating one stored entry *)

Section Update.

Lemma update_scan_app (number : nat) (summary : string) (rest : list ChunkData) :
  forall pre : list ChunkData,
    update_scan number summary (length pre) rest (pre ++ rest) =
    pre ++ update_scan number summary 0 rest rest.
Proof.
  induction rest as [|c rest IH]; intros pre; [reflexivity|].
  simpl. destruct (Nat.eqb (cd_chunk_number c) number).
  - rewrite <- (Nat.add_0_r (length pre)), alter_app_r. reflexivity.
  - pose proof (IH [c]) as H1. simpl in H1. rewrite H1.
    pose proof (IH (pre ++ [c])) as H2.
    rewrite length_app, <- app_assoc in H2. simpl in H2.
    rewrite Nat.add_1_r in H2. rewrite H2, <- app_assoc. reflexivity.
Qed.

Lemma update_existing_cons (number : nat) (summary : string) (c : ChunkData)
    (rest : list ChunkData) :
  update_existing number summary (c :: rest) =
  if Nat.eqb (cd_chunk_number c) number
  then set_summary summary c :: rest
  else c :: update_existing number summary rest.
Proof.
  unfold update_existing. simpl.
  destruct (Nat.eqb (cd_chunk_number c) number); [reflexivity|].
  apply (update_scan_app number summary rest [c]).
Qed.

Lemma touched_only_refl (numbers : list nat) (l : list ChunkData) :
  touched_only numbers l l.
Proof. induction l; constructor; auto. Qed.

Lemma touched_only_trans (numbers : list nat) (l1 l2 l3 : list ChunkData) :
  touched_only numbers l1 l2 -> touched_only numbers l2 l3 -> touched_only numbers l1 l3.
Proof.
  intros H12. revert l3.
  induction H12 as [|c1 c2 l1 l2 Hc _ IH]; intros l3 H23; inversion H23; subst.
  - constructor.
  - constructor; [|now apply IH].
    destruct Hc as [-> | [Hin [s1 ->]]]; [assumption|].
    match goal with
    | H : _ = set_summary s1 c1 \/ _ |- _ => destruct H as [-> | [_ [s2 ->]]]
    end.
    + right. eauto.
    + right. split; [exact Hin|]. exists s2. reflexivity.
Qed.

Lemma update_existing_touched (numbers : list nat) (number : nat) (summary : string)
    (l : list ChunkData) :
  number ∈ numbers -> touched_only numbers l (update_existing number summary l).
Proof.
  intros Hin. induction l as [|c l IH]; [constructor|].
  rewrite update_existing_cons.
  destruct (Nat.eqb (cd_chunk_number c) number) eqn:E.
  - apply Nat.eqb_eq in E. constructor; [|apply touched_only_refl].
    right. rewrite E. eauto.
  - constructor; [now left | exact IH].
Qed.

Lemma touched_only_consistent (numbers : list nat) (old new : list ChunkData) :
  touched_only numbers old new ->
  Forall length_consistent old -> Forall length_consistent new.
Proof.
  induction 1 as [|c c' old new Hc _ IH]; intros Hold; [constructor|].
  inversion Hold; subst. constructor; [|now apply IH].
  destruct Hc as [-> | [_ [s ->]]]; [assumption | reflexivity].
Qed.

Lemma touched_only_other (numbers : list nat) (old new : list ChunkData)
    (i : nat) (c : ChunkData) :
  touched_only numbers old new ->
  old !! i = Some c -> cd_chunk_number c ∉ numbers -> new !! i = Some c.
Proof.
  intros H Hold Hnot.
  destruct (Forall2_lookup_l _ _ _ _ _ H Hold) as [c' [Hnew [-> | [Hin _]]]];
    [exact Hnew | contradiction].
Qed.

End Update.

(** ** The two chunk loops *)

Section Loops.

Lemma summarize_calls_app (a b : list Event) :
  summarize_calls (a ++ b) = summarize_calls a ++ summarize_calls b.
Proof. apply omap_app. Qed.

Lemma sleeps_app (a b : list Event) : sleeps (a ++ b) = sleeps a ++ sleeps b.
Proof. apply omap_app. Qed.

Lemma reprocess_returns (self : VideoSummarizer) (chunk : Clip) (chunk_info : ChunkInfo)
    (existing : list ChunkData) (w : World) :
  exists summary k evs,
    reprocess self chunk chunk_info existing w =
    (Returned (update_existing (ci_chunk_number chunk_info) summary existing),
     evolve k 0 (EvSummarize (ci_chunk_number chunk_info) :: evs) w) /\
    k <= 1 /\ Forall io_event evs.
Proof.
  destruct (summarize_chunk_returns self chunk chunk_info w) as [s [k [evs [Hrun H]]]].
  exists s, k, evs. unfold reprocess, bind. rewrite Hrun. split; [reflexivity | exact H].
Qed.

(** The resume loop returns in every world; it enters [summarize_chunk]
    once for each re-derived chunk whose number is failed, in order, waits
    three seconds before each, and replaces texts of failed numbers only. *)
Lemma resume_loop_spec (self : VideoSummarizer) (failed : list nat)
    (chunks : list (Clip * ChunkInfo)) :
  forall (existing : list ChunkData) (w : World),
  exists existing' k secs evs,
    resume_loop self failed chunks existing w = (Returned existing', evolve k secs evs w) /\
    summarize_calls evs =
      filter (fun n => n ∈ failed) (map (fun c => ci_chunk_number (snd c)) chunks) /\
    sleeps evs = map (fun _ => 3) (summarize_calls evs) /\
    touched_only failed existing existing'.
Proof.
  induction chunks as [|[chunk chunk_info] chunks IH]; intros existing w.
  - exists existing, 0, 0, []. simpl. rewrite evolve_id.
    repeat split. apply touched_only_refl.
  - simpl. rewrite filter_cons. simpl.
    destruct (decide (ci_chunk_number chunk_info ∈ failed)) as [Hin|Hnot].
    + rewrite bool_decide_eq_true_2 by exact Hin.
      unfold bind at 1. rewrite sleep_evolve.
      unfold bind at 1. unfold try_except at 1.
      destruct (reprocess_returns self chunk chunk_info existing
                  (evolve 0 3 [EvSleep 3] w)) as [s [k [evs [Hrun [_ Hio]]]]].
      rewrite Hrun, evolve_evolve.
      destruct (IH (update_existing (ci_chunk_number chunk_info) s existing)
                  (evolve (0 + k) (3 + 0)
                     ([EvSleep 3] ++ EvSummarize (ci_chunk_number chunk_info) :: evs) w))
        as [existing' [k' [secs' [evs' [Hrest [Hcalls [Hsleeps Htouched]]]]]]].
      rewrite Hrest, evolve_evolve.
      eexists existing', _, _, _. split; [reflexivity|].
      rewrite !summarize_calls_app, !sleeps_app. simpl.
      rewrite (Forall_io_summarize_calls evs Hio), (Forall_io_sleeps evs Hio).
      simpl. rewrite Hcalls, Hsleeps, Hcalls.
      split; [reflexivity|]. split; [reflexivity|].
      eapply touched_only_trans; [|exact Htouched].
      apply update_existing_touched. exact Hin.
    + rewrite bool_decide_eq_false_2 by exact Hnot. apply IH.
Qed.

(** The loop of the full run returns in every world; it enters
    [summarize_chunk] exactly once for each chunk, in order, and the only
    waits are the pacing delays: the handler that waits sixty seconds and
    tries again is never reached. *)
Lemma fresh_loop_spec (self : VideoSummarizer) (chunks : list (Clip * ChunkInfo)) :
  forall (i : nat) (chunk_summaries : list (ChunkInfo * string)) (w : World),
  exists results k secs evs,
    fresh_loop self i chunks chunk_summaries w =
      (Returned (chunk_summaries ++ results), evolve k secs evs w) /\
    map fst results = map snd chunks /\
    summarize_calls evs = map (fun c => ci_chunk_number (snd c)) chunks /\
    sleeps evs = map pacing_delay (seq i (length chunks)) /\
    k <= length chunks.
Proof.
  induction chunks as [|[chunk chunk_info] chunks IH]; intros i acc w.
  - exists [], 0, 0, []. simpl. rewrite evolve_id, app_nil_r. repeat split. lia.
  - simpl. unfold bind at 1. unfold try_except at 1. unfold bind at 1.
    destruct (summarize_chunk_returns self chunk chunk_info w) as [s [k [evs [Hrun [Hk Hio]]]]].
    rewrite Hrun. unfold bind at 1. rewrite sleep_evolve, evolve_evolve.
    unfold ret at 1.
    destruct (IH (S i) (acc ++ [(chunk_info, s)])
                (evolve (k + 0) (0 + pacing_delay i)
                   ((EvSummarize (ci_chunk_number chunk_info) :: evs) ++
                    [EvSleep (pacing_delay i)]) w))
      as [results [k' [secs' [evs' [Hrest [Hfst [Hcalls [Hsleeps Hk']]]]]]]].
    rewrite Hrest, evolve_evolve, <- app_assoc.
    eexists ((chunk_info, s) :: results), _, _, _. split; [reflexivity|].
    rewrite !summarize_calls_app, !sleeps_app.
    change (summarize_calls (EvSummarize (ci_chunk_number chunk_info) :: evs))
      with (ci_chunk_number chunk_info :: summarize_calls evs).
    change (sleeps (EvSummarize (ci_chunk_number chunk_info) :: evs)) with (sleeps evs).
    rewrite (Forall_io_summarize_calls evs Hio), (Forall_io_sleeps evs Hio).
    rewrite Hcalls, Hsleeps. simpl. rewrite Hfst.
    repeat split. lia.
Qed.

End Loops.

(** ** The full run and the rate limit *)

(** C1, on the code: one 30-second chunk, a remote model that answers the
    first call with a rate-limit error and would answer the next with a
    text.  The full run enters [summarize_chunk] once, makes one remote
    call, waits the two seconds of pacing and never sixty, and stores the
    failure text for the chunk.  The handler of [process_video] that waits
    and tries again is unreachable, because [summarize_chunk] has already
    turned the exception into a text ([fresh_loop_spec] shows this for every
    world). *)
Theorem rate_limited_chunk_is_not_retried :
  exists s w',
    process_video init "talk.mp4" None true
      (scripted_world "talk.mp4" 30 rate_limited_once) =
    (Returned (s, "output/talk_summary.json"), w') /\
    map cd_summary (vs_chunks s) = ["Error processing chunk: 429 Too Many Requests"] /\
    summarize_calls (w_trace w') = [1] /\
    sleeps (w_trace w') = [2] /\
    w_calls w' = 1 /\
    w_model w' 1 = (fun _ => Text "A presenter greets the audience on stage").
Proof.
  eexists _, _. split.
  - vm_compute. reflexivity.
  - vm_compute. repeat split.
Qed.

(** ** Names and folders *)

Section Paths.

Lemma rfind_from_drop (c : ascii) (s : string) :
  forall i last : Z,
    (last < i)%Z ->
    let r := PyStr.rfind_from c s i last in
    (r = last /\ has_char c s = false) \/
    ((i <= r)%Z /\ has_char c (PyStr.drop (Z.to_nat (r - i + 1)) s) = false).
Proof.
  induction s as [|a t IH]; intros i last Hlt; simpl.
  - left. split; reflexivity.
  - destruct (IH (i + 1)%Z (if Ascii.eqb a c then i else last)) as [[Hr Hnone] | [Hle Hnone]].
    + destruct (Ascii.eqb a c); lia.
    + destruct (Ascii.eqb a c) eqn:E.
      * right. rewrite Hr. split; [lia|].
        replace (i - i + 1)%Z with 1%Z by lia. exact Hnone.
      * left. split; [exact Hr|].
        rewrite Ascii.eqb_sym, E. exact Hnone.
    + right. split; [lia|].
      replace (Z.to_nat (PyStr.rfind_from c t (i + 1) (if Ascii.eqb a c then i else last) - i + 1))
        with (S (Z.to_nat (PyStr.rfind_from c t (i + 1) (if Ascii.eqb a c then i else last) - (i + 1) + 1)))
        by lia.
      exact Hnone.
Qed.

Lemma basename_no_sep (p : string) : has_char OsPath.sep (OsPath.basename p) = false.
Proof.
  unfold OsPath.basename, PyStr.slice_from, PyStr.rfind.
  destruct (rfind_from_drop OsPath.sep p 0 (-1)) as [[Hr Hnone] | [Hle Hnone]]; [lia | |].
  - rewrite Hr. exact Hnone.
  - rewrite Z.sub_0_r in Hnone. exact Hnone.
Qed.

Lemma splitext_fst_take (p : string) : exists k, fst (OsPath.splitext p) = PyStr.take k p.
Proof.
  unfold OsPath.splitext.
  destruct (_ && _).
  - unfold PyStr.slice_to. simpl. destruct (_ <? 0)%Z; eauto.
  - exists (PyStr.len p). simpl. symmetry. apply take_all. lia.
Qed.

Lemma startswith_take_app (c : ascii) (k : nat) (b x : string) :
  has_char c b = false ->
  PyStr.startswith (String c EmptyString) x = false ->
  PyStr.startswith (String c EmptyString) (PyStr.take k b ++ x)%string = false.
Proof.
  intros Hb Hx. destruct k as [|k], b as [|a b]; simpl; try exact Hx.
  simpl in Hb. apply orb_false_iff in Hb as [-> _]. reflexivity.
Qed.

(** The default name of [save_summary_json] is the probed name under
    ["output/"]. *)
Lemma default_output_path_spec (s : VideoSummary) (video_path : string) :
  vs_video_name s = OsPath.basename video_path ->
  default_output_path s = ("output/" ++ summary_filename video_path)%string.
Proof.
  intros Hname. unfold default_output_path, summary_filename. rewrite Hname.
  destruct (splitext_fst_take (OsPath.basename video_path)) as [k ->].
  unfold OsPath.join.
  rewrite (startswith_take_app "/" k _ "_summary.json" (basename_no_sep video_path))
    by reflexivity.
  reflexivity.
Qed.

Lemma output_prefix_differs (name : string) : ("output/" ++ name)%string <> name.
Proof.
  intros H. apply (f_equal PyStr.len) in H. rewrite len_app in H.
  change (PyStr.len "output/") with 7 in H. lia.
Qed.

Lemma rfind_from_app (c : ascii) (a b : string) :
  forall i last : Z,
    PyStr.rfind_from c (a ++ b)%string i last =
    PyStr.rfind_from c b (i + Z.of_nat (PyStr.len a))%Z (PyStr.rfind_from c a i last).
Proof.
  induction a as [|x a IH]; intros i last.
  - rewrite append_nil. simpl. now rewrite Z.add_0_r.
  - rewrite append_cons. simpl PyStr.rfind_from. rewrite IH. f_equal.
    unfold PyStr.len. simpl String.length. lia.
Qed.

Lemma rfind_from_absent (c : ascii) (s : string) :
  forall i last : Z, has_char c s = false -> PyStr.rfind_from c s i last = last.
Proof.
  induction s as [|x s IH]; intros i last H; [reflexivity|].
  simpl in H. apply orb_false_iff in H as [Hx Hs].
  simpl. rewrite Ascii.eqb_sym, Hx. now apply IH.
Qed.

Lemma drop_app_exact (a b : string) : PyStr.drop (PyStr.len a) (a ++ b)%string = b.
Proof.
  unfold PyStr.len. induction a as [|x a IH].
  - rewrite append_nil. now destruct b.
  - rewrite append_cons. simpl. exact IH.
Qed.

Lemma has_char_app (c : ascii) (a b : string) :
  has_char c (a ++ b)%string = has_char c a || has_char c b.
Proof.
  induction a as [|x a IH]; [reflexivity|].
  rewrite append_cons. simpl. now rewrite IH, orb_assoc.
Qed.

Lemma has_char_take (c : ascii) (k : nat) (s : string) :
  has_char c s = false -> has_char c (PyStr.take k s) = false.
Proof.
  revert s. induction k as [|k IH]; intros [|x s] H; try reflexivity.
  simpl in *. apply orb_false_iff in H as [-> Hs]. now apply IH.
Qed.

(** [basename] drops everything up to the last separator. *)
Lemma basename_app (dir name : string) :
  has_char OsPath.sep name = false ->
  OsPath.basename (dir ++ "/" ++ name)%string = name.
Proof.
  intros Hname. unfold OsPath.basename, PyStr.rfind, PyStr.slice_from.
  rewrite rfind_from_app. change ("/" ++ name)%string with (String OsPath.sep name).
  simpl PyStr.rfind_from. rewrite ?Ascii.eqb_refl.
  rewrite rfind_from_absent by exact Hname.
  replace (Z.to_nat (0 + Z.of_nat (PyStr.len dir) + 1)) with (PyStr.len (dir ++ "/")%string)
    by (rewrite len_app; change (PyStr.len "/") with 1; lia).
  change (String OsPath.sep name) with ("/" ++ name)%string.
  rewrite <- append_assoc. apply drop_app_exact.
Qed.

Lemma basename_plain (name : string) :
  has_char OsPath.sep name = false -> OsPath.basename name = name.
Proof.
  intros Hname. unfold OsPath.basename, PyStr.rfind, PyStr.slice_from.
  now rewrite rfind_from_absent.
Qed.

(** [splitext] splits a plain name at its last dot. *)
Lemma splitext_plain (stem ext : string) :
  has_char OsPath.sep stem = false ->
  has_char OsPath.sep ext = false ->
  has_char OsPath.extsep ext = false ->
  PyStr.any_other OsPath.extsep stem = true ->
  OsPath.splitext (stem ++ "." ++ ext)%string = (stem, ("." ++ ext)%string).
Proof.
  intros Hstem Hext Hdot Hother. unfold OsPath.splitext.
  assert (Hsep : PyStr.rfind OsPath.sep (stem ++ "." ++ ext)%string = (-1)%Z).
  { unfold PyStr.rfind. apply rfind_from_absent.
    rewrite has_char_app, Hstem. change ("." ++ ext)%string with (String "."%char ext).
    simpl. exact Hext. }
  assert (Hlast : PyStr.rfind OsPath.extsep (stem ++ "." ++ ext)%string =
                  Z.of_nat (PyStr.len stem)).
  { unfold PyStr.rfind. rewrite rfind_from_app.
    change ("." ++ ext)%string with (String OsPath.extsep ext).
    simpl PyStr.rfind_from. rewrite ?Ascii.eqb_refl.
    rewrite rfind_from_absent by exact Hdot. lia. }
  rewrite Hsep, Hlast. unfold PyStr.slice_from, PyStr.slice_to.
  replace (Z.to_nat (Z.of_nat (PyStr.len stem) - (-1 + 1))) with (PyStr.len stem) by lia.
  change (Z.to_nat (-1 + 1)) with 0. simpl PyStr.drop at 1.
  rewrite take_app_exact, Hother.
  destruct (Z.ltb_spec (-1) (Z.of_nat (PyStr.len stem))); [|lia].
  destruct (Z.ltb_spec (Z.of_nat (PyStr.len stem)) 0); [lia|].
  simpl andb. cbv iota. rewrite Nat2Z.id, take_app_exact, drop_app_exact. reflexivity.
Qed.

(** The probed name has no folder. *)
Lemma summary_filename_no_sep (video_path : string) :
  has_char OsPath.sep (summary_filename video_path) = false.
Proof.
  unfold summary_filename.
  destruct (splitext_fst_take (OsPath.basename video_path)) as [k ->].
  rewrite has_char_app, has_char_take by apply basename_no_sep. reflexivity.
Qed.

Lemma dirname_output (name : string) :
  has_char OsPath.sep name = false ->
  OsPath.dirname ("output/" ++ name)%string = "output".
Proof.
  intros Hname. unfold OsPath.dirname, PyStr.rfind.
  rewrite rfind_from_app, rfind_from_absent by exact Hname.
  change (PyStr.rfind_from OsPath.sep "output/" 0 (-1)) with 6%Z.
  unfold PyStr.slice_to. change (6 + 1 <? 0)%Z with false. cbv iota.
  change (Z.to_nat (6 + 1)) with (PyStr.len "output/").
  rewrite take_app_exact. reflexivity.
Qed.

End Paths.

(** ** Reading and writing the artifact *)

Section Store.

Lemma load_json_found (path : string) (w : World) (s : VideoSummary) :
  w_files w !! path = Some (Json s) -> load_json path w = (Returned s, w).
Proof. intros H. unfold load_json, read_json. now rewrite H. Qed.

(** The probe depends on the file under the probed name only; of the
    failures to read it, one goes on to the caller. *)
Lemma check_existing_summary_spec (video_path : string) (w : World) :
  check_existing_summary video_path w =
  (match w_files w !! summary_filename video_path with
   | Some (Json s) => Returned (Some (s, summary_filename video_path))
   | Some NotUtf8 =>
       Raised (load_error_text UnicodeDecodeError (summary_filename video_path))
   | Some Garbage | None => Returned None
   end, w).
Proof.
  unfold check_existing_summary, bind, path_exists, load_json_except, read_json.
  destruct (w_files w !! summary_filename video_path) as [[s| |]|] eqn:E.
  - rewrite bool_decide_eq_true_2 by eauto. rewrite E. reflexivity.
  - rewrite bool_decide_eq_true_2 by eauto. rewrite E. reflexivity.
  - rewrite bool_decide_eq_true_2 by eauto. rewrite E. reflexivity.
  - rewrite bool_decide_eq_false_2; [reflexivity|].
    intros [x Hx]. discriminate.
Qed.

Lemma load_existing_summary_spec (summary_path : string) (w : World) :
  load_existing_summary summary_path w =
  (Returned match w_files w !! summary_path with
            | Some (Json s) => Some s
            | _ => None
            end, w).
Proof.
  unfold load_existing_summary, try_except, bind, load_json, read_json.
  now destruct (w_files w !! summary_path) as [[s| |]|].
Qed.

(** The save makes the folder [output], then writes if the folder of the
    path is there. *)
Lemma save_summary_json_spec (s : VideoSummary) (output_path : option string) (w : World) :
  save_summary_json s output_path w =
  if folder_exists (written_path s output_path) (with_dir "output" w)
  then (Returned (written_path s output_path),
        log (EvWrite (written_path s output_path))
          (with_file (written_path s output_path) (Json s) (with_dir "output" w)))
  else (Raised (no_such_file (written_path s output_path)),
        with_dir "output" w).
Proof.
  unfold save_summary_json, bind.
  change (makedirs "output" w) with (Returned tt, with_dir "output" w).
  cbv iota beta. unfold dump_json.
  change (match output_path with
          | Some p => p
          | None => default_output_path s
          end) with (written_path s output_path).
  now destruct (folder_exists _ _).
Qed.

Lemma folder_exists_file (path : string) (w : World) :
  is_Some (w_files w !! path) -> folder_exists path w = true.
Proof. intros H. unfold folder_exists. now rewrite bool_decide_eq_true_2. Qed.

(** The folder of the default name is the one the save makes. *)
Lemma folder_exists_default (s : VideoSummary) (video_path : string) (w : World) :
  vs_video_name s = OsPath.basename video_path ->
  folder_exists (default_output_path s) (with_dir "output" w) = true.
Proof.
  intros Hname. rewrite (default_output_path_spec s video_path Hname).
  unfold folder_exists. rewrite dirname_output by apply summary_filename_no_sep.
  rewrite (bool_decide_eq_true_2 ("output" ∈ w_dirs (with_dir "output" w))).
  - apply orb_true_r.
  - simpl. set_solver.
Qed.


End Store.

(** C2, on the code: [save_summary_json] writes the artifact of a video
    under ["output/"], and [check_existing_summary] probes the same derived
    name without that folder.  The two names differ for every video path, so
    the write leaves the probed file as it was and the probe answers after
    the save what it answered before. *)
Theorem probe_misses_saved_artifact (video_path : string) (s : VideoSummary) (w : World) :
  vs_video_name s = OsPath.basename video_path ->
  exists w',
    save_summary_json s None w =
      (Returned ("output/" ++ summary_filename video_path)%string, w') /\
    ("output/" ++ summary_filename video_path)%string <> summary_filename video_path /\
    w_files w' = <[("output/" ++ summary_filename video_path)%string := Json s]> (w_files w) /\
    fst (check_existing_summary video_path w') = fst (check_existing_summary video_path w).
Proof.
  intros Hname.
  rewrite save_summary_json_spec. unfold written_path.
  rewrite (folder_exists_default s video_path w Hname).
  rewrite (default_output_path_spec s video_path Hname).
  eexists. split; [reflexivity|].
  split; [apply output_prefix_differs|].
  split; [reflexivity|].
  rewrite !check_existing_summary_spec. simpl.
  rewrite lookup_insert_ne by apply output_prefix_differs. reflexivity.
Qed.

(** The failing input: the artifact of ["videos/talk.mp4"] is saved in a
    world without files, and the probe on the same path finds nothing. *)
Lemma probe_misses_saved_artifact_witness :
  exists w',
    save_summary_json (stored_artifact []) None
      (scripted_world "videos/talk.mp4" 30 rate_limited) =
      (Returned "output/talk_summary.json", w') /\
    w_files w' !! "output/talk_summary.json" = Some (Json (stored_artifact [])) /\
    fst (check_existing_summary "videos/talk.mp4" w') = Returned None.
Proof.
  destruct (probe_misses_saved_artifact "videos/talk.mp4" (stored_artifact [])
              (scripted_world "videos/talk.mp4" 30 rate_limited))
    as [w' [Hsave [_ [Hfiles Hprobe]]]].
  - reflexivity.
  - exists w'. split; [exact Hsave|]. split.
    + rewrite Hfiles. apply lookup_insert_eq.
    + rewrite Hprobe. reflexivity.
Defined.

(** ** The segmenter *)

Section Segmenter.

Variable self : VideoSummarizer.
Variable video : Video.
Variable T : Q.
Hypothesis L_pos : (0 < chunk_duration self)%Q.
Hypothesis T_nonneg : (0 <= T)%Q.

Lemma count_nonneg : (0 <= chunk_count self T)%Z.
Proof.
  unfold chunk_count, np_ceil. change 0%Z with (Qceiling 0).
  apply Qceiling_resp_le. apply Qle_shift_div_l; [exact L_pos|].
  rewrite Qmult_0_l. exact T_nonneg.
Qed.

Lemma quotient_times_length :
  (T / chunk_duration self * chunk_duration self == T)%Q.
Proof.
  field. intros H. rewrite H in L_pos. exact (Qlt_irrefl 0 L_pos).
Qed.

Lemma bound_below (k : nat) :
  (Z.of_nat k < chunk_count self T)%Z ->
  (inject_Z (Z.of_nat k) * chunk_duration self < T)%Q.
Proof.
  intros Hk.
  assert (H : (inject_Z (Z.of_nat k) < T / chunk_duration self)%Q).
  { apply Qle_lt_trans with (inject_Z (chunk_count self T - 1)%Z).
    - rewrite <- Zle_Qle. lia.
    - apply Qceiling_lt. }
  apply (Qmult_lt_r _ _ (chunk_duration self) L_pos) in H.
  now rewrite quotient_times_length in H.
Qed.

Lemma bound_at_count : (T <= inject_Z (chunk_count self T) * chunk_duration self)%Q.
Proof.
  rewrite <- quotient_times_length at 1.
  apply Qmult_le_r; [exact L_pos|]. apply Qle_ceiling.
Qed.

Lemma min_of_lt (x y : Q) : (x < y)%Q -> Qmin x y = x.
Proof.
  intros H. unfold Qmin, GenericMinMax.gmin.
  assert (E : (x ?= y)%Q = Lt) by (apply Qlt_alt; exact H).
  now rewrite E.
Qed.

(** A chunk before the last ends at the next multiple of the length. *)
Lemma end_time_inner (i : nat) :
  (Z.of_nat i + 1 < chunk_count self T)%Z ->
  Qmin (inject_Z (Z.of_nat i + 1) * chunk_duration self) T = (inject_Z (Z.of_nat i + 1) * chunk_duration self)%Q.
Proof.
  intros Hi. apply min_of_lt.
  replace (Z.of_nat i + 1)%Z with (Z.of_nat (S i)) by lia.
  apply bound_below. lia.
Qed.

(** The last chunk ends with the video. *)
Lemma end_time_last (i : nat) :
  (Z.of_nat i + 1 = chunk_count self T)%Z ->
  (Qmin (inject_Z (Z.of_nat i + 1) * chunk_duration self) T == T)%Q.
Proof.
  intros Hi. apply Q.min_r. rewrite Hi. apply bound_at_count.
Qed.

Lemma chunk_lookup (n i : nat) (c : Clip * ChunkInfo) :
  map (make_chunk self video T) (seq 0 n) !! i = Some c ->
  i < n /\ c = make_chunk self video T i.
Proof.
  intros H. rewrite list_lookup_fmap in H.
  destruct (seq 0 n !! i) as [j|] eqn:E; [|discriminate].
  apply lookup_seq in E as [-> Hlt]. simpl in H. inversion H. split; [lia | reflexivity].
Qed.

Lemma Qsum_snoc (l : list Q) (x : Q) : (Qsum (l ++ [x]) == Qsum l + x)%Q.
Proof.
  unfold Qsum. induction l as [|y l IH]; simpl.
  - ring.
  - rewrite IH. ring.
Qed.

(** The durations of the first [k] chunks add up to where the [k]-th ends. *)
Lemma durations_prefix (k : nat) :
  (Z.of_nat k <= chunk_count self T)%Z ->
  (Qsum (map (fun c => ci_duration (snd c)) (map (make_chunk self video T) (seq 0 k)))
   == Qmin (inject_Z (Z.of_nat k) * chunk_duration self) T)%Q.
Proof.
  induction k as [|k IH]; intros Hk.
  - simpl. rewrite Qmult_0_l. symmetry. apply Q.min_l. exact T_nonneg.
  - rewrite seq_S, !map_app. cbn [map]. rewrite Qsum_snoc, IH by lia.
    cbn [make_chunk snd ci_duration Nat.add].
    rewrite (min_of_lt (inject_Z (Z.of_nat k) * chunk_duration self) T)
      by (apply bound_below; lia).
    replace (Z.of_nat k + 1)%Z with (Z.of_nat (S k)) by lia.
    ring.
Qed.

Lemma start_nonneg (i : nat) : (0 <= inject_Z (Z.of_nat i) * chunk_duration self)%Q.
Proof.
  apply Qmult_le_0_compat; [|apply Qlt_le_weak, L_pos].
  change 0%Q with (inject_Z 0). rewrite <- Zle_Qle. lia.
Qed.

Lemma end_nonneg (i : nat) :
  (Z.of_nat i < chunk_count self T)%Z ->
  (0 <= Qmin (inject_Z (Z.of_nat i + 1) * chunk_duration self) T)%Q.
Proof.
  intros Hi. apply Q.min_glb.
  - replace (Z.of_nat i + 1)%Z with (Z.of_nat (S i)) by lia. apply start_nonneg.
  - apply Qle_trans with (inject_Z (Z.of_nat i) * chunk_duration self)%Q;
      [apply start_nonneg | apply Qlt_le_weak, bound_below, Hi].
Qed.

End Segmenter.

Section Subclip.

Lemma map_succ_seq (a n : nat) : map (fun i => i + 1) (seq a n) = seq (S a) n.
Proof.
  revert a. induction n as [|n IH]; intros a; [reflexivity|].
  simpl. rewrite IH, Nat.add_1_r. reflexivity.
Qed.

Lemma segment_numbers (self : VideoSummarizer) (video : Video) (duration : Q) (n : nat) :
  map (fun c => ci_chunk_number (snd c)) (map (make_chunk self video duration) (seq 0 n)) =
  seq 1 n.
Proof. rewrite map_map. simpl. apply map_succ_seq. Qed.

Lemma filter_elem_of_nil (l : list nat) : filter (fun n => n ∈ @nil nat) l = [].
Proof.
  induction l as [|x l IH]; [reflexivity|].
  rewrite filter_cons, decide_False; [exact IH | apply not_elem_of_nil].
Qed.

Lemma Qeq_bool_pos (q : Q) : (0 < q)%Q -> Qeq_bool q 0 = false.
Proof.
  intros H. destruct (Qeq_bool q 0) eqn:E; [|reflexivity].
  apply Qeq_bool_eq in E. rewrite E in H. exfalso. exact (Qlt_irrefl 0 H).
Qed.

(** Between zero and the duration nothing is shifted and nothing refused:
    [subclip] decodes the start and returns the view. *)
Lemma subclip_plain (video : Video) (t_start t_end : Q) (w : World) :
  (0 <= t_start)%Q -> (t_start <= v_duration video)%Q -> (0 <= t_end)%Q ->
  subclip video t_start t_end w =
  (match v_get_frame video (t_start + 0)%Q with
   | inl _ => Returned {| clip_source := video; clip_start := t_start; clip_end := t_end |}
   | inr e => Raised e
   end,
   evolve 0 0 [EvGetFrame (t_start + 0)%Q] w).
Proof.
  intros H0 Hd He. unfold subclip. cbv zeta.
  rewrite (proj2 (Qltb_ge t_start 0) H0). cbv iota.
  rewrite (proj2 (Qltb_ge (v_duration video) t_start) Hd).
  rewrite (proj2 (Qltb_ge t_end 0) He).
  unfold bind. rewrite get_frame_evolve. simpl.
  now destruct (v_get_frame video (t_start + 0)%Q).
Qed.

Lemma indices_below (self : VideoSummarizer) (T : Q) (i : nat) :
  i ∈ seq 0 (Z.to_nat (chunk_count self T)) -> (Z.of_nat i < chunk_count self T)%Z.
Proof. intros H. apply elem_of_seq in H. lia. Qed.

(** The loop of the segmenter when the decoder answers at the starts. *)
Lemma segment_loop_ok (self : VideoSummarizer) (video : Video) (T : Q)
    (indices : list nat) :
  (0 < chunk_duration self)%Q ->
  (T <= v_duration video)%Q ->
  (forall i, i ∈ indices -> (Z.of_nat i < chunk_count self T)%Z) ->
  (forall i, i ∈ indices ->
     exists f,
       v_get_frame video (inject_Z (Z.of_nat i) * chunk_duration self + 0)%Q = inl f) ->
  forall (chunks : list (Clip * ChunkInfo)) (w : World),
    segment_loop self video T indices chunks w =
    (Returned (chunks ++ map (make_chunk self video T) indices),
     evolve 0 0
       (map (fun c => frame_event (fst c) 0) (map (make_chunk self video T) indices)) w).
Proof.
  intros Hpos HT. induction indices as [|i indices IH]; intros Hlt Hdec chunks w.
  - simpl. now rewrite app_nil_r, evolve_id.
  - cbn [segment_loop]. unfold bind at 1.
    rewrite subclip_plain.
    + destruct (Hdec i) as [f Hf]; [left|]. rewrite Hf.
      rewrite IH.
      * rewrite evolve_evolve, <- app_assoc. reflexivity.
      * intros j Hj. apply Hlt. now right.
      * intros j Hj. apply Hdec. now right.
    + now apply start_nonneg.
    + apply Qle_trans with T; [|exact HT].
      apply Qlt_le_weak, bound_below; [exact Hpos | apply Hlt; left].
    + apply end_nonneg; [exact Hpos | apply Hlt; left].
Qed.

(** The loop of the segmenter when the decoder fails at one of the starts:
    the error goes to the caller, and only decoding has happened. *)
Lemma segment_loop_fails (self : VideoSummarizer) (video : Video) (T : Q)
    (indices : list nat) :
  (0 < chunk_duration self)%Q ->
  (T <= v_duration video)%Q ->
  (forall i, i ∈ indices -> (Z.of_nat i < chunk_count self T)%Z) ->
  forall (i : nat) (e : string),
    i ∈ indices ->
    v_get_frame video (inject_Z (Z.of_nat i) * chunk_duration self + 0)%Q = inr e ->
    forall (chunks : list (Clip * ChunkInfo)) (w : World),
    exists e' evs,
      segment_loop self video T indices chunks w = (Raised e', evolve 0 0 evs w) /\
      Forall io_event evs /\
      exists i',
        i' ∈ indices /\
        v_get_frame video (inject_Z (Z.of_nat i') * chunk_duration self + 0)%Q = inr e'.
Proof.
  intros Hpos HT. induction indices as [|i0 indices IH]; intros Hlt i e Hin Hfail chunks w.
  - apply elem_of_nil in Hin. contradiction.
  - cbn [segment_loop]. unfold bind at 1.
    rewrite subclip_plain.
    + destruct (v_get_frame video (inject_Z (Z.of_nat i0) * chunk_duration self + 0)%Q)
        as [f|e0] eqn:Hf.
      * apply elem_of_cons in Hin as [-> | Hin]; [congruence|].
        assert (Hlt' : forall j, j ∈ indices -> (Z.of_nat j < chunk_count self T)%Z).
        { intros j Hj. apply Hlt. now right. }
        destruct (IH Hlt' i e Hin Hfail
                    (chunks ++ [make_chunk self video T i0])
                    (evolve 0 0 [EvGetFrame (inject_Z (Z.of_nat i0) * chunk_duration self + 0)%Q] w))
          as [e' [evs [Hrun [Hio [i' [Hin' Hwhere]]]]]].
        exists e', (EvGetFrame (inject_Z (Z.of_nat i0) * chunk_duration self + 0)%Q :: evs).
        split; [|split; [constructor; [exact I | exact Hio]|]].
        -- unfold make_chunk in Hrun. rewrite Hrun, evolve_evolve. reflexivity.
        -- exists i'. split; [now right | exact Hwhere].
      * exists e0, [EvGetFrame (inject_Z (Z.of_nat i0) * chunk_duration self + 0)%Q].
        split; [reflexivity|]. split; [repeat constructor|].
        exists i0. split; [left | exact Hf].
    + now apply start_nonneg.
    + apply Qle_trans with T; [|exact HT].
      apply Qlt_le_weak, bound_below; [exact Hpos | apply Hlt; left].
    + apply end_nonneg; [exact Hpos | apply Hlt; left].
Qed.

(** [segment_video] on an opened video whose chunk starts decode. *)
Lemma segment_video_ok (self : VideoSummarizer) (video : Video) (video_info : VideoInfo)
    (w : World) :
  (0 < chunk_duration self)%Q ->
  vi_duration video_info = v_duration video ->
  starts_decode self video ->
  segment_video self video video_info w =
  (Returned (segments self video), evolve 0 0 (segment_events self video) w).
Proof.
  intros Hpos Hd Hdec. unfold segment_video. rewrite (Qeq_bool_pos _ Hpos), Hd.
  apply segment_loop_ok with (chunks := @nil (Clip * ChunkInfo));
    [exact Hpos | apply Qle_refl | apply indices_below |].
  intros i Hi. apply Hdec, indices_below, Hi.
Qed.

(** [segment_video] on an opened video with a chunk start that does not
    decode. *)
Lemma segment_video_fails (self : VideoSummarizer) (video : Video) (video_info : VideoInfo)
    (w : World) (i : nat) (e : string) :
  (0 < chunk_duration self)%Q ->
  vi_duration video_info = v_duration video ->
  (Z.of_nat i < chunk_count self (v_duration video))%Z ->
  v_get_frame video (inject_Z (Z.of_nat i) * chunk_duration self + 0)%Q = inr e ->
  exists e' evs,
    segment_video self video video_info w = (Raised e', evolve 0 0 evs w) /\
    Forall io_event evs /\
    exists i' : nat,
      (Z.of_nat i' < chunk_count self (v_duration video))%Z /\
      v_get_frame video (inject_Z (Z.of_nat i') * chunk_duration self + 0)%Q = inr e'.
Proof.
  intros Hpos Hd Hi Hfail. unfold segment_video. rewrite (Qeq_bool_pos _ Hpos), Hd.
  destruct (segment_loop_fails self video (v_duration video)
              (seq 0 (Z.to_nat (chunk_count self (v_duration video))))
              Hpos (Qle_refl _) (indices_below self (v_duration video)) i e)
    with (chunks := @nil (Clip * ChunkInfo)) (w := w)
    as [e' [evs [Hrun [Hio [i' [Hin Hwhere]]]]]].
  - apply elem_of_seq. lia.
  - exact Hfail.
  - exists e', evs. split; [exact Hrun|]. split; [exact Hio|].
    exists i'. split; [now apply indices_below | exact Hwhere].
Qed.

Lemma segments_numbers (self : VideoSummarizer) (video : Video) :
  map (fun c => ci_chunk_number (snd c)) (segments self video) =
  seq 1 (Z.to_nat (chunk_count self (v_duration video))).
Proof. apply segment_numbers. Qed.

Lemma segments_source (self : VideoSummarizer) (video : Video) (c : Clip * ChunkInfo) :
  c ∈ segments self video -> clip_source (fst c) = video.
Proof.
  intros Hc. apply list_elem_of_In, in_map_iff in Hc as [i [<- _]]. reflexivity.
Qed.

End Subclip.

(** C5: for a positive chunk length and the duration of an opened video
    whose chunk starts decode, [segment_video] returns
    [ceil(duration / length)] chunks, having decoded the start of each and
    done nothing else; chunk [i] (from zero) has number [i + 1] and starts at
    [i * length], so the first starts at zero; a chunk before the last lasts
    the chunk length and ends where the next one starts; the last one ends
    with the video and lasts the remainder, which is positive and at most
    the chunk length; the durations add up to the duration of the video; and
    a duration of zero gives no chunk. *)
Theorem segment_video_partitions_duration (self : VideoSummarizer) (video : Video)
    (video_info : VideoInfo) (w : World) :
  (0 < chunk_duration self)%Q ->
  (0 <= vi_duration video_info)%Q ->
  vi_duration video_info = v_duration video ->
  starts_decode self video ->
  exists chunks,
    segment_video self video video_info w =
      (Returned chunks, evolve 0 0 (map (fun c => frame_event (fst c) 0) chunks) w) /\
    Z.of_nat (length chunks) = Qceiling (vi_duration video_info / chunk_duration self) /\
    (forall i clip ci,
       chunks !! i = Some (clip, ci) ->
       ci_chunk_number ci = i + 1 /\
       ci_start_time ci = (inject_Z (Z.of_nat i) * chunk_duration self)%Q /\
       (i = 0 -> (ci_start_time ci == 0)%Q) /\
       ci_duration ci = (ci_end_time ci - ci_start_time ci)%Q /\
       clip_source clip = video /\
       clip_start clip = ci_start_time ci /\
       clip_end clip = ci_end_time ci /\
       (S i < length chunks ->
        (ci_duration ci == chunk_duration self)%Q /\
        exists clip' ci',
          chunks !! S i = Some (clip', ci') /\ ci_start_time ci' = ci_end_time ci) /\
       (S i = length chunks ->
        (ci_end_time ci == vi_duration video_info)%Q /\
        (ci_duration ci ==
         vi_duration video_info - inject_Z (Z.of_nat i) * chunk_duration self)%Q /\
        (0 < ci_duration ci)%Q /\
        (ci_duration ci <= chunk_duration self)%Q)) /\
    (Qsum (map (fun c => ci_duration (snd c)) chunks) == vi_duration video_info)%Q /\
    ((vi_duration video_info == 0)%Q -> chunks = []).
Proof.
  intros Hpos Hnonneg Hd Hdec.
  rewrite (segment_video_ok self video video_info w Hpos Hd Hdec).
  unfold segment_events, segments. rewrite <- Hd.
  set (T := vi_duration video_info) in *.
  set (n := Z.to_nat (chunk_count self T)).
  assert (Hn : Z.of_nat n = chunk_count self T).
  { apply Z2Nat.id. now apply count_nonneg. }
  exists (map (make_chunk self video T) (seq 0 n)).
  split; [reflexivity|].
  assert (Hlen : length (map (make_chunk self video T) (seq 0 n)) = n).
  { now rewrite length_map, length_seq. }
  rewrite Hlen.
  split; [exact Hn|]. split; [|split].
  - intros i clip ci Hi.
    apply chunk_lookup in Hi as [Hlt Hc]. inversion Hc; subst clip ci; clear Hc.
    cbn [ci_chunk_number ci_start_time ci_end_time ci_duration clip_source clip_start
           clip_end].
    split; [reflexivity|]. split; [reflexivity|].
    split; [intros ->; simpl; apply Qmult_0_l|].
    split; [reflexivity|]. split; [reflexivity|]. split; [reflexivity|].
    split; [reflexivity|].
    split.
    + intros Hinner.
      rewrite (end_time_inner self T Hpos i) by lia.
      split; [rewrite inject_Z_plus; ring|].
      eexists _, _. split.
      * rewrite list_lookup_fmap, lookup_seq_lt by lia. reflexivity.
      * simpl. replace (Z.of_nat (S i)) with (Z.of_nat i + 1)%Z by lia. reflexivity.
    + intros Hlast.
      pose proof (end_time_last self T Hpos i ltac:(lia)) as Hend.
      pose proof (bound_below self T Hpos i ltac:(lia)) as Hbelow.
      pose proof (bound_at_count self T Hpos) as Hcount.
      rewrite <- Hn, <- Hlast in Hcount.
      replace (Z.of_nat (S i)) with (Z.of_nat i + 1)%Z in Hcount by lia.
      rewrite inject_Z_plus in Hcount.
      rewrite Hend.
      split; [reflexivity|]. split; [reflexivity|].
      split.
      * apply (Qplus_lt_l _ _ (inject_Z (Z.of_nat i) * chunk_duration self)).
        ring_simplify. exact Hbelow.
      * apply (Qplus_le_l _ _ (inject_Z (Z.of_nat i) * chunk_duration self)).
        ring_simplify. ring_simplify in Hcount. exact Hcount.
  - rewrite (durations_prefix self video T Hpos Hnonneg n) by lia.
    apply Q.min_r. rewrite Hn. now apply bound_at_count.
  - intros Hzero.
    assert (Hcount : chunk_count self T = 0%Z).
    { unfold chunk_count, np_ceil.
      assert (E : (T / chunk_duration self == 0)%Q) by (rewrite Hzero; apply Qmult_0_l).
      rewrite E. reflexivity. }
    unfold n. rewrite Hcount. reflexivity.
Qed.

(** The specification's example: 65 seconds in chunks of 30. *)
Lemma segment_video_partitions_duration_witness :
  exists chunks w',
    segment_video init (plain_video 65) (plain_info 65)
      (scripted_world "talk.mp4" 65 rate_limited) = (Returned chunks, w') /\
    w_trace w' = [EvGetFrame (0 + 0)%Q; EvGetFrame (30 + 0)%Q; EvGetFrame (60 + 0)%Q] /\
    map (fun c => (ci_chunk_number (snd c), ci_start_time (snd c), ci_end_time (snd c)))
        chunks =
      [(1, 0%Q, 30%Q); (2, 30%Q, 60%Q); (3, 60%Q, 65%Q)] /\
    (Qsum (map (fun c => ci_duration (snd c)) chunks) == 65)%Q.
Proof.
  destruct (segment_video_partitions_duration init (plain_video 65) (plain_info 65)
              (scripted_world "talk.mp4" 65 rate_limited))
    as [chunks [Hrun [_ [_ [Hsum _]]]]].
  - reflexivity.
  - discriminate.
  - reflexivity.
  - intros i _. exists 0. reflexivity.
  - assert (E : fst (segment_video init (plain_video 65) (plain_info 65)
                       (scripted_world "talk.mp4" 65 rate_limited)) =
                Returned (map (make_chunk init (plain_video 65) 65) (seq 0 3)))
      by reflexivity.
    rewrite Hrun in E. injection E as ->.
    eexists _, _. split; [exact Hrun|]. split; [reflexivity|].
    split; [reflexivity | exact Hsum].
Defined.

(** ** Sampling and the attempt: auxiliary facts *)

Section Attempt.

Lemma admitted_cons (duration t : Q) (ts : list Q) :
  admitted duration (t :: ts) =
  if Qltb t duration then t :: admitted duration ts else admitted duration ts.
Proof.
  unfold admitted. rewrite filter_cons.
  destruct (Qltb t duration); [now rewrite decide_True | now rewrite decide_False].
Qed.

Lemma remote_calls_frames (chunk : Clip) (ts : list Q) :
  remote_calls (map (frame_event chunk) ts) = [].
Proof. induction ts as [|t ts IH]; [reflexivity | exact IH]. Qed.

Lemma remote_calls_app (a b : list Event) :
  remote_calls (a ++ b) = remote_calls a ++ remote_calls b.
Proof. apply omap_app. Qed.

Lemma sample_loop_fails (chunk : Clip) (duration : Q) (ts : list Q) :
  forall (frames : list Frame) (w : World) (t : Q) (e : string),
    t ∈ admitted duration ts ->
    decode_at chunk t = inr e ->
    exists e' evs,
      sample_loop chunk duration ts frames w = (Raised e', evolve 0 0 evs w) /\
      remote_calls evs = [] /\
      exists t', t' ∈ admitted duration ts /\ decode_at chunk t' = inr e'.
Proof.
  induction ts as [|t0 ts IH]; intros frames w t e Hin Hfail.
  - apply elem_of_nil in Hin. contradiction.
  - rewrite admitted_cons in Hin. simpl. rewrite admitted_cons.
    destruct (Qltb t0 duration) eqn:E.
    + unfold bind. rewrite get_frame_evolve.
      destruct (v_get_frame (clip_source chunk) (clip_start chunk + t0)%Q) as [f|e0] eqn:Hf.
      * apply elem_of_cons in Hin as [-> | Hin].
        { unfold decode_at in Hfail. congruence. }
        destruct (IH (frames ++ [f]) (evolve 0 0 [EvGetFrame (clip_start chunk + t0)%Q] w)
                    t e Hin Hfail) as [e' [evs [Hrun [Hcalls [t' [Hin' Hd]]]]]].
        exists e', (EvGetFrame (clip_start chunk + t0)%Q :: evs).
        rewrite Hrun, evolve_evolve. split; [reflexivity|]. split; [exact Hcalls|].
        exists t'. split; [now right | exact Hd].
      * exists e0, [EvGetFrame (clip_start chunk + t0)%Q].
        split; [reflexivity|]. split; [reflexivity|].
        exists t0. split; [left | exact Hf].
    + apply IH with (t := t) (e := e); assumption.
Qed.

Lemma cap_summary_length (self : VideoSummarizer) (text : string) :
  (3 <= max_summary_chars self)%Z ->
  (Z.of_nat (PyStr.len (cap_summary self text)) <= max_summary_chars self)%Z.
Proof.
  intros H3.
  destruct (Z.le_gt_cases (Z.of_nat (PyStr.len text)) (max_summary_chars self)) as [Hle|Hgt].
  - now rewrite cap_summary_short.
  - rewrite cap_summary_long, len_app, take_len by lia.
    change (PyStr.len "...") with 3. lia.
Qed.

Lemma contains_dots (m : string) (x : ascii) :
  Ascii.eqb x "."%char = false -> PyStr.contains (String x m) "..." = false.
Proof. intros H. simpl. now rewrite H. Qed.

Lemma startswith_take_dots (m : string) :
  forall (k : nat) (s : string),
    has_char "."%char m = false ->
    PyStr.startswith m (PyStr.take k s ++ "...")%string = true ->
    PyStr.startswith m s = true.
Proof.
  induction m as [|x m IH]; intros k s Hm H; [reflexivity|].
  change (has_char "."%char (String x m))
    with (Ascii.eqb "."%char x || has_char "."%char m) in Hm.
  apply orb_false_iff in Hm as [Hx Hm].
  rewrite Ascii.eqb_sym in Hx.
  destruct k as [|k], s as [|c s]; simpl in H; try (rewrite Hx in H; discriminate).
  simpl. destruct (Ascii.eqb x c); [|discriminate].
  now apply (IH k s).
Qed.

Lemma contains_take_dots (m : string) (x : ascii) (k : nat) (s : string) :
  has_char "."%char (String x m) = false ->
  PyStr.contains (String x m) (PyStr.take k s ++ "...")%string = true ->
  PyStr.contains (String x m) s = true.
Proof.
  intros Hm. assert (Hx : Ascii.eqb x "."%char = false).
  { change (has_char "."%char (String x m))
      with (Ascii.eqb "."%char x || has_char "."%char m) in Hm.
    apply orb_false_iff in Hm as [Hx _]. now rewrite Ascii.eqb_sym. }
  revert s. induction k as [|k IH]; intros s H.
  - simpl PyStr.take in H. rewrite append_nil, contains_dots in H by exact Hx. discriminate.
  - destruct s as [|c s].
    + simpl PyStr.take in H. rewrite append_nil, contains_dots in H by exact Hx. discriminate.
    + simpl PyStr.take in H. rewrite append_cons in H.
      change (PyStr.contains (String x m) (String c (PyStr.take k s ++ "...")%string))
        with (PyStr.startswith (String x m) (String c (PyStr.take k s ++ "...")%string)
              || PyStr.contains (String x m) (PyStr.take k s ++ "...")%string) in H.
      change (PyStr.contains (String x m) (String c s))
        with (PyStr.startswith (String x m) (String c s)
              || PyStr.contains (String x m) s).
      apply orb_true_iff in H as [H | H]; apply orb_true_iff.
      * left. apply (startswith_take_dots (String x m) (S k) (String c s) Hm).
        simpl PyStr.take. rewrite append_cons. exact H.
      * right. now apply IH.
Qed.

(** Capping a text brings no failure marker into it. *)
Lemma cap_summary_clean (self : VideoSummarizer) (text : string) :
  (3 <= max_summary_chars self)%Z ->
  PyStr.contains error_marker text = false ->
  PyStr.contains error_marker (cap_summary self text) = false.
Proof.
  intros H3 Hclean.
  destruct (Z.le_gt_cases (Z.of_nat (PyStr.len text)) (max_summary_chars self)) as [Hle|Hgt].
  - now rewrite cap_summary_short.
  - rewrite cap_summary_long by lia. unfold error_marker in *.
    match goal with
    | |- ?c = false => destruct c eqn:E; [|reflexivity]
    end.
    apply contains_take_dots in E; [congruence | reflexivity].
Qed.

(** The attempt when the decoder answers: one remote call, and the text is
    what the answer to that call stores. *)
Lemma summarize_chunk_answer (self : VideoSummarizer) (chunk : Clip)
    (chunk_info : ChunkInfo) (w : World) :
  (forall t, exists f, v_get_frame (clip_source chunk) t = inl f) ->
  exists rq evs,
    summarize_chunk self chunk chunk_info w =
      (Returned (stored_text self (w_model w (w_calls w) rq)),
       evolve 1 0 (EvSummarize (ci_chunk_number chunk_info) :: evs) w) /\
    Forall io_event evs /\
    rq_timestamp rq = ci_timestamp chunk_info /\
    rq_duration rq = ci_duration chunk_info /\
    remote_calls evs = [rq].
Proof.
  intros Hdec.
  rewrite summarize_chunk_unfold, log_evolve.
  unfold summarize_attempt, bind, extract_frames_and_audio.
  edestruct (sample_loop_ok chunk (clip_duration chunk) (frame_times (clip_duration chunk)) [])
    as [frames [Hrun _]].
  { intros t _. apply Hdec. }
  rewrite Hrun, generate_content_evolve, !evolve_evolve. simpl.
  rewrite Nat.add_0_r.
  eexists {| rq_chunk_duration := chunk_duration self;
             rq_timestamp := ci_timestamp chunk_info;
             rq_duration := ci_duration chunk_info;
             rq_max_chars := max_summary_chars self;
             rq_frames := frames |}, _.
  split.
  - destruct (w_model w (w_calls w) _); reflexivity.
  - split; [|split; [reflexivity|split; [reflexivity|]]].
    + apply Forall_app. split; [|repeat constructor].
      apply Forall_forall. intros e He. apply list_elem_of_In, in_map_iff in He as [t [<- _]].
      exact I.
    + now rewrite remote_calls_app, remote_calls_frames.
Qed.

End Attempt.

(** ** The two loops, in detail *)

Section LoopsInDetail.






Lemma filter_marked_none (chunks : list ChunkData) :
  Forall (fun c => PyStr.contains error_marker (cd_summary c) = false) chunks ->
  filter (fun c => PyStr.contains error_marker (cd_summary c) = true) chunks = [].
Proof.
  induction 1 as [|c chunks Hc _ IH]; [reflexivity|].
  rewrite filter_cons, decide_False; [exact IH | congruence].
Qed.




Lemma chunk_data_consistent (entries : list (ChunkInfo * string)) :
  Forall length_consistent (map chunk_data entries).
Proof.
  induction entries as [|[chunk_info summary] entries IH]; constructor;
    [reflexivity | exact IH].
Qed.

Lemma touched_only_entry (numbers : list nat) (old new : list ChunkData)
    (i : nat) (c' : ChunkData) :
  touched_only numbers old new ->
  new !! i = Some c' -> old !! i = Some c' \/ length_consistent c'.
Proof.
  intros H Hnew.
  destruct (Forall2_lookup_r _ _ _ _ _ H Hnew) as [c [Hold [-> | [_ [s ->]]]]];
    [left; exact Hold | right; reflexivity].
Qed.

Lemma touched_only_fields (numbers : list nat) (old new : list ChunkData) :
  touched_only numbers old new ->
  map (fun c => (cd_chunk_number c, cd_timestamp c, cd_start_time c, cd_end_time c,
                 cd_duration c)) new =
  map (fun c => (cd_chunk_number c, cd_timestamp c, cd_start_time c, cd_end_time c,
                 cd_duration c)) old.
Proof.
  induction 1 as [|c c' old new Hc _ IH]; [reflexivity|].
  simpl. rewrite IH. now destruct Hc as [-> | [_ [s ->]]].
Qed.

Lemma update_existing_numbers (number : nat) (summary : string) (l : list ChunkData) :
  map cd_chunk_number (update_existing number summary l) = map cd_chunk_number l.
Proof.
  induction l as [|c l IH]; [reflexivity|].
  rewrite update_existing_cons.
  destruct (Nat.eqb (cd_chunk_number c) number); [reflexivity|].
  simpl. now rewrite IH.
Qed.

(** With distinct numbers, the update hits the one entry of that number. *)
Lemma update_existing_lookup (number : nat) (summary : string) (l : list ChunkData) :
  NoDup (map cd_chunk_number l) ->
  forall i c,
    l !! i = Some c ->
    update_existing number summary l !! i =
    Some (if Nat.eqb (cd_chunk_number c) number then set_summary summary c else c).
Proof.
  induction l as [|c0 l IH]; intros Hnd i c Hi; [discriminate|].
  simpl in Hnd. apply NoDup_cons in Hnd as [Hnotin Hnd].
  rewrite update_existing_cons.
  destruct (Nat.eqb (cd_chunk_number c0) number) eqn:E0.
  - apply Nat.eqb_eq in E0. destruct i as [|i]; simpl in *.
    + inversion Hi; subst c. now rewrite (proj2 (Nat.eqb_eq _ _) E0).
    + assert (Hne : cd_chunk_number c <> number).
      { intros Heq. apply Hnotin. rewrite E0, <- Heq.
        apply list_elem_of_In, in_map.
        apply list_elem_of_In. eapply list_elem_of_lookup_2. exact Hi. }
      apply Nat.eqb_neq in Hne. now rewrite Hne.
  - destruct i as [|i]; simpl in *.
    + inversion Hi; subst c. now rewrite E0.
    + now apply IH.
Qed.

(** The resume loop on an artifact with distinct chunk numbers: the entries
    of failed numbers that are numbers of re-derived chunks get the text of
    an attempt (a text with property [P] when every attempt's text has it),
    and the others stay as they are. *)
Lemma resume_loop_run (self : VideoSummarizer) (failed : list nat)
    (model : nat -> Request -> Response) (P : string -> Prop)
    (chunks : list (Clip * ChunkInfo)) :
  (forall chunk chunk_info w0 s w1,
     (chunk, chunk_info) ∈ chunks -> w_model w0 = model ->
     summarize_chunk self chunk chunk_info w0 = (Returned s, w1) -> P s) ->
  forall (existing : list ChunkData) (w : World),
    w_model w = model ->
    NoDup (map cd_chunk_number existing) ->
    exists existing' k secs evs,
      resume_loop self failed chunks existing w = (Returned existing', evolve k secs evs w) /\
      summarize_calls evs =
        filter (fun n => n ∈ failed) (map (fun c => ci_chunk_number (snd c)) chunks) /\
      sleeps evs = map (fun _ => 3) (summarize_calls evs) /\
      secs = 3 * length (summarize_calls evs) /\
      k <= length (summarize_calls evs) /\
      map cd_chunk_number existing' = map cd_chunk_number existing /\
      forall i c,
        existing !! i = Some c ->
        (cd_chunk_number c ∈ failed ->
         cd_chunk_number c ∈ map (fun c => ci_chunk_number (snd c)) chunks ->
         exists s, existing' !! i = Some (set_summary s c) /\ P s) /\
        (~ (cd_chunk_number c ∈ failed /\
            cd_chunk_number c ∈ map (fun c => ci_chunk_number (snd c)) chunks) ->
         existing' !! i = Some c).
Proof.
  induction chunks as [|[chunk chunk_info] chunks IH]; intros HP existing w Hmodel Hnd.
  - exists existing, 0, 0, []. simpl. rewrite evolve_id.
    do 6 (split; [reflexivity|]).
    intros i c Hi. split; [|auto].
    intros _ Hin. apply elem_of_nil in Hin. contradiction.
  - assert (HP' : forall chunk' chunk_info' w0 s w1,
               (chunk', chunk_info') ∈ chunks -> w_model w0 = model ->
               summarize_chunk self chunk' chunk_info' w0 = (Returned s, w1) -> P s).
    { intros chunk' chunk_info' w0 s w1 Hin. apply HP. now right. }
    simpl. rewrite filter_cons. simpl.
    destruct (decide (ci_chunk_number chunk_info ∈ failed)) as [Hin|Hnot].
    + rewrite bool_decide_eq_true_2 by exact Hin.
      unfold bind at 1. rewrite sleep_evolve.
      unfold bind at 1. unfold try_except at 1. unfold reprocess at 1, bind at 1.
      destruct (summarize_chunk_returns self chunk chunk_info (evolve 0 3 [EvSleep 3] w))
        as [s [k [evs [Hrun [Hk Hio]]]]].
      assert (Hs : P s).
      { eapply (HP chunk chunk_info _ s _); [left | | exact Hrun]. exact Hmodel. }
      rewrite Hrun, evolve_evolve. unfold ret at 1.
      destruct (IH HP' (update_existing (ci_chunk_number chunk_info) s existing)
                  (evolve (0 + k) (3 + 0)
                     ([EvSleep 3] ++ EvSummarize (ci_chunk_number chunk_info) :: evs) w))
        as [existing' [k' [secs' [evs' [Hrest [Hcalls [Hsleeps [Hsecs [Hk' [Hnum Hentries]]]]]]]]]].
      { exact Hmodel. }
      { now rewrite update_existing_numbers. }
      rewrite Hrest, evolve_evolve.
      eexists existing', _, _, _. split; [reflexivity|].
      rewrite !summarize_calls_app, !sleeps_app.
      change (summarize_calls [EvSleep 3]) with (@nil nat).
      change (sleeps [EvSleep 3]) with [3].
      change (summarize_calls (EvSummarize (ci_chunk_number chunk_info) :: evs))
        with (ci_chunk_number chunk_info :: summarize_calls evs).
      change (sleeps (EvSummarize (ci_chunk_number chunk_info) :: evs)) with (sleeps evs).
      rewrite (Forall_io_summarize_calls evs Hio), (Forall_io_sleeps evs Hio).
      rewrite Hsleeps, Hsecs, Hcalls. simpl.
      split; [reflexivity|]. split; [reflexivity|].
      split; [lia|]. split; [rewrite <- Hcalls; lia|].
      split; [now rewrite Hnum, update_existing_numbers|].
      intros i c Hi.
      pose proof (update_existing_lookup (ci_chunk_number chunk_info) s existing Hnd i c Hi)
        as Hi1.
      destruct (Hentries i _ Hi1) as [Hyes Hno].
      destruct (Nat.eqb_spec (cd_chunk_number c) (ci_chunk_number chunk_info)) as [Heq|Hne].
      * split; [|intros Hn; exfalso; apply Hn; rewrite Heq; split; [exact Hin | left]].
        intros _ _.
        destruct (decide (ci_chunk_number chunk_info ∈
                          map (fun c => ci_chunk_number (snd c)) chunks)) as [Hlater|Hnever].
        -- destruct Hyes as [s' [Hs' HPs']]; [simpl; now rewrite Heq | simpl; now rewrite Heq |].
           exists s'. split; [exact Hs' | exact HPs'].
        -- exists s. split; [|exact Hs]. apply Hno. simpl. rewrite Heq. tauto.
      * split.
        -- intros Hf Hc. apply elem_of_cons in Hc as [Hc|Hc]; [contradiction|].
           now apply Hyes.
        -- intros Hn. apply Hno. intros [Hf Hc]. apply Hn. split; [exact Hf | now right].
    + rewrite bool_decide_eq_false_2 by exact Hnot.
      destruct (IH HP' existing w Hmodel Hnd)
        as [existing' [k' [secs' [evs' [Hrest [Hcalls [Hsleeps [Hsecs [Hk' [Hnum Hentries]]]]]]]]]].
      exists existing', k', secs', evs'.
      repeat (split; [assumption|]).
      intros i c Hi. destruct (Hentries i c Hi) as [Hyes Hno]. split.
      * intros Hf Hc. apply elem_of_cons in Hc as [Hc|Hc]; [|now apply Hyes].
        exfalso. apply Hnot. now rewrite <- Hc.
      * intros Hn. apply Hno. intros [Hf Hc]. apply Hn. split; [exact Hf | now right].
Qed.

(** The resume loop, with the clock and the remote calls. *)
Lemma resume_loop_clock (self : VideoSummarizer) (failed : list nat)
    (chunks : list (Clip * ChunkInfo)) :
  forall (existing : list ChunkData) (w : World),
  exists existing' k secs evs,
    resume_loop self failed chunks existing w = (Returned existing', evolve k secs evs w) /\
    sleeps evs = map (fun _ => 3) (summarize_calls evs) /\
    secs = 3 * length (summarize_calls evs) /\
    k <= length (summarize_calls evs).
Proof.
  induction chunks as [|[chunk chunk_info] chunks IH]; intros existing w.
  - exists existing, 0, 0, []. simpl. rewrite evolve_id. do 3 (split; [reflexivity|]). lia.
  - simpl. destruct (bool_decide (ci_chunk_number chunk_info ∈ failed)); [|apply IH].
    unfold bind at 1. rewrite sleep_evolve.
    unfold bind at 1. unfold try_except at 1.
    destruct (reprocess_returns self chunk chunk_info existing
                (evolve 0 3 [EvSleep 3] w)) as [s [k [evs [Hrun [Hk Hio]]]]].
    rewrite Hrun, evolve_evolve.
    destruct (IH (update_existing (ci_chunk_number chunk_info) s existing)
                (evolve (0 + k) (3 + 0)
                   ([EvSleep 3] ++ EvSummarize (ci_chunk_number chunk_info) :: evs) w))
      as [existing' [k' [secs' [evs' [Hrest [Hsleeps [Hsecs Hk']]]]]]].
    rewrite Hrest, evolve_evolve.
    eexists existing', _, _, _. split; [reflexivity|].
    rewrite !summarize_calls_app, !sleeps_app.
    change (summarize_calls [EvSleep 3]) with (@nil nat).
    change (sleeps [EvSleep 3]) with [3].
    change (summarize_calls (EvSummarize (ci_chunk_number chunk_info) :: evs))
      with (ci_chunk_number chunk_info :: summarize_calls evs).
    change (sleeps (EvSummarize (ci_chunk_number chunk_info) :: evs)) with (sleeps evs).
    rewrite (Forall_io_summarize_calls evs Hio), (Forall_io_sleeps evs Hio).
    rewrite Hsleeps, Hsecs. simpl.
    split; [reflexivity|]. split; lia.
Qed.

(** The resume loop when the decoder answers and the numbers are distinct
    on both sides: every redone chunk makes one remote call, the [j]-th
    chunk redone makes the [j]-th call from here, and its entry gets what
    the answer to that call stores; the other entries stay. *)
Lemma resume_loop_healthy (self : VideoSummarizer) (failed : list nat)
    (chunks : list (Clip * ChunkInfo)) :
  Forall (fun c => forall t, exists f, v_get_frame (clip_source (fst c)) t = inl f) chunks ->
  NoDup (map (fun c => ci_chunk_number (snd c)) chunks) ->
  forall (existing : list ChunkData) (w : World),
    NoDup (map cd_chunk_number existing) ->
    exists existing' evs,
      resume_loop self failed chunks existing w =
        (Returned existing',
         evolve (length (remote_calls evs)) (3 * length (remote_calls evs)) evs w) /\
      summarize_calls evs =
        filter (fun n => n ∈ failed) (map (fun c => ci_chunk_number (snd c)) chunks) /\
      sleeps evs = map (fun _ => 3) (summarize_calls evs) /\
      Forall2 (fun n rq =>
                 exists c, c ∈ chunks /\ ci_chunk_number (snd c) = n /\
                           rq_timestamp rq = ci_timestamp (snd c) /\
                           rq_duration rq = ci_duration (snd c))
              (summarize_calls evs) (remote_calls evs) /\
      forall i c,
        existing !! i = Some c ->
        (cd_chunk_number c ∉ summarize_calls evs -> existing' !! i = Some c) /\
        (forall j,
           summarize_calls evs !! j = Some (cd_chunk_number c) ->
           exists rq,
             remote_calls evs !! j = Some rq /\
             existing' !! i =
             Some (set_summary (stored_text self (w_model w (w_calls w + j) rq)) c)).
Proof.
  induction chunks as [|[chunk chunk_info] chunks IH]; intros Hdec Hndc existing w Hnd.
  - exists existing, []. simpl. rewrite evolve_id.
    do 3 (split; [reflexivity|]). split; [constructor|].
    intros i c Hi. split; [auto|]. intros j Hj. discriminate.
  - inversion Hdec as [|? ? Hdec1 Hdecs]; subst.
    simpl in Hndc. apply NoDup_cons in Hndc as [Hfresh Hndc].
    simpl. rewrite filter_cons. simpl.
    destruct (decide (ci_chunk_number chunk_info ∈ failed)) as [Hin|Hnot].
    + rewrite bool_decide_eq_true_2 by exact Hin.
      unfold bind at 1. rewrite sleep_evolve.
      unfold bind at 1. unfold try_except at 1. unfold reprocess at 1, bind at 1.
      destruct (summarize_chunk_answer self chunk chunk_info (evolve 0 3 [EvSleep 3] w) Hdec1)
        as [rq [evs [Hrun [Hio [Hts [Hdur Hrq]]]]]].
      rewrite Hrun, evolve_evolve. unfold ret at 1.
      destruct (IH Hdecs Hndc
                  (update_existing (ci_chunk_number chunk_info)
                     (stored_text self
                        (w_model (evolve 0 3 [EvSleep 3] w)
                           (w_calls (evolve 0 3 [EvSleep 3] w)) rq)) existing)
                  (evolve (0 + 1) (3 + 0)
                     ([EvSleep 3] ++ EvSummarize (ci_chunk_number chunk_info) :: evs) w))
        as [existing' [evs' [Hrest [Hcalls [Hsleeps [Hreqs Hentries]]]]]].
      { now rewrite update_existing_numbers. }
      rewrite Hrest, evolve_evolve.
      exists existing',
        (([EvSleep 3] ++ EvSummarize (ci_chunk_number chunk_info) :: evs) ++ evs').
      assert (Hrc : remote_calls
                      (([EvSleep 3] ++ EvSummarize (ci_chunk_number chunk_info) :: evs) ++ evs') =
                    rq :: remote_calls evs').
      { rewrite !remote_calls_app.
        change (remote_calls [EvSleep 3]) with (@nil Request).
        change (remote_calls (EvSummarize (ci_chunk_number chunk_info) :: evs))
          with (remote_calls evs).
        now rewrite Hrq. }
      assert (Hsc : summarize_calls
                      (([EvSleep 3] ++ EvSummarize (ci_chunk_number chunk_info) :: evs) ++ evs') =
                    ci_chunk_number chunk_info :: summarize_calls evs').
      { rewrite !summarize_calls_app.
        change (summarize_calls [EvSleep 3]) with (@nil nat).
        change (summarize_calls (EvSummarize (ci_chunk_number chunk_info) :: evs))
          with (ci_chunk_number chunk_info :: summarize_calls evs).
        now rewrite (Forall_io_summarize_calls evs Hio). }
      assert (Hsl : sleeps
                      (([EvSleep 3] ++ EvSummarize (ci_chunk_number chunk_info) :: evs) ++ evs') =
                    3 :: sleeps evs').
      { rewrite !sleeps_app.
        change (sleeps [EvSleep 3]) with [3].
        change (sleeps (EvSummarize (ci_chunk_number chunk_info) :: evs)) with (sleeps evs).
        now rewrite (Forall_io_sleeps evs Hio). }
      assert (Hnotin : ci_chunk_number chunk_info ∉ summarize_calls evs').
      { rewrite Hcalls. intros H. apply list_elem_of_filter in H as [_ H]. contradiction. }
      rewrite Hrc, Hsc, Hsl.
      split; [f_equal; f_equal; simpl; lia|].
      split; [now rewrite Hcalls|].
      split; [now rewrite Hsleeps|].
      split.
      { constructor.
        - exists (chunk, chunk_info). split; [left|]. auto.
        - eapply Forall2_impl; [exact Hreqs|].
          intros n rq' [c [Hc H]]. exists c. split; [now right | exact H]. }
      intros i c Hi.
      pose proof (update_existing_lookup (ci_chunk_number chunk_info)
                    (stored_text self
                       (w_model (evolve 0 3 [EvSleep 3] w)
                          (w_calls (evolve 0 3 [EvSleep 3] w)) rq)) existing Hnd i c Hi)
        as Hi1.
      destruct (Hentries i _ Hi1) as [Hkeep Hset].
      destruct (Nat.eqb_spec (cd_chunk_number c) (ci_chunk_number chunk_info)) as [Heq|Hne].
      * split.
        -- intros Hno. exfalso. apply Hno. rewrite Heq. left.
        -- intros [|j] Hj.
           ++ exists rq. split; [reflexivity|].
              apply Hkeep. simpl. now rewrite Heq.
           ++ exfalso. apply Hnotin. rewrite <- Heq.
              eapply list_elem_of_lookup_2. exact Hj.
      * split.
        -- intros Hno. apply Hkeep. intros H. apply Hno. now right.
        -- intros [|j] Hj.
           ++ simpl in Hj. inversion Hj. congruence.
           ++ destruct (Hset j Hj) as [rq' [Hrq' He]].
              exists rq'. split; [exact Hrq'|]. rewrite He. simpl.
              now replace (w_calls w + 1 + j) with (w_calls w + S j) by lia.
    + rewrite bool_decide_eq_false_2 by exact Hnot.
      destruct (IH Hdecs Hndc existing w Hnd)
        as [existing' [evs' [Hrest [Hcalls [Hsleeps [Hreqs Hentries]]]]]].
      exists existing', evs'.
      do 3 (split; [assumption|]). split; [|exact Hentries].
      eapply Forall2_impl; [exact Hreqs|].
      intros n rq' [c [Hc H]]. exists c. split; [now right | exact H].
Qed.

End LoopsInDetail.

(** ** The two runs, down to their loops *)

Section Runs.

Lemma segment_events_io (self : VideoSummarizer) (video : Video) :
  Forall io_event (segment_events self video).
Proof.
  unfold segment_events. induction (segments self video); constructor; [exact I | assumption].
Qed.

Lemma segment_events_remote (self : VideoSummarizer) (video : Video) :
  remote_calls (segment_events self video) = [].
Proof.
  unfold segment_events. now induction (segments self video).
Qed.

(** What a run adds to the trace around its loop counts for nothing in
    the three projections. *)
Lemma run_trace (self : VideoSummarizer) (video : Video) (video_path path : string)
    (evs : list Event) :
  summarize_calls (EvIngest video_path :: segment_events self video ++ evs ++ [EvWrite path]) =
    summarize_calls evs /\
  sleeps (EvIngest video_path :: segment_events self video ++ evs ++ [EvWrite path]) =
    sleeps evs /\
  remote_calls (EvIngest video_path :: segment_events self video ++ evs ++ [EvWrite path]) =
    remote_calls evs.
Proof.
  change (summarize_calls (EvIngest video_path :: ?l)) with (summarize_calls l).
  change (sleeps (EvIngest video_path :: ?l)) with (sleeps l).
  change (remote_calls (EvIngest video_path :: ?l)) with (remote_calls l).
  rewrite !summarize_calls_app, !sleeps_app, !remote_calls_app.
  rewrite (Forall_io_summarize_calls _ (segment_events_io self video)).
  rewrite (Forall_io_sleeps _ (segment_events_io self video)).
  rewrite segment_events_remote. simpl. now rewrite !app_nil_r.
Qed.


(** A full run that returns has assembled its artifact with [chunk_data]. *)
Lemma full_run_inv (self : VideoSummarizer) (video_path : string)
    (output_path : option string) (w w' : World) (s : VideoSummary) (out : string) :
  process_video self video_path output_path true w = (Returned (s, out), w') ->
  exists entries, vs_chunks s = map chunk_data entries.
Proof.
  unfold process_video, bind at 1, ret at 1, full_run, bind at 1.
  destruct (ingest_video video_path w) as [[[video video_info]|e] w1]; [|discriminate].
  unfold bind at 1.
  destruct (segment_video self video video_info w1) as [[chunks|e] w2]; [|discriminate].
  unfold bind at 1.
  destruct (fresh_loop self 0 chunks [] w2) as [[entries|e] w3]; [|discriminate].
  unfold bind at 1, create_video_summary_json, bind at 1, now, ret at 1.
  unfold bind at 1.
  destruct (save_summary_json _ _ _) as [[o|e] w4]; [|discriminate].
  intros H. inversion H. exists entries. reflexivity.
Qed.

(** The resume run without failed chunks does nothing. *)
Lemma resume_run_none (self : VideoSummarizer)
    (video_path existing_summary_path : string) (w : World) (art : VideoSummary) :
  w_files w !! existing_summary_path = Some (Json art) ->
  classify_failed art = [] ->
  resume_failed_processing self video_path existing_summary_path w =
  (Returned (art, existing_summary_path), w).
Proof.
  intros Hfile Hnone. unfold resume_failed_processing, bind.
  rewrite (load_json_found _ _ _ Hfile).
  now rewrite resume_failed_scan_classify, Hnone.
Qed.

(** The resume run with failed chunks, on a video that opens and whose
    chunk starts decode. *)
Lemma resume_run_unfold (self : VideoSummarizer)
    (video_path existing_summary_path : string) (w : World)
    (art : VideoSummary) (video : Video) :
  w_files w !! existing_summary_path = Some (Json art) ->
  w_media w !! video_path = Some (Playable video) ->
  (0 < chunk_duration self)%Q ->
  starts_decode self video ->
  classify_failed art <> [] ->
  resume_failed_processing self video_path existing_summary_path w =
  match resume_loop self (classify_failed art) (segments self video) (vs_chunks art)
          (evolve 0 0 (EvIngest video_path :: segment_events self video) w) with
  | (Returned existing', w1) =>
      (Returned (set_processing_date (w_now w1) existing' art, existing_summary_path),
       log (EvWrite existing_summary_path)
         (with_file existing_summary_path
            (Json (set_processing_date (w_now w1) existing' art))
            (with_dir "output" w1)))
  | (Raised e, w1) => (Raised e, w1)
  end.
Proof.
  intros Hfile Hmedia Hpos Hdec Hfailed.
  unfold resume_failed_processing, bind at 1.
  rewrite (load_json_found _ _ _ Hfile).
  rewrite resume_failed_scan_classify.
  destruct (classify_failed art) as [|n0 failed'] eqn:E; [contradiction|].
  unfold bind at 1, ingest_video. rewrite Hmedia.
  unfold bind at 1. rewrite segment_video_ok; [|exact Hpos | reflexivity | exact Hdec].
  rewrite log_evolve, evolve_evolve.
  change (evolve (0 + 0) (0 + 0) ([EvIngest video_path] ++ segment_events self video) w)
    with (evolve 0 0 (EvIngest video_path :: segment_events self video) w).
  unfold bind at 1.
  match goal with
  | |- context [resume_loop self ?f ?cs ?ex ?w0] =>
      destruct (resume_loop_spec self f cs ex w0)
        as [existing' [k [secs [evs [Hrun _]]]]]
  end.
  rewrite Hrun.
  unfold bind at 1, now. unfold bind at 1.
  rewrite save_summary_json_spec, folder_exists_file; [reflexivity|].
  simpl. rewrite Hfile. eauto.
Qed.

(** A resume run that returns has replaced texts of failed numbers and the
    processing date, and nothing else. *)
Lemma resume_run_inv (self : VideoSummarizer)
    (video_path existing_summary_path : string) (w w' : World)
    (art art' : VideoSummary) (out : string) :
  w_files w !! existing_summary_path = Some (Json art) ->
  resume_failed_processing self video_path existing_summary_path w =
    (Returned (art', out), w') ->
  touched_only (classify_failed art) (vs_chunks art) (vs_chunks art') /\
  art' = set_processing_date (vs_processing_date art') (vs_chunks art') art /\
  out = existing_summary_path.
Proof.
  intros Hfile.
  unfold resume_failed_processing, bind at 1.
  rewrite (load_json_found _ _ _ Hfile).
  rewrite resume_failed_scan_classify.
  destruct (classify_failed art) as [|n0 failed'] eqn:E.
  - intros H. inversion H; subst. split; [apply touched_only_refl|].
    split; [now destruct art' | reflexivity].
  - unfold bind at 1.
    destruct (ingest_video video_path w) as [[[video video_info]|e] w1]; [|discriminate].
    unfold bind at 1.
    destruct (segment_video self video video_info w1) as [[chunks|e] w2]; [|discriminate].
    unfold bind at 1.
    destruct (resume_loop_spec self (n0 :: failed') chunks (vs_chunks art) w2)
      as [existing' [k [secs [evs [Hrun [_ [_ Htouched]]]]]]].
    rewrite Hrun.
    unfold bind at 1, now. unfold bind at 1.
    rewrite save_summary_json_spec.
    destruct (folder_exists _ _); [|discriminate].
    intros H. inversion H; subst. split; [exact Htouched|]. split; reflexivity.
Qed.

End Runs.

(** ** The resume run *)

(** C3, the claim as stated fails: the resume example's artifact, with
    failure markers on chunks 2 and 5, next to a video of 60 seconds.  The
    resume run re-segments the video into two chunks, redoes chunk 2 and
    never comes to chunk 5, which stays classified as failed. *)
Lemma resume_skips_failed_chunk_outside_video :
  classify_failed partial_artifact = [2; 5] /\
  exists art' w',
    resume_failed_processing init "talk.mp4" "talk_summary.json" short_resume_world =
      (Returned (art', "talk_summary.json"), w') /\
    summarize_calls (w_trace w') = [2] /\
    w_calls w' = 1 /\
    classify_failed art' = [5] /\
    vs_chunks art' !! 4 = vs_chunks partial_artifact !! 4.
Proof.
  split; [reflexivity|].
  eexists _, _. split; [vm_compute; reflexivity|].
  vm_compute. repeat split.
Qed.

(** C3, amended: for a loaded artifact with distinct chunk numbers and a
    video that opens and decodes, the resume run returns.  It enters
    [summarize_chunk] once, in index order, for each chunk of the
    re-segmented video whose number is classified as failed, and for no
    other: for exactly the failed chunks when their numbers are chunk
    numbers of the video.  Each of these makes one remote call, asked about
    that chunk, and what the answer to the [j]-th call stores is put in the
    entry of the [j]-th chunk redone.  Every other entry, so every entry
    that is not failed, is left as it was, at its position; the rest of the
    artifact changes in its processing date only; and the result is saved
    over the path it was loaded from. *)
Theorem resume_reprocesses_failed_chunks_of_video (self : VideoSummarizer)
    (video_path existing_summary_path : string) (w : World)
    (art : VideoSummary) (video : Video) :
  w_files w !! existing_summary_path = Some (Json art) ->
  w_media w !! video_path = Some (Playable video) ->
  (0 < chunk_duration self)%Q ->
  (forall t, exists f, v_get_frame video t = inl f) ->
  NoDup (map cd_chunk_number (vs_chunks art)) ->
  let failed := classify_failed art in
  let numbers := seq 1 (Z.to_nat (chunk_count self (v_duration video))) in
  exists art' w' evs,
    resume_failed_processing self video_path existing_summary_path w =
      (Returned (art', existing_summary_path), w') /\
    w_trace w' = w_trace w ++ evs /\
    summarize_calls evs = filter (fun n => n ∈ failed) numbers /\
    ((forall n, n ∈ failed -> n ∈ numbers) ->
     forall n, n ∈ summarize_calls evs <-> n ∈ failed) /\
    w_calls w' = w_calls w + length (summarize_calls evs) /\
    Forall2 (fun n rq =>
               rq_timestamp rq =
               ci_timestamp (snd (make_chunk self video (v_duration video) (n - 1))))
            (summarize_calls evs) (remote_calls evs) /\
    (forall i c,
       vs_chunks art !! i = Some c ->
       (cd_chunk_number c ∉ summarize_calls evs -> vs_chunks art' !! i = Some c) /\
       (forall j,
          summarize_calls evs !! j = Some (cd_chunk_number c) ->
          exists rq,
            remote_calls evs !! j = Some rq /\
            vs_chunks art' !! i =
            Some (set_summary (stored_text self (w_model w (w_calls w + j) rq)) c))) /\
    (forall i c,
       vs_chunks art !! i = Some c -> cd_chunk_number c ∉ failed ->
       vs_chunks art' !! i = Some c) /\
    length (vs_chunks art') = length (vs_chunks art) /\
    art' = set_processing_date (vs_processing_date art') (vs_chunks art') art /\
    w_files w' = <[existing_summary_path := Json art']> (w_files w).
Proof.
  intros Hfile Hmedia Hpos Hdec Hnd failed numbers.
  destruct (decide (classify_failed art = [])) as [Hnone|Hsome].
  - rewrite (resume_run_none self video_path existing_summary_path w art Hfile Hnone).
    unfold failed. rewrite Hnone.
    exists art, w, []. split; [reflexivity|].
    split; [now rewrite app_nil_r|].
    split; [symmetry; apply filter_elem_of_nil|].
    split; [tauto|].
    split; [simpl; lia|].
    split; [constructor|].
    split. { intros i c Hi. split; [auto|]. intros j Hj. discriminate. }
    split; [auto|]. split; [reflexivity|].
    split; [now destruct art|].
    symmetry. apply insert_id. exact Hfile.
  - assert (Hstarts : starts_decode self video) by (intros i _; apply Hdec).
    rewrite (resume_run_unfold self video_path existing_summary_path w art video
               Hfile Hmedia Hpos Hstarts Hsome).
    fold failed.
    destruct (resume_loop_healthy self failed (segments self video))
      with (existing := vs_chunks art)
           (w := evolve 0 0 (EvIngest video_path :: segment_events self video) w)
      as [existing' [evs [Hrun [Hcalls [_ [Hreqs Hentries]]]]]].
    { apply Forall_forall. intros c Hc. rewrite (segments_source _ _ _ Hc). exact Hdec. }
    { rewrite segments_numbers. apply NoDup_seq. }
    { exact Hnd. }
    destruct (resume_loop_spec self failed (segments self video) (vs_chunks art)
                (evolve 0 0 (EvIngest video_path :: segment_events self video) w))
      as [existing2 [k2 [secs2 [evs2 [Hrun2 [_ [_ Htouched]]]]]]].
    rewrite Hrun in Hrun2. injection Hrun2 as <- _.
    rewrite Hrun. rewrite segments_numbers in Hcalls. fold numbers in Hcalls.
    destruct (run_trace self video video_path existing_summary_path evs) as [Hsc [_ Hrc]].
    eexists _, _,
      (EvIngest video_path :: segment_events self video ++ evs ++ [EvWrite existing_summary_path]).
    rewrite Hsc, Hrc.
    split; [reflexivity|].
    split. { simpl. now rewrite <- !app_assoc. }
    split; [exact Hcalls|].
    split. { intros Hcov n. rewrite Hcalls, list_elem_of_filter. split; [tauto | auto]. }
    split. { simpl. rewrite (Forall2_length _ _ _ Hreqs). lia. }
    split.
    { eapply Forall2_impl; [exact Hreqs|].
      intros n rq [c [Hc [Hn [Hts _]]]].
      apply list_elem_of_In, in_map_iff in Hc as [i [<- _]].
      simpl in Hn. subst n. rewrite Hts. simpl.
      now replace (i + 1 - 1) with i by lia. }
    split.
    { intros i c Hi. destruct (Hentries i c Hi) as [Hkeep Hset].
      split; [exact Hkeep|]. intros j Hj.
      destruct (Hset j Hj) as [rq [Hrq He]]. exists rq. split; [exact Hrq|].
      cbn [w_model w_calls evolve] in He. rewrite Nat.add_0_r in He. exact He. }
    split.
    { intros i c Hi Hnot. apply (Hentries i c Hi).
      rewrite Hcalls. intros Hmem. apply list_elem_of_filter in Hmem as [Hf _]. contradiction. }
    split. { symmetry. eapply Forall2_length. exact Htouched. }
    split; reflexivity.
Qed.

(** The specification's example: failure markers on chunks 2 and 5 of five,
    and a remote model that now answers. *)
Lemma resume_reprocesses_failed_chunks_of_video_witness :
  classify_failed partial_artifact = [2; 5] /\
  exists art' w' evs,
    resume_failed_processing init "talk.mp4" "talk_summary.json" resume_world =
      (Returned (art', "talk_summary.json"), w') /\
    w_trace w' = w_trace resume_world ++ evs /\
    summarize_calls evs = [2; 5] /\
    w_calls w' = 2 /\
    vs_chunks art' !! 0 = vs_chunks partial_artifact !! 0 /\
    cd_summary <$> vs_chunks art' !! 1 = Some "The speaker walks to the podium quietly." /\
    vs_chunks art' !! 2 = vs_chunks partial_artifact !! 2 /\
    vs_chunks art' !! 3 = vs_chunks partial_artifact !! 3 /\
    cd_summary <$> vs_chunks art' !! 4 = Some "The speaker walks to the podium quietly.".
Proof.
  split; [reflexivity|].
  destruct (resume_reprocesses_failed_chunks_of_video init "talk.mp4" "talk_summary.json"
              resume_world partial_artifact (plain_video 150))
    as [art' [w' [evs [Hrun [Htrace [Hcalls [_ [Hremote [_ [Hentries [Hother _]]]]]]]]]]].
  - reflexivity.
  - reflexivity.
  - reflexivity.
  - intros t. exists 0. reflexivity.
  - vm_compute. repeat constructor; intros H;
      repeat (apply elem_of_cons in H as [H|H]; [discriminate|]);
      now apply elem_of_nil in H.
  - assert (Hcalls' : summarize_calls evs = [2; 5]) by exact Hcalls.
    exists art', w', evs.
    split; [exact Hrun|]. split; [exact Htrace|]. split; [exact Hcalls'|].
    split; [now rewrite Hremote, Hcalls'|].
    assert (Hkept : forall i c,
               vs_chunks partial_artifact !! i = Some c ->
               cd_chunk_number c ∉ [2; 5] ->
               vs_chunks art' !! i = Some c) by exact Hother.
    assert (Hnew : forall i j c,
               vs_chunks partial_artifact !! i = Some c ->
               [2; 5] !! j = Some (cd_chunk_number c) ->
               cd_summary <$> vs_chunks art' !! i =
               Some "The speaker walks to the podium quietly.").
    { intros i j c Hi Hj. destruct (Hentries i c Hi) as [_ Hset].
      rewrite <- Hcalls' in Hj. destruct (Hset j Hj) as [rq [_ ->]]. reflexivity. }
    split; [|split; [|split; [|split]]].
    + apply Hkept; [reflexivity|]. vm_compute. intros H.
      repeat (apply elem_of_cons in H as [H|H]; [discriminate|]). now apply elem_of_nil in H.
    + now apply (Hnew 1 0 _ eq_refl).
    + apply Hkept; [reflexivity|]. vm_compute. intros H.
      repeat (apply elem_of_cons in H as [H|H]; [discriminate|]). now apply elem_of_nil in H.
    + apply Hkept; [reflexivity|]. vm_compute. intros H.
      repeat (apply elem_of_cons in H as [H|H]; [discriminate|]). now apply elem_of_nil in H.
    + now apply (Hnew 4 1 _ eq_refl).
Defined.

(** ** The reuse run *)

Section Reuse.

Lemma reuse_step (self : VideoSummarizer) (video_path : string)
    (output_path : option string) (w : World) (art : VideoSummary)
    (answer : string) (rest : list string) :
  w_files w !! summary_filename video_path = Some (Json art) ->
  classify_failed art = [] ->
  w_stdin w = answer :: rest ->
  accepts answer = true ->
  process_video self video_path output_path false w =
  (Returned (art, summary_filename video_path), log EvInput (with_stdin rest w)).
Proof.
  intros Hfile Hnone Hstdin Hyes.
  unfold process_video, bind at 1. unfold bind at 1.
  rewrite check_existing_summary_spec, Hfile.
  rewrite process_failed_scan_classify, Hnone.
  unfold bind at 1, input. rewrite Hstdin, Hyes. reflexivity.
Qed.

End Reuse.

(** C4: with an artifact without failed chunks where the probe looks and a
    user who accepts, [process_video] returns the loaded artifact as it is;
    the world changes by the one line read from the terminal and nothing
    else (no file written, no media opened or decoded, no remote call, no
    wait).  A second run in the resulting world returns the same artifact
    again, and so does [resume_failed_processing] on that artifact. *)
Theorem reuse_run_returns_loaded_artifact (self : VideoSummarizer) (video_path : string)
    (output_path : option string) (w : World) (art : VideoSummary)
    (answer again : string) (rest : list string) :
  w_files w !! summary_filename video_path = Some (Json art) ->
  classify_failed art = [] ->
  w_stdin w = answer :: again :: rest ->
  accepts answer = true ->
  accepts again = true ->
  let w1 := log EvInput (with_stdin (again :: rest) w) in
  let w2 := log EvInput (with_stdin rest w1) in
  process_video self video_path output_path false w =
    (Returned (art, summary_filename video_path), w1) /\
  process_video self video_path output_path false w1 =
    (Returned (art, summary_filename video_path), w2) /\
  w_files w2 = w_files w /\ w_media w2 = w_media w /\
  w_calls w2 = w_calls w /\ w_now w2 = w_now w /\
  w_trace w2 = w_trace w ++ [EvInput; EvInput] /\
  resume_failed_processing self video_path (summary_filename video_path) w =
    (Returned (art, summary_filename video_path), w).
Proof.
  intros Hfile Hnone Hstdin Hyes Hagain w1 w2.
  split; [now apply (reuse_step self video_path output_path w art answer (again :: rest))|].
  split.
  { apply (reuse_step self video_path output_path w1 art again rest);
      [exact Hfile | exact Hnone | reflexivity | exact Hagain]. }
  repeat (split; [reflexivity|]).
  split; [simpl; now rewrite <- app_assoc|].
  now apply resume_run_none.
Qed.

(** A complete artifact of two chunks and the answers ["Y "] and [""]. *)
Lemma reuse_run_returns_loaded_artifact_witness :
  exists w1 w2,
    process_video init "videos/talk.mp4" None false reuse_world =
      (Returned (complete_artifact, "talk_summary.json"), w1) /\
    process_video init "videos/talk.mp4" None false w1 =
      (Returned (complete_artifact, "talk_summary.json"), w2) /\
    w_files w2 = w_files reuse_world /\
    w_calls w2 = 0 /\
    w_trace w2 = [EvInput; EvInput].
Proof.
  destruct (reuse_run_returns_loaded_artifact init "videos/talk.mp4" None reuse_world
              complete_artifact "Y " "" [])
    as [H1 [H2 [Hfiles [_ [Hcalls [_ [Htrace _]]]]]]].
  - reflexivity.
  - reflexivity.
  - reflexivity.
  - reflexivity.
  - reflexivity.
  - eexists _, _. split; [exact H1|]. split; [exact H2|].
    split; [exact Hfiles|]. split; [exact Hcalls | exact Htrace].
Defined.

(** ** The stored length of a stored text *)

(** C10: whenever a full run returns an artifact, every entry of it stores
    with its text the length of that text; whenever a resume run returns an
    artifact, every entry of it either is the loaded entry, untouched, or
    stores the length of its text, so the whole artifact has the property
    when the loaded one had; and each single update of an entry sets text
    and length together. *)
Theorem summary_length_matches_summary :
  (forall self video_path output_path w s out w',
     process_video self video_path output_path true w = (Returned (s, out), w') ->
     Forall length_consistent (vs_chunks s)) /\
  (forall self video_path existing_summary_path w art s out w',
     w_files w !! existing_summary_path = Some (Json art) ->
     resume_failed_processing self video_path existing_summary_path w =
       (Returned (s, out), w') ->
     (forall i c, vs_chunks s !! i = Some c ->
                  vs_chunks art !! i = Some c \/ length_consistent c) /\
     (Forall length_consistent (vs_chunks art) -> Forall length_consistent (vs_chunks s))) /\
  (forall number summary chunks,
     Forall length_consistent chunks ->
     Forall length_consistent (update_existing number summary chunks)) /\
  (forall summary c, length_consistent (set_summary summary c)).
Proof.
  split; [|split; [|split]].
  - intros self video_path output_path w s out w' Hrun.
    destruct (full_run_inv self video_path output_path w w' s out Hrun) as [entries ->].
    apply chunk_data_consistent.
  - intros self video_path existing_summary_path w art s out w' Hfile Hrun.
    destruct (resume_run_inv self video_path existing_summary_path w w' art s out
                Hfile Hrun) as [Htouched _].
    split.
    + intros i c Hc. eapply touched_only_entry; eauto.
    + eapply touched_only_consistent; eauto.
  - intros number summary chunks.
    apply (touched_only_consistent [number]), update_existing_touched. left.
  - reflexivity.
Qed.

(** The resume example's world: the full run and the resume run both
    return, with consistent entries. *)
Lemma summary_length_matches_summary_witness :
  (exists s out w',
     process_video init "talk.mp4" None true resume_world = (Returned (s, out), w') /\
     Forall length_consistent (vs_chunks s)) /\
  (exists s out w',
     resume_failed_processing init "talk.mp4" "talk_summary.json" resume_world =
       (Returned (s, out), w') /\
     Forall length_consistent (vs_chunks s)).
Proof.
  destruct summary_length_matches_summary as [Hfresh [Hresume _]].
  split.
  - eexists _, _, _. split; [vm_compute; reflexivity|].
    eapply (Hfresh init "talk.mp4" None resume_world). vm_compute. reflexivity.
  - eexists _, _, _. split; [vm_compute; reflexivity|].
    eapply (Hresume init "talk.mp4" "talk_summary.json" resume_world partial_artifact);
      [reflexivity | vm_compute; reflexivity |].
    unfold partial_artifact. simpl. repeat constructor.
Defined.

(** * Further properties of the code *)

(** ** The artifact store *)



(** X2: [load_existing_summary] never raises and changes nothing: whatever
    keeps it from reading an artifact, it answers [None].
    [check_existing_summary] absorbs less: on a file under the probed name
    that is not UTF-8 it raises, where the loader answers [None]; on every
    other file, and without one, it answers with what the loader reads
    there, paired with the name. *)
Theorem probe_raises_where_loader_absorbs (summary_path video_path : string) (w : World) :
  (exists found,
     load_existing_summary summary_path w = (Returned found, w) /\
     (found = None <-> forall s, w_files w !! summary_path <> Some (Json s))) /\
  (w_files w !! summary_filename video_path = Some NotUtf8 ->
   load_existing_summary (summary_filename video_path) w = (Returned None, w) /\
   check_existing_summary video_path w =
     (Raised (load_error_text UnicodeDecodeError (summary_filename video_path)), w)) /\
  (w_files w !! summary_filename video_path <> Some NotUtf8 ->
   exists probed,
     load_existing_summary (summary_filename video_path) w = (Returned probed, w) /\
     check_existing_summary video_path w =
       (Returned (option_map (fun s => (s, summary_filename video_path)) probed), w)).
Proof.
  split; [|split].
  - eexists. split; [apply load_existing_summary_spec|].
    destruct (w_files w !! summary_path) as [[s| |]|]; split; intros H;
      try discriminate; try reflexivity; try (intros s' Hs'; discriminate).
    exfalso. exact (H s eq_refl).
  - intros Hfile. rewrite load_existing_summary_spec, check_existing_summary_spec, Hfile.
    split; reflexivity.
  - intros Hfile. eexists. split; [apply load_existing_summary_spec|].
    rewrite check_existing_summary_spec.
    destruct (w_files w !! summary_filename video_path) as [[s| |]|]; try reflexivity.
    contradiction.
Qed.

(** ** The modes of [process_video] *)

(** X3: without a file under the probed name, or with a text there that is
    not JSON, [process_video] asks nothing of the user and does what a
    forced full run does. *)
Theorem unusable_artifact_never_blocks (self : VideoSummarizer) (video_path : string)
    (output_path : option string) (w : World) :
  w_files w !! summary_filename video_path = None \/
  w_files w !! summary_filename video_path = Some Garbage ->
  process_video self video_path output_path false w =
  process_video self video_path output_path true w.
Proof.
  intros H. unfold process_video, bind at 1 3.
  unfold bind at 1. rewrite check_existing_summary_spec.
  destruct H as [-> | ->]; reflexivity.
Qed.

Lemma unusable_artifact_never_blocks_witness :
  process_video init "talk.mp4" None false garbage_world =
  process_video init "talk.mp4" None true garbage_world /\
  w_stdin garbage_world = [].
Proof.
  split; [|reflexivity].
  apply unusable_artifact_never_blocks. right. reflexivity.
Defined.

(** X4: with a parseable artifact under the probed name, [process_video]
    reads one line from the terminal.  At end of input it raises.  On a yes
    it returns the artifact as it is when no chunk is failed, and otherwise
    does what [resume_failed_processing] does on the probed file.  On any
    other answer it does what a forced full run does. *)
Theorem process_video_follows_the_answer (self : VideoSummarizer) (video_path : string)
    (output_path : option string) (w : World) (art : VideoSummary) :
  w_files w !! summary_filename video_path = Some (Json art) ->
  process_video self video_path output_path false w =
  match w_stdin w with
  | [] => (Raised "EOF when reading a line", log EvInput w)
  | answer :: rest =>
      let w1 := log EvInput (with_stdin rest w) in
      if accepts answer
      then match classify_failed art with
           | [] => (Returned (art, summary_filename video_path), w1)
           | _ :: _ =>
               resume_failed_processing self video_path (summary_filename video_path) w1
           end
      else process_video self video_path output_path true w1
  end.
Proof.
  intros Hfile. unfold process_video, bind at 1. unfold bind at 1.
  rewrite check_existing_summary_spec, Hfile.
  rewrite process_failed_scan_classify.
  destruct (classify_failed art) as [|n failed].
  - unfold bind at 1, input. destruct (w_stdin w) as [|answer rest]; [reflexivity|].
    now destruct (accepts answer).
  - unfold bind at 1, input. destruct (w_stdin w) as [|answer rest]; [reflexivity|].
    destruct (accepts answer); [|reflexivity].
    unfold bind, ret.
    now destruct (resume_failed_processing _ _ _ _) as [[r|e] w'].
Qed.

Lemma process_video_follows_the_answer_witness :
  process_video init "talk.mp4" None false
    (with_stdin ["no"] (with_file "talk_summary.json" (Json partial_artifact)
                          (scripted_world "talk.mp4" 150 rate_limited))) =
  process_video init "talk.mp4" None true
    (log EvInput
       (with_stdin [] (with_stdin ["no"]
                         (with_file "talk_summary.json" (Json partial_artifact)
                            (scripted_world "talk.mp4" 150 rate_limited))))).
Proof.
  apply (process_video_follows_the_answer init "talk.mp4" None
           (with_stdin ["no"] (with_file "talk_summary.json" (Json partial_artifact)
                                 (scripted_world "talk.mp4" 150 rate_limited)))
           partial_artifact).
  reflexivity.
Defined.

(** X22: a file under the probed name that is not UTF-8 stops an unforced
    run before it does anything: the error of the probe goes through
    [process_video] to the caller, although the loader would read the file
    as absent. *)
Theorem binary_artifact_blocks_unforced_run (self : VideoSummarizer) (video_path : string)
    (output_path : option string) (w : World) :
  w_files w !! summary_filename video_path = Some NotUtf8 ->
  process_video self video_path output_path false w =
    (Raised (load_error_text UnicodeDecodeError (summary_filename video_path)), w) /\
  load_existing_summary (summary_filename video_path) w = (Returned None, w).
Proof.
  intros Hfile. split.
  - unfold process_video, bind at 1. unfold bind at 1.
    now rewrite check_existing_summary_spec, Hfile.
  - now rewrite load_existing_summary_spec, Hfile.
Qed.

Lemma binary_artifact_blocks_unforced_run_witness :
  (exists msg,
     process_video init "talk.mp4" None false binary_world = (Raised msg, binary_world)) /\
  exists s w',
    process_video init "talk.mp4" None true binary_world =
      (Returned (s, "output/talk_summary.json"), w').
Proof.
  split.
  - eexists.
    apply (binary_artifact_blocks_unforced_run init "talk.mp4" None binary_world).
    reflexivity.
  - eexists _, _. vm_compute. reflexivity.
Defined.

(** ** Runs without a usable video *)

Section NoVideo.

Lemma ingest_video_unavailable (video_path : string) (w : World) :
  (forall v, w_media w !! video_path <> Some (Playable v)) ->
  exists msg,
    ingest_video video_path w =
    (Raised msg,
     match w_media w !! video_path with
     | None => w
     | Some _ => log (EvIngest video_path) w
     end) /\
    (w_media w !! video_path = None ->
     msg = ("Video file not found: " ++ video_path)%string).
Proof.
  intros H. unfold ingest_video.
  destruct (w_media w !! video_path) as [[v|msg]|] eqn:E.
  - exfalso. exact (H v eq_refl).
  - eexists. split; [reflexivity | discriminate].
  - eexists. split; [reflexivity | reflexivity].
Qed.

End NoVideo.

(** X5: when the video is missing, or is a file that does not open, a full
    run raises before anything else happens: no remote call, no wait, no
    file written.  For a missing file the message is
    ["Video file not found: "] followed by the path, and the world is
    untouched. *)
Theorem unavailable_video_aborts_full_run (self : VideoSummarizer) (video_path : string)
    (output_path : option string) (w : World) :
  (forall v, w_media w !! video_path <> Some (Playable v)) ->
  exists msg w',
    process_video self video_path output_path true w = (Raised msg, w') /\
    w_files w' = w_files w /\
    w_calls w' = w_calls w /\
    w_now w' = w_now w /\
    summarize_calls (w_trace w') = summarize_calls (w_trace w) /\
    (w_media w !! video_path = None ->
     msg = ("Video file not found: " ++ video_path)%string /\ w' = w).
Proof.
  intros H.
  destruct (ingest_video_unavailable video_path w H) as [msg [Hrun Hmsg]].
  unfold process_video, bind at 1, ret at 1, full_run, bind at 1.
  rewrite Hrun. eexists _, _. split; [reflexivity|].
  destruct (w_media w !! video_path) as [m|].
  - repeat (split; [reflexivity|]). split; [|discriminate].
    simpl. rewrite summarize_calls_app. apply app_nil_r.
  - repeat (split; [reflexivity|]). intros _. split; [now apply Hmsg | reflexivity].
Qed.

Lemma unavailable_video_aborts_full_run_witness :
  process_video init "other.mp4" None true (scripted_world "talk.mp4" 30 rate_limited) =
  (Raised "Video file not found: other.mp4", scripted_world "talk.mp4" 30 rate_limited).
Proof.
  destruct (unavailable_video_aborts_full_run init "other.mp4" None
              (scripted_world "talk.mp4" 30 rate_limited))
    as [msg [w' [Hrun [_ [_ [_ [_ Hmissing]]]]]]].
  - intros v. vm_compute. discriminate.
  - destruct Hmissing as [-> ->]; [reflexivity | exact Hrun].
Defined.

(** X6: when the artifact has failed chunks but the video is missing or
    does not open, [resume_failed_processing] raises and leaves the artifact
    and every other file as they were; it makes no remote call and does not
    wait. *)
Theorem resume_without_video_keeps_artifact (self : VideoSummarizer)
    (video_path existing_summary_path : string) (w : World) (art : VideoSummary) :
  w_files w !! existing_summary_path = Some (Json art) ->
  classify_failed art <> [] ->
  (forall v, w_media w !! video_path <> Some (Playable v)) ->
  exists msg w',
    resume_failed_processing self video_path existing_summary_path w = (Raised msg, w') /\
    w_files w' = w_files w /\
    w_calls w' = w_calls w /\
    w_now w' = w_now w /\
    (w_media w !! video_path = None ->
     msg = ("Video file not found: " ++ video_path)%string /\ w' = w).
Proof.
  intros Hfile Hfailed H.
  destruct (ingest_video_unavailable video_path w H) as [msg [Hrun Hmsg]].
  unfold resume_failed_processing, bind at 1. rewrite (load_json_found _ _ _ Hfile).
  rewrite resume_failed_scan_classify.
  destruct (classify_failed art) as [|n failed]; [contradiction|].
  unfold bind at 1. rewrite Hrun. eexists _, _. split; [reflexivity|].
  destruct (w_media w !! video_path) as [m|].
  - repeat (split; [reflexivity|]). discriminate.
  - repeat (split; [reflexivity|]). intros _. split; [now apply Hmsg | reflexivity].
Qed.

Lemma resume_without_video_keeps_artifact_witness :
  exists w',
    resume_failed_processing init "other.mp4" "talk_summary.json" resume_world =
    (Raised "Video file not found: other.mp4", w') /\
    w_files w' !! "talk_summary.json" = Some (Json partial_artifact).
Proof.
  destruct (resume_without_video_keeps_artifact init "other.mp4" "talk_summary.json"
              resume_world partial_artifact)
    as [msg [w' [Hrun [Hfiles [_ [_ Hmissing]]]]]].
  - reflexivity.
  - vm_compute. discriminate.
  - intros v. vm_compute. discriminate.
  - exists w'. destruct Hmissing as [-> _]; [reflexivity|].
    split; [exact Hrun|]. rewrite Hfiles. reflexivity.
Defined.

(** X20: when the video opens but the decoder fails at the start of one of
    its chunks, segmenting raises, outside every handler: a full run and a
    resume run with failed chunks both raise what the decoder raised at a
    chunk start, before any chunk is summarized; no remote call is made,
    nothing waits, and no file is written or changed. *)
Theorem undecodable_chunk_start_aborts_run (self : VideoSummarizer)
    (video_path existing_summary_path : string) (output_path : option string)
    (w : World) (art : VideoSummary) (video : Video) (i : nat) (e : string) :
  w_media w !! video_path = Some (Playable video) ->
  (0 < chunk_duration self)%Q ->
  (Z.of_nat i < chunk_count self (v_duration video))%Z ->
  v_get_frame video (inject_Z (Z.of_nat i) * chunk_duration self + 0)%Q = inr e ->
  (exists msg w',
     process_video self video_path output_path true w = (Raised msg, w') /\
     (exists i' : nat,
        (Z.of_nat i' < chunk_count self (v_duration video))%Z /\
        v_get_frame video (inject_Z (Z.of_nat i') * chunk_duration self + 0)%Q = inr msg) /\
     w_files w' = w_files w /\
     w_dirs w' = w_dirs w /\
     w_calls w' = w_calls w /\
     sleeps (w_trace w') = sleeps (w_trace w) /\
     summarize_calls (w_trace w') = summarize_calls (w_trace w)) /\
  (w_files w !! existing_summary_path = Some (Json art) ->
   classify_failed art <> [] ->
   exists msg w',
     resume_failed_processing self video_path existing_summary_path w = (Raised msg, w') /\
     w_files w' = w_files w /\
     w_calls w' = w_calls w /\
     sleeps (w_trace w') = sleeps (w_trace w) /\
     summarize_calls (w_trace w') = summarize_calls (w_trace w)).
Proof.
  intros Hmedia Hpos Hi Hfail.
  assert (Hquiet : forall evs,
             Forall io_event evs ->
             sleeps (w_trace (evolve 0 0 evs (log (EvIngest video_path) w))) =
               sleeps (w_trace w) /\
             summarize_calls (w_trace (evolve 0 0 evs (log (EvIngest video_path) w))) =
               summarize_calls (w_trace w)).
  { intros evs Hio. simpl.
    rewrite !sleeps_app, !summarize_calls_app.
    rewrite (Forall_io_sleeps evs Hio), (Forall_io_summarize_calls evs Hio).
    simpl. now rewrite !app_nil_r. }
  split.
  - unfold process_video, bind at 1, ret at 1, full_run, bind at 1, ingest_video.
    rewrite Hmedia. unfold bind at 1.
    match goal with
    | |- context [segment_video self video ?info ?w0] =>
        destruct (segment_video_fails self video info w0 i e Hpos eq_refl Hi Hfail)
          as [msg [evs [Hrun [Hio Hwhere]]]]
    end.
    rewrite Hrun. exists msg. eexists. split; [reflexivity|].
    split; [exact Hwhere|].
    split; [reflexivity|]. split; [reflexivity|].
    split; [simpl; lia|]. now apply Hquiet.
  - intros Hfile Hfailed.
    unfold resume_failed_processing, bind at 1. rewrite (load_json_found _ _ _ Hfile).
    rewrite resume_failed_scan_classify.
    destruct (classify_failed art) as [|n failed]; [contradiction|].
    unfold bind at 1, ingest_video. rewrite Hmedia. unfold bind at 1.
    match goal with
    | |- context [segment_video self video ?info ?w0] =>
        destruct (segment_video_fails self video info w0 i e Hpos eq_refl Hi Hfail)
          as [msg [evs [Hrun [Hio Hwhere]]]]
    end.
    rewrite Hrun. exists msg. eexists. split; [reflexivity|].
    split; [reflexivity|]. split; [simpl; lia|]. now apply Hquiet.
Qed.

(** A video of 65 seconds that cannot be read from the 60th second on: the
    start of its third chunk. *)
Lemma undecodable_chunk_start_aborts_run_witness :
  (exists w',
     process_video init "talk.mp4" None true truncated_world =
       (Raised "failed to read the frame", w') /\
     w_files w' = w_files truncated_world /\
     w_calls w' = 0) /\
  (exists w',
     resume_failed_processing init "talk.mp4" "talk_summary.json" truncated_world =
       (Raised "failed to read the frame", w') /\
     w_files w' !! "talk_summary.json" = Some (Json partial_artifact)).
Proof.
  destruct (undecodable_chunk_start_aborts_run init "talk.mp4" "talk_summary.json" None
              truncated_world partial_artifact truncated_video 2 "failed to read the frame")
    as [[msg [w' [Hrun [[i' [_ Hwhere]] [Hfiles [_ [Hcalls _]]]]]]] Hresume].
  - reflexivity.
  - reflexivity.
  - reflexivity.
  - reflexivity.
  - assert (Hmsg : forall (j : nat) (m : string),
               v_get_frame truncated_video (inject_Z (Z.of_nat j) * 30 + 0)%Q = inr m ->
               m = "failed to read the frame").
    { intros j m. simpl. destruct (Qle_bool _ _); intros H; inversion H. reflexivity. }
    split.
    + exists w'. rewrite <- (Hmsg i' msg Hwhere). split; [exact Hrun|].
      split; [exact Hfiles | exact Hcalls].
    + destruct Hresume as [msg2 [w2 [Hrun2 [Hfiles2 _]]]]; [reflexivity | discriminate |].
      exists w2. split.
      * assert (E : fst (resume_failed_processing init "talk.mp4" "talk_summary.json"
                           truncated_world) = Raised "failed to read the frame")
          by (vm_compute; reflexivity).
        rewrite Hrun2 in E. simpl in E. injection E as ->. exact Hrun2.
      * rewrite Hfiles2. reflexivity.
Defined.

(** ** Sampling and the attempt, by cases *)

(** X7: with a decoder that answers, the sampler takes three frames, at the
    offsets [0], half the duration and a tenth of a second before the end,
    from a chunk longer than a tenth of a second; one frame, at [0], from a
    shorter chunk of positive duration; and none from a chunk of duration
    zero or less.  The frames come back in that order. *)
Theorem sampler_frames_by_duration (chunk : Clip) (w : World) :
  (forall t, exists f, v_get_frame (clip_source chunk) t = inl f) ->
  exists frames offsets,
    extract_frames_and_audio chunk w =
      (Returned frames, evolve 0 0 (map (frame_event chunk) offsets) w) /\
    map inl frames = map (decode_at chunk) offsets /\
    ((1 # 10 < clip_duration chunk)%Q ->
     offsets = [0%Q; (clip_duration chunk / 2)%Q; (clip_duration chunk - (1 # 10))%Q]) /\
    ((0 < clip_duration chunk)%Q -> (clip_duration chunk <= 1 # 10)%Q -> offsets = [0%Q]) /\
    ((clip_duration chunk <= 0)%Q -> offsets = []).
Proof.
  intros Hdec.
  set (d := clip_duration chunk).
  destruct (sample_loop_ok chunk d (frame_times d) [] w) as [frames [Hrun Hframes]].
  { intros t _. apply Hdec. }
  exists frames, (admitted d (frame_times d)).
  split; [exact Hrun|]. split; [exact Hframes|]. unfold frame_times.
  split; [|split].
  - intros Hlong.
    assert (H0 : Qltb 0 d = true) by (apply Qltb_lt; lra).
    assert (H1 : Qltb (d / 2) d = true).
    { apply Qltb_lt.
      assert (E : (d / 2 == d * (1 # 2))%Q) by reflexivity.
      rewrite E. lra. }
    assert (H2 : Qltb (d - (1 # 10)) d = true) by (apply Qltb_lt; lra).
    apply Qltb_lt in Hlong. rewrite Hlong, !admitted_cons, H0, H1, H2. reflexivity.
  - intros Hpos Hshort.
    apply Qltb_ge in Hshort. apply Qltb_lt in Hpos.
    rewrite Hshort, admitted_cons, Hpos. reflexivity.
  - intros Hnone.
    assert (Hshort : Qltb (1 # 10) d = false) by (apply Qltb_ge; lra).
    apply Qltb_ge in Hnone.
    rewrite Hshort, admitted_cons, Hnone. reflexivity.
Qed.

Lemma sampler_frames_by_duration_witness :
  exists frames,
    extract_frames_and_audio (fst (first_chunk 65))
      (scripted_world "talk.mp4" 65 rate_limited) =
    (Returned frames,
     evolve 0 0 [EvGetFrame (0 + 0)%Q; EvGetFrame (0 + 30 / 2)%Q;
                 EvGetFrame (0 + (30 - (1 # 10)))%Q]
       (scripted_world "talk.mp4" 65 rate_limited)) /\
    length frames = 3.
Proof.
  destruct (sampler_frames_by_duration (fst (first_chunk 65))
              (scripted_world "talk.mp4" 65 rate_limited))
    as [frames [offsets [Hrun [Hframes [Hlong _]]]]].
  - intros t. exists 0. reflexivity.
  - exists frames. rewrite Hlong in Hrun, Hframes by reflexivity.
    split; [exact Hrun|].
    apply (f_equal (@length _)) in Hframes. rewrite !length_map in Hframes. exact Hframes.
Defined.

(** X8: when the decoder fails at one of the sampled offsets,
    [summarize_chunk] makes no remote call: it returns the failure text for
    an error the decoder raised, which the classification counts as failed. *)
Theorem decoder_failure_skips_remote_call (self : VideoSummarizer) (chunk : Clip)
    (chunk_info : ChunkInfo) (w : World) (t : Q) (e : string) :
  t ∈ admitted (clip_duration chunk) (frame_times (clip_duration chunk)) ->
  decode_at chunk t = inr e ->
  exists e' evs,
    summarize_chunk self chunk chunk_info w =
      (Returned ("Error processing chunk: " ++ e')%string,
       evolve 0 0 (EvSummarize (ci_chunk_number chunk_info) :: evs) w) /\
    remote_calls evs = [] /\
    (exists t', t' ∈ admitted (clip_duration chunk) (frame_times (clip_duration chunk)) /\
                decode_at chunk t' = inr e') /\
    PyStr.contains "Error processing chunk" ("Error processing chunk: " ++ e')%string = true.
Proof.
  intros Hin Hfail.
  rewrite summarize_chunk_unfold, log_evolve.
  unfold summarize_attempt, bind at 1, extract_frames_and_audio.
  destruct (sample_loop_fails chunk (clip_duration chunk)
              (frame_times (clip_duration chunk)) []
              (evolve 0 0 [EvSummarize (ci_chunk_number chunk_info)] w) t e Hin Hfail)
    as [e' [evs [Hrun [Hcalls Hwhere]]]].
  rewrite Hrun, evolve_evolve. exists e', evs.
  split; [reflexivity|]. split; [exact Hcalls|]. split; [exact Hwhere|].
  apply contains_marker_error_text.
Qed.

Lemma decoder_failure_skips_remote_call_witness :
  exists e' evs,
    summarize_chunk init
      {| clip_source := {| v_duration := 30; v_fps := 25; v_size := (640, 480)%Z;
                           v_get_frame := fun _ => inr "frame not readable" |};
         clip_start := 0; clip_end := 30 |}
      (snd (first_chunk 30)) (scripted_world "talk.mp4" 30 rate_limited) =
    (Returned ("Error processing chunk: " ++ e')%string,
     evolve 0 0 (EvSummarize 1 :: evs) (scripted_world "talk.mp4" 30 rate_limited)) /\
    remote_calls evs = [].
Proof.
  destruct (decoder_failure_skips_remote_call init
              {| clip_source := {| v_duration := 30; v_fps := 25; v_size := (640, 480)%Z;
                                   v_get_frame := fun _ => inr "frame not readable" |};
                 clip_start := 0; clip_end := 30 |}
              (snd (first_chunk 30)) (scripted_world "talk.mp4" 30 rate_limited)
              0%Q "frame not readable")
    as [e' [evs [Hrun [Hcalls _]]]].
  - vm_compute. left.
  - reflexivity.
  - exists e', evs. split; [exact Hrun | exact Hcalls].
Defined.

(** X9: for a cap of at least three characters, the text kept from a
    response is never longer than the cap, starts with the response's first
    [cap - 3] characters, and capping it again changes nothing. *)
Theorem cap_summary_bounded_and_idempotent (self : VideoSummarizer) (text : string) :
  (3 <= max_summary_chars self)%Z ->
  (Z.of_nat (PyStr.len (cap_summary self text)) <= max_summary_chars self)%Z /\
  cap_summary self (cap_summary self text) = cap_summary self text /\
  PyStr.take (Z.to_nat (max_summary_chars self - 3)) (cap_summary self text) =
  PyStr.take (Z.to_nat (max_summary_chars self - 3)) text.
Proof.
  intros H3. split; [now apply cap_summary_length|]. split.
  - apply cap_summary_short. now apply cap_summary_length.
  - destruct (Z.le_gt_cases (Z.of_nat (PyStr.len text)) (max_summary_chars self)) as [Hle|Hgt].
    + now rewrite cap_summary_short.
    + rewrite cap_summary_long by lia.
      rewrite <- (take_len (Z.to_nat (max_summary_chars self - 3)) text) at 1 by lia.
      apply take_app_exact.
Qed.

Lemma cap_summary_bounded_and_idempotent_witness :
  PyStr.len (cap_summary init (repeat_char "a" 1600)) <= 1500 /\
  cap_summary init (cap_summary init (repeat_char "a" 1600)) =
  cap_summary init (repeat_char "a" 1600).
Proof.
  destruct (cap_summary_bounded_and_idempotent init (repeat_char "a" 1600)) as [Hlen [Hidem _]].
  - simpl. lia.
  - split; [|exact Hidem]. apply Nat2Z.inj_le. exact Hlen.
Defined.

(** ** The full run, chunk by chunk *)

Section Pacing.


End Pacing.









(** ** The resume run, entry by entry *)

Section ResumeFacts.

Lemma unmarked_not_failed (art : VideoSummary) (i : nat) (c : ChunkData) :
  NoDup (map cd_chunk_number (vs_chunks art)) ->
  vs_chunks art !! i = Some c ->
  PyStr.contains error_marker (cd_summary c) = false ->
  cd_chunk_number c ∉ classify_failed art.
Proof.
  intros Hnd Hi Hclean Hin.
  apply elem_of_classify_failed in Hin as [c' [Hc' [Hnum Hmark]]].
  apply list_elem_of_lookup in Hc' as [j Hj].
  assert (Hij : i = j).
  { apply (NoDup_lookup _ _ _ (cd_chunk_number c) Hnd).
    - rewrite list_lookup_fmap, Hi. reflexivity.
    - rewrite list_lookup_fmap, Hj. simpl. now rewrite Hnum. }
  subst j. rewrite Hi in Hj. inversion Hj; subst c'. congruence.
Qed.

End ResumeFacts.

(** X13: on a video that opens and whose chunk starts decode, a resume run
    that has failed chunks to redo returns and writes one file, the
    artifact it returns, over the path it loaded from, so that loading the
    path (or probing, when it is the probed name) gives the updated
    artifact.  It waits three seconds before each chunk it redoes and
    nowhere else, and makes at most one remote call per redone chunk. *)
Theorem resume_saves_over_the_artifact (self : VideoSummarizer)
    (video_path existing_summary_path : string) (w : World)
    (art : VideoSummary) (video : Video) :
  w_files w !! existing_summary_path = Some (Json art) ->
  w_media w !! video_path = Some (Playable video) ->
  (0 < chunk_duration self)%Q ->
  starts_decode self video ->
  classify_failed art <> [] ->
  exists art' w' evs,
    resume_failed_processing self video_path existing_summary_path w =
      (Returned (art', existing_summary_path), w') /\
    w_files w' = <[existing_summary_path := Json art']> (w_files w) /\
    load_existing_summary existing_summary_path w' = (Returned (Some art'), w') /\
    (existing_summary_path = summary_filename video_path ->
     check_existing_summary video_path w' =
       (Returned (Some (art', existing_summary_path)), w')) /\
    w_trace w' = w_trace w ++ evs /\
    summarize_calls evs =
      filter (fun n => n ∈ classify_failed art)
             (seq 1 (Z.to_nat (chunk_count self (v_duration video)))) /\
    sleeps evs = map (fun _ => 3) (summarize_calls evs) /\
    w_calls w' <= w_calls w + length (summarize_calls evs).
Proof.
  intros Hfile Hmedia Hpos Hdec Hfailed.
  rewrite (resume_run_unfold self video_path existing_summary_path w art video
             Hfile Hmedia Hpos Hdec Hfailed).
  destruct (resume_loop_clock self (classify_failed art) (segments self video)
              (vs_chunks art)
              (evolve 0 0 (EvIngest video_path :: segment_events self video) w))
    as [existing' [k [secs [evs [Hrun [Hsleeps [Hsecs Hk]]]]]]].
  destruct (resume_loop_spec self (classify_failed art) (segments self video)
              (vs_chunks art)
              (evolve 0 0 (EvIngest video_path :: segment_events self video) w))
    as [existing2 [k2 [secs2 [evs2 [Hrun2 [Hcalls _]]]]]].
  rewrite Hrun in Hrun2. injection Hrun2 as _ _ _ Hevs.
  apply app_inv_head in Hevs. subst evs2.
  rewrite segments_numbers in Hcalls.
  rewrite Hrun.
  destruct (run_trace self video video_path existing_summary_path evs) as [Hsc [Hsl _]].
  eexists _, _,
    (EvIngest video_path :: segment_events self video ++ evs ++ [EvWrite existing_summary_path]).
  rewrite Hsc, Hsl.
  split; [reflexivity|].
  split; [reflexivity|].
  split.
  { rewrite load_existing_summary_spec. simpl. now rewrite lookup_insert_eq. }
  split.
  { intros Hpath. rewrite check_existing_summary_spec. simpl.
    rewrite <- Hpath. now rewrite lookup_insert_eq. }
  split; [simpl; now rewrite <- !app_assoc|].
  split; [exact Hcalls|].
  split; [exact Hsleeps|]. simpl. lia.
Qed.

Lemma resume_saves_over_the_artifact_witness :
  exists art' w',
    resume_failed_processing init "talk.mp4" "talk_summary.json" resume_world =
      (Returned (art', "talk_summary.json"), w') /\
    check_existing_summary "talk.mp4" w' = (Returned (Some (art', "talk_summary.json")), w') /\
    sleeps (w_trace w') = [3; 3].
Proof.
  destruct (resume_saves_over_the_artifact init "talk.mp4" "talk_summary.json"
              resume_world partial_artifact (plain_video 150))
    as [art' [w' [evs [Hrun [_ [_ [Hprobe [Htrace [Hcalls [Hsleeps _]]]]]]]]]].
  - reflexivity.
  - reflexivity.
  - reflexivity.
  - intros i _. exists 0. reflexivity.
  - vm_compute. discriminate.
  - exists art', w'. split; [exact Hrun|]. split; [now apply Hprobe|].
    rewrite Htrace. simpl. rewrite Hsleeps.
    assert (Hcalls' : summarize_calls evs = [2; 5]) by exact Hcalls.
    now rewrite Hcalls'.
Defined.

(** X14: a resume run that returns has not made things worse: every chunk
    number it leaves classified as failed was classified as failed before;
    when the chunk numbers of the artifact are distinct, every entry whose
    text had no marker is left as it was; every entry keeps its number,
    label, start, end and duration; the count of entries and
    [total_chunks] stay. *)
Theorem resume_keeps_good_chunks_good (self : VideoSummarizer)
    (video_path existing_summary_path : string) (w w' : World)
    (art art' : VideoSummary) (out : string) :
  w_files w !! existing_summary_path = Some (Json art) ->
  resume_failed_processing self video_path existing_summary_path w =
    (Returned (art', out), w') ->
  (forall n, n ∈ classify_failed art' -> n ∈ classify_failed art) /\
  (NoDup (map cd_chunk_number (vs_chunks art)) ->
   forall i c,
     vs_chunks art !! i = Some c ->
     PyStr.contains error_marker (cd_summary c) = false ->
     vs_chunks art' !! i = Some c) /\
  map (fun c => (cd_chunk_number c, cd_timestamp c, cd_start_time c, cd_end_time c,
                 cd_duration c)) (vs_chunks art') =
  map (fun c => (cd_chunk_number c, cd_timestamp c, cd_start_time c, cd_end_time c,
                 cd_duration c)) (vs_chunks art) /\
  vs_total_chunks art' = vs_total_chunks art /\
  vs_total_duration art' = vs_total_duration art /\
  vs_video_name art' = vs_video_name art /\
  out = existing_summary_path.
Proof.
  intros Hfile Hrun.
  destruct (resume_run_inv self video_path existing_summary_path w w' art art' out
              Hfile Hrun) as [Htouched [Hmeta Hout]].
  split; [|split; [|split]].
  - intros n Hn. apply elem_of_classify_failed in Hn as [c' [Hin [Hnum Hmark]]].
    apply list_elem_of_lookup in Hin as [i Hi].
    destruct (Forall2_lookup_r _ _ _ _ _ Htouched Hi) as [c [Hc [-> | [Hfailed [s ->]]]]].
    + apply elem_of_classify_failed. exists c. split; [|auto].
      eapply list_elem_of_lookup_2. exact Hc.
    + simpl in Hnum. now rewrite <- Hnum.
  - intros Hnd i c Hi Hclean.
    eapply touched_only_other; [exact Htouched | exact Hi |].
    now apply (unmarked_not_failed art i c).
  - now apply touched_only_fields with (numbers := classify_failed art).
  - rewrite Hmeta. repeat split. exact Hout.
Qed.

Lemma resume_keeps_good_chunks_good_witness :
  exists art' w',
    resume_failed_processing init "talk.mp4" "talk_summary.json" resume_world =
      (Returned (art', "talk_summary.json"), w') /\
    (forall n, n ∈ classify_failed art' -> n ∈ [2; 5]) /\
    map cd_chunk_number (vs_chunks art') = [1; 2; 3; 4; 5].
Proof.
  assert (Hex : exists art' w',
             resume_failed_processing init "talk.mp4" "talk_summary.json" resume_world =
             (Returned (art', "talk_summary.json"), w')).
  { eexists _, _. vm_compute. reflexivity. }
  destruct Hex as [art' [w' Hrun]].
  destruct (resume_keeps_good_chunks_good init "talk.mp4" "talk_summary.json"
              resume_world w' partial_artifact art' "talk_summary.json")
    as [Hfailed [_ [Hfields _]]].
  - reflexivity.
  - exact Hrun.
  - exists art', w'. split; [exact Hrun|]. split; [exact Hfailed|].
    apply (f_equal (map (fun x => fst (fst (fst (fst x)))))) in Hfields.
    rewrite !map_map in Hfields. exact Hfields.
Defined.

(** X15: when the decoder answers, every remote answer is a text free of
    the failure marker, the artifact's chunk numbers are distinct and its
    failed numbers are numbers of the video's chunks, one resume run clears
    every failure: nothing is classified as failed in the artifact it
    returns and saves. *)
Theorem resume_clears_every_failure (self : VideoSummarizer)
    (video_path existing_summary_path : string) (w : World)
    (art : VideoSummary) (video : Video) :
  w_files w !! existing_summary_path = Some (Json art) ->
  w_media w !! video_path = Some (Playable video) ->
  (0 < chunk_duration self)%Q ->
  (3 <= max_summary_chars self)%Z ->
  (forall t, exists f, v_get_frame video t = inl f) ->
  (forall k rq, exists text,
     w_model w k rq = Text text /\ PyStr.contains error_marker text = false) ->
  NoDup (map cd_chunk_number (vs_chunks art)) ->
  (forall n, n ∈ classify_failed art ->
             n ∈ seq 1 (Z.to_nat (chunk_count self (v_duration video)))) ->
  exists art' w',
    resume_failed_processing self video_path existing_summary_path w =
      (Returned (art', existing_summary_path), w') /\
    classify_failed art' = [] /\
    w_files w' !! existing_summary_path = Some (Json art').
Proof.
  intros Hfile Hmedia Hpos H3 Hdec Hclean Hnd Hcover.
  destruct (decide (classify_failed art = [])) as [Hnone|Hne].
  { exists art, w. split; [|split; [exact Hnone | exact Hfile]].
    now apply resume_run_none. }
  assert (Hstarts : starts_decode self video) by (intros i _; apply Hdec).
  rewrite (resume_run_unfold self video_path existing_summary_path w art video
             Hfile Hmedia Hpos Hstarts Hne).
  destruct (resume_loop_run self (classify_failed art) (w_model w)
              (fun s => PyStr.contains error_marker s = false) (segments self video))
    with (existing := vs_chunks art)
         (w := evolve 0 0 (EvIngest video_path :: segment_events self video) w)
    as [existing' [k [secs [evs [Hrun [_ [_ [_ [_ [Hnum Hentries]]]]]]]]]].
  { intros chunk chunk_info w0 s w1 Hin Hmodel Hs.
    pose proof (segments_source _ _ _ Hin) as Hsrc. simpl in Hsrc.
    destruct (summarize_chunk_answer self chunk chunk_info w0) as [rq [evs [Hans _]]].
    { rewrite Hsrc. exact Hdec. }
    rewrite Hans in Hs. injection Hs as <- _.
    rewrite Hmodel. destruct (Hclean (w_calls w0) rq) as [text [-> Htext]].
    now apply cap_summary_clean. }
  { reflexivity. }
  { exact Hnd. }
  rewrite Hrun. eexists _, _. split; [reflexivity|]. split.
  - unfold classify_failed at 1. simpl.
    rewrite filter_marked_none; [reflexivity|].
    apply Forall_lookup. intros j entry Hj.
    assert (Hlt : j < length (vs_chunks art)).
    { rewrite <- (length_map cd_chunk_number), <- Hnum, length_map.
      eapply lookup_lt_Some. exact Hj. }
    apply lookup_lt_is_Some in Hlt as [c Hc].
    destruct (Hentries j c Hc) as [Hyes Hno].
    destruct (decide (cd_chunk_number c ∈ classify_failed art)) as [Hf|Hf].
    + destruct Hyes as [s [Hs Hgood]]; [exact Hf | |].
      { rewrite segments_numbers. now apply Hcover. }
      rewrite Hs in Hj. inversion Hj; subst entry. exact Hgood.
    + rewrite Hno in Hj by tauto. inversion Hj; subst entry.
      destruct (PyStr.contains error_marker (cd_summary c)) eqn:E; [|reflexivity].
      exfalso. apply Hf. apply elem_of_classify_failed. exists c.
      split; [eapply list_elem_of_lookup_2; exact Hc | auto].
  - simpl. apply lookup_insert_eq.
Qed.

Lemma resume_clears_every_failure_witness :
  exists art' w',
    resume_failed_processing init "talk.mp4" "talk_summary.json" resume_world =
      (Returned (art', "talk_summary.json"), w') /\
    classify_failed art' = [].
Proof.
  destruct (resume_clears_every_failure init "talk.mp4" "talk_summary.json"
              resume_world partial_artifact (plain_video 150))
    as [art' [w' [Hrun [Hnone _]]]].
  - reflexivity.
  - reflexivity.
  - reflexivity.
  - simpl. lia.
  - intros t. exists 0. reflexivity.
  - intros k rq. eexists. split; reflexivity.
  - vm_compute. repeat constructor; intros H;
      repeat (apply elem_of_cons in H as [H|H]; [discriminate|]);
      now apply elem_of_nil in H.
  - intros n. vm_compute. intros H.
    repeat (apply elem_of_cons in H as [->|H]; [set_solver|]).
    now apply elem_of_nil in H.
  - exists art', w'. split; [exact Hrun | exact Hnone].
Defined.

(** ** The name of the artifact *)

(** X16: the artifact's name depends on the video's file name without its
    folder and without its extension.  For a name [stem.ext], in any folder
    or none, the probe looks for [stem_summary.json], a name without a
    folder, and a save without [output_path] writes
    [output/stem_summary.json]: videos that share a stem share one
    artifact. *)
Theorem artifact_name_ignores_folder_and_extension (dir stem ext : string)
    (s : VideoSummary) :
  has_char "/"%char stem = false ->
  has_char "/"%char ext = false ->
  has_char "."%char ext = false ->
  PyStr.any_other "."%char stem = true ->
  vs_video_name s = OsPath.basename (dir ++ "/" ++ stem ++ "." ++ ext)%string ->
  summary_filename (dir ++ "/" ++ stem ++ "." ++ ext)%string = (stem ++ "_summary.json")%string /\
  summary_filename (stem ++ "." ++ ext)%string = (stem ++ "_summary.json")%string /\
  has_char "/"%char (stem ++ "_summary.json")%string = false /\
  default_output_path s = ("output/" ++ stem ++ "_summary.json")%string.
Proof.
  intros Hstem Hext Hdot Hother Hname.
  assert (Hplain : has_char OsPath.sep (stem ++ "." ++ ext)%string = false).
  { unfold OsPath.sep. rewrite has_char_app, Hstem.
    change ("." ++ ext)%string with (String "."%char ext).
    simpl. exact Hext. }
  assert (H1 : summary_filename (dir ++ "/" ++ stem ++ "." ++ ext)%string =
               (stem ++ "_summary.json")%string).
  { unfold summary_filename. rewrite basename_app by exact Hplain.
    now rewrite splitext_plain. }
  split; [exact H1|]. split.
  { unfold summary_filename. rewrite basename_plain by exact Hplain.
    now rewrite splitext_plain. }
  split.
  { rewrite has_char_app. now rewrite Hstem. }
  rewrite (default_output_path_spec s _ Hname), H1. reflexivity.
Qed.

Lemma artifact_name_ignores_folder_and_extension_witness :
  summary_filename "videos/day1/talk.mp4" = "talk_summary.json" /\
  summary_filename "talk.mp4" = "talk_summary.json" /\
  default_output_path (stored_artifact []) = "output/talk_summary.json".
Proof.
  destruct (artifact_name_ignores_folder_and_extension "videos/day1" "talk" "mp4"
              (stored_artifact [])) as [H1 [H2 [_ H3]]]; try reflexivity.
  split; [exact H1 | split; [exact H2 | exact H3]].
Defined.

(** ** The answer at the prompt *)

Section Answer.

Lemma lower_char_space (a : ascii) : PyStr.is_space a = true -> PyStr.lower_char a = a.
Proof. destruct a as [[] [] [] [] [] [] [] []]; vm_compute; congruence. Qed.

Lemma lower_char_idem (a : ascii) :
  PyStr.lower_char (PyStr.lower_char a) = PyStr.lower_char a.
Proof. destruct a as [[] [] [] [] [] [] [] []]; reflexivity. Qed.

Lemma lower_app (a b : string) :
  PyStr.lower (a ++ b)%string = (PyStr.lower a ++ PyStr.lower b)%string.
Proof.
  induction a as [|x a IH]; [reflexivity|].
  rewrite append_cons. simpl. now rewrite IH.
Qed.

Lemma lower_idem (s : string) : PyStr.lower (PyStr.lower s) = PyStr.lower s.
Proof. induction s as [|x s IH]; simpl; [reflexivity | now rewrite lower_char_idem, IH]. Qed.

Lemma lower_all_space (pad : string) : all_space pad = true -> PyStr.lower pad = pad.
Proof.
  induction pad as [|x pad IH]; intros H; [reflexivity|].
  simpl in H. apply andb_true_iff in H as [Hx Hpad].
  simpl. now rewrite lower_char_space, IH.
Qed.

Lemma lstrip_all_space (pad s : string) :
  all_space pad = true -> PyStr.lstrip (pad ++ s)%string = PyStr.lstrip s.
Proof.
  induction pad as [|x pad IH]; intros H; [reflexivity|].
  simpl in H. apply andb_true_iff in H as [Hx Hpad].
  rewrite append_cons. simpl. rewrite Hx. now apply IH.
Qed.

Lemma lstrip_only_space (pad : string) :
  all_space pad = true -> PyStr.lstrip pad = EmptyString.
Proof.
  induction pad as [|x pad IH]; intros H; [reflexivity|].
  simpl in H. apply andb_true_iff in H as [Hx Hpad].
  simpl. rewrite Hx. now apply IH.
Qed.

Lemma rstrip_all_space (pad : string) : all_space pad = true -> PyStr.rstrip pad = EmptyString.
Proof.
  induction pad as [|x pad IH]; intros H; [reflexivity|].
  simpl in H. apply andb_true_iff in H as [Hx Hpad].
  simpl. now rewrite IH, Hx.
Qed.

Lemma rstrip_app_space (s pad : string) :
  all_space pad = true -> PyStr.rstrip (s ++ pad)%string = PyStr.rstrip s.
Proof.
  intros H. induction s as [|x s IH].
  - rewrite append_nil. now apply rstrip_all_space.
  - rewrite append_cons. simpl. now rewrite IH.
Qed.

Lemma strip_padded (pad1 s pad2 : string) :
  all_space pad1 = true -> all_space pad2 = true ->
  PyStr.strip (pad1 ++ s ++ pad2)%string = PyStr.strip s.
Proof.
  intros H1 H2. unfold PyStr.strip. rewrite lstrip_all_space by exact H1.
  induction s as [|x s IH].
  - rewrite append_nil. now rewrite lstrip_only_space.
  - rewrite append_cons. simpl. destruct (PyStr.is_space x); [exact IH|].
    change (String x (s ++ pad2)%string) with (String x s ++ pad2)%string.
    now apply rstrip_app_space.
Qed.

End Answer.

(** X17: the answer at either prompt is read without regard to case and to
    white space around it, and an empty or blank answer counts as a yes. *)
Theorem answer_ignores_case_and_padding (pad1 answer pad2 : string) :
  all_space pad1 = true ->
  all_space pad2 = true ->
  accepts (pad1 ++ answer ++ pad2)%string = accepts answer /\
  accepts (PyStr.lower answer) = accepts answer /\
  accepts pad1 = true.
Proof.
  intros H1 H2. unfold accepts. split; [|split].
  - rewrite !lower_app, (lower_all_space pad1 H1), (lower_all_space pad2 H2).
    now rewrite strip_padded.
  - now rewrite lower_idem.
  - rewrite (lower_all_space pad1 H1). unfold PyStr.strip.
    now rewrite (lstrip_only_space pad1 H1).
Qed.

Lemma answer_ignores_case_and_padding_witness :
  accepts "  YES " = accepts "YES" /\ accepts "YES" = true /\ accepts "  " = true.
Proof.
  destruct (answer_ignores_case_and_padding "  " "YES" " ") as [H1 [_ H3]];
    try reflexivity.
  split; [exact H1 | split; [reflexivity | exact H3]].
Defined.

(** ** The timestamp label *)

Section Label.

Lemma Qfloor_div_pos (t : Q) (k : positive) :
  Qfloor (t / inject_Z (Zpos k)) = (Qfloor t / Zpos k)%Z.
Proof.
  destruct t as [n d]. unfold Qdiv, Qinv, Qmult, inject_Z, Qfloor. simpl.
  rewrite Z.mul_1_r, Pos2Z.inj_mul. symmetry. apply Z.div_div; lia.
Qed.

Lemma Qfloor_sub_Z (t : Q) (k : Z) : Qfloor (t - inject_Z k) = (Qfloor t - k)%Z.
Proof.
  destruct t as [n d]. unfold Qminus, Qplus, Qopp, inject_Z, Qfloor. simpl.
  rewrite Z.mul_1_r, Pos.mul_1_r.
  replace (n + - k * Z.pos d)%Z with (n + (- k) * Z.pos d)%Z by lia.
  rewrite Z.div_add by lia. lia.
Qed.

Lemma py_int_Z (z : Z) : py_int (inject_Z z) = z.
Proof. unfold py_int. destruct (Qle_bool 0 (inject_Z z)); [apply Qfloor_Z | apply Qceiling_Z]. Qed.

(** [int(t // 60)] is the minutes of the whole seconds of [t]. *)
Lemma minutes_of (t : Q) : py_int (floordiv t 60) = (Qfloor t / 60)%Z.
Proof.
  unfold floordiv. rewrite py_int_Z.
  change 60%Q with (inject_Z (Zpos 60)). apply Qfloor_div_pos.
Qed.

(** [int(t % 60)] is the seconds left of the whole seconds of [t]. *)
Lemma seconds_of (t : Q) : py_int (pymod t 60) = (Qfloor t mod 60)%Z.
Proof.
  unfold pymod, floordiv. change 60%Q with (inject_Z 60) at 2.
  rewrite Qfloor_div_pos.
  set (q := (Qfloor t / 60)%Z).
  assert (E : (t - 60 * inject_Z q == t - inject_Z (60 * q))%Q).
  { rewrite inject_Z_mult. reflexivity. }
  assert (Hfloor : Qfloor (t - 60 * inject_Z q)%Q = (Qfloor t mod 60)%Z).
  { rewrite (Qfloor_comp _ _ E), Qfloor_sub_Z, Z.mod_eq by lia. reflexivity. }
  unfold py_int.
  assert (Hpos : Qle_bool 0 (t - 60 * inject_Z q)%Q = true).
  { apply Qle_bool_iff. rewrite E.
    assert (H1 : (inject_Z (60 * q) <= inject_Z (Qfloor t))%Q).
    { rewrite <- Zle_Qle. pose proof (Z.mul_div_le (Qfloor t) 60 ltac:(lia)) as H.
      fold q in H. exact H. }
    pose proof (Qfloor_le t) as H2. lra. }
  rewrite Hpos. exact Hfloor.
Qed.

Lemma fmt_02d_two_digits (z : Z) : (0 <= z < 100)%Z -> PyStr.len (PyStr.fmt_02d z) = 2.
Proof.
  intros Hz.
  assert (Hall : forallb (fun n => Nat.eqb (PyStr.len (PyStr.fmt_02d (Z.of_nat n))) 2)
                         (seq 0 100) = true) by (vm_compute; reflexivity).
  rewrite forallb_forall in Hall.
  specialize (Hall (Z.to_nat z)).
  rewrite Z2Nat.id in Hall by lia.
  apply Nat.eqb_eq, Hall, in_seq. lia.
Qed.

End Label.

(** X18: the label of a chunk shows the whole seconds of its start and of
    its end as minutes and seconds, the fraction of a second dropped and
    each number padded to two digits; for times under one hundred minutes it
    has exactly thirteen characters. *)
Theorem timestamp_label_shows_whole_seconds (start_time end_time : Q) :
  timestamp_label start_time end_time =
    (PyStr.fmt_02d (Qfloor start_time / 60) ++ ":" ++
     PyStr.fmt_02d (Qfloor start_time mod 60) ++ " - " ++
     PyStr.fmt_02d (Qfloor end_time / 60) ++ ":" ++
     PyStr.fmt_02d (Qfloor end_time mod 60))%string /\
  ((0 <= start_time)%Q -> (start_time < 6000)%Q ->
   (0 <= end_time)%Q -> (end_time < 6000)%Q ->
   PyStr.len (timestamp_label start_time end_time) = 13).
Proof.
  assert (Hlabel : timestamp_label start_time end_time =
    (PyStr.fmt_02d (Qfloor start_time / 60) ++ ":" ++
     PyStr.fmt_02d (Qfloor start_time mod 60) ++ " - " ++
     PyStr.fmt_02d (Qfloor end_time / 60) ++ ":" ++
     PyStr.fmt_02d (Qfloor end_time mod 60))%string).
  { unfold timestamp_label. now rewrite !minutes_of, !seconds_of. }
  split; [exact Hlabel|].
  intros Hs0 Hs1 He0 He1. rewrite Hlabel.
  assert (Hrange : forall t, (0 <= t)%Q -> (t < 6000)%Q -> (0 <= Qfloor t < 6000)%Z).
  { intros t H0 H1. split.
    - change 0%Z with (Qfloor 0). now apply Qfloor_resp_le.
    - rewrite Zlt_Qlt. apply Qle_lt_trans with t; [apply Qfloor_le | exact H1]. }
  pose proof (Hrange _ Hs0 Hs1) as Hs. pose proof (Hrange _ He0 He1) as He.
  assert (Hm : forall z, (0 <= z < 6000)%Z ->
                         (0 <= z / 60 < 100)%Z /\ (0 <= z mod 60 < 100)%Z).
  { intros z Hz. split.
    - split; [apply Z.div_pos; lia | apply Z.div_lt_upper_bound; lia].
    - pose proof (Z.mod_pos_bound z 60 ltac:(lia)). lia. }
  rewrite !len_app, !fmt_02d_two_digits
    by (first [ apply (proj1 (Hm _ Hs)) | apply (proj2 (Hm _ Hs))
              | apply (proj1 (Hm _ He)) | apply (proj2 (Hm _ He)) ]).
  reflexivity.
Qed.

(** ** The text shown for a chunk *)

Section Display.

Lemma replace_double_newline_len (n : nat) :
  forall s, PyStr.len s <= n -> PyStr.len (replace_double_newline s) <= PyStr.len s.
Proof.
  unfold PyStr.len. induction n as [|n IH]; intros s Hn.
  - destruct s; simpl in *; lia.
  - destruct s as [|a [|b rest]]; simpl in *; try lia.
    destruct (Ascii.eqb a "010"%char && Ascii.eqb b "010"%char); simpl.
    + specialize (IH rest). lia.
    + specialize (IH (String b rest)). simpl in IH. lia.
Qed.

Lemma lstrip_len (s : string) : PyStr.len (PyStr.lstrip s) <= PyStr.len s.
Proof.
  unfold PyStr.len. induction s as [|a s IH]; simpl; [lia|].
  destruct (PyStr.is_space a); simpl; lia.
Qed.

Lemma rstrip_len (s : string) : PyStr.len (PyStr.rstrip s) <= PyStr.len s.
Proof.
  unfold PyStr.len. induction s as [|a s IH]; simpl; [lia|].
  destruct (PyStr.rstrip s); [destruct (PyStr.is_space a)|]; simpl in *; lia.
Qed.

Lemma strip_len (s : string) : PyStr.len (PyStr.strip s) <= PyStr.len s.
Proof.
  unfold PyStr.strip.
  pose proof (rstrip_len (PyStr.lstrip s)). pose proof (lstrip_len s). lia.
Qed.

End Display.

(** X19: the text [view_summary] shows for a chunk has at most 303
    characters.  A summary of at most 300 characters is shown whole, after
    double line breaks are collapsed and surrounding white space is removed;
    a longer cleaned text is cut to its first 300 characters followed by
    ["..."]. *)
Theorem display_text_is_bounded (summary : string) :
  let cleaned := PyStr.strip (replace_double_newline summary) in
  PyStr.len (display_text summary) <= 303 /\
  PyStr.len cleaned <= PyStr.len summary /\
  (PyStr.len summary <= 300 -> display_text summary = cleaned) /\
  (300 < PyStr.len cleaned ->
   display_text summary = (PyStr.take 300 cleaned ++ "...")%string /\
   PyStr.len (display_text summary) = 303).
Proof.
  intros cleaned.
  assert (Hclean : PyStr.len cleaned <= PyStr.len summary).
  { unfold cleaned.
    pose proof (strip_len (replace_double_newline summary)).
    pose proof (replace_double_newline_len (PyStr.len summary) summary (le_n _)). lia. }
  unfold display_text. fold cleaned.
  destruct (Nat.ltb_spec 300 (PyStr.len cleaned)) as [Hlong|Hshort].
  - assert (Hlen : PyStr.len (PyStr.take 300 cleaned ++ "...")%string = 303).
    { rewrite len_app, take_len by lia. reflexivity. }
    split; [lia|]. split; [exact Hclean|]. split; [lia|]. intros _. split; [reflexivity | exact Hlen].
  - split; [lia|]. split; [exact Hclean|]. split; [reflexivity | lia].
Qed.

